(** * The PKCE OAuth session manager and the extension bridge, verified

    A shallow embedding of the session manager of [src/lib/oauth.ts], of
    the extension client ([@/lib/extension-client]) and of the types of
    [src/types/auth.ts] and [src/types/extension.ts].

    Conventions of the embedding.
    - A JavaScript text string is a [string]: the bytes of its UTF-8 form.
      All literals of the source are ASCII, so they read the same here.
      [TextEncoder.encode] therefore returns the bytes of the string.  A
      binary string (the argument of [btoa]) is a [string] too: one
      character for each of its code units, which are all below 256.
    - [localStorage] is a [gmap string string]; [getItem] of a missing key is
      [None] (JavaScript [null]).
    - An [async] function is cut at its [await]s into synchronous segments;
      a segment takes the world and returns the new world and either the
      settled promise or the suspension it is waiting at.
    - What the platform supplies (random bytes, the network, the clock, the
      injected [window.bodhiext]) is a parameter. *)

From Stdlib Require Import ZArith NArith List Ascii String Bool Lia.
From stdpp Require Import base option list strings gmap pretty.

Local Open Scope Z_scope.

(* String concatenation computes under [simpl] in this development. *)
Arguments String.append !_ _ / : simpl nomatch.

(** ** JavaScript values the code tests for truthiness *)

(** [!s] for a string: only the empty string is falsy. *)
Definition str_truthy (s : string) : bool :=
  match s with
  | EmptyString => false
  | String _ _ => true
  end.

(** [!v] for [v : string | null]. *)
Definition truthy (v : option string) : bool :=
  match v with
  | Some s => str_truthy s
  | None => false
  end.

(** [a || b] on [string | undefined] operands with a string default. *)
Definition or_default (v : option string) (d : string) : string :=
  if truthy v then default d v else d.

(** [a !== b] for [a : string | null] and [b : string]. *)
Definition strict_ne (a : option string) (b : string) : bool :=
  match a with
  | Some s => negb (String.eqb s b)
  | None => true
  end.

(** ** Thrown values *)

Inductive exn : Type :=
| Error (message : string)
| ExtensionNotFoundError (timeout : Z)
| ExtensionTimeoutError (timeout : Z)
| Thrown (rendering : string).

(** ** Numbers in text

    A Number that holds an integer is given by that integer.  An integer
    that is no Number stands for the Number nearest to it (on a tie the one
    with the even significand), as a literal does. *)

(** The Number nearest to a non-negative integer. *)
Definition nearest_Number (n : Z) : Z :=
  if n <? 2 ^ 53 then n
  else
    let q := Z.log2 n - 52 in
    let m := n / 2 ^ q in
    let r := n mod 2 ^ q in
    let half := 2 ^ (q - 1) in
    (if (half <? r) || ((r =? half) && Z.odd m) then m + 1 else m) * 2 ^ q.

(** Whether the integer [x] is read back as the Number [v] (at least
    2^53): [x] lies no further from [v] than half the way to the Number
    below and to the one above, the ends counting when the significand of
    [v] is even.  All quantities are taken four times. *)
Definition reads_as (v x : Z) : bool :=
  let q := Z.log2 v - 52 in
  let m := v / 2 ^ q in
  let below := if m =? 2 ^ 52 then 2 ^ q else 2 ^ (q + 1) in
  let above := 2 ^ (q + 1) in
  if Z.even m
  then (4 * v - below <=? 4 * x) && (4 * x <=? 4 * v + above)
  else (4 * v - below <? 4 * x) && (4 * x <? 4 * v + above).

(** The digits [s], their number [k] and the position [n] of the decimal
    point of [Number::toString]: [k] is as small as possible for
    [s * 10^(n-k)] to be read back as [v]; of two such [s] the nearer to [v]
    is taken, the even one when they are as near.  [nd] is the number of
    decimal digits of [v]; the search starts at [k] digits. *)
Fixpoint shortest_digits (v nd : Z) (fuel : nat) (k : Z) : Z * Z * Z :=
  match fuel with
  | O => (v, nd, nd)
  | S fuel =>
      let p := 10 ^ (nd - k) in
      let s1 := v / p in
      let s2 := s1 + 1 in
      let ok1 := reads_as v (s1 * p) in
      let ok2 := reads_as v (s2 * p) in
      if ok1 || ok2 then
        let s :=
          if ok1 && ok2 then
            if v - s1 * p <? s2 * p - v then s1
            else if s2 * p - v <? v - s1 * p then s2
            else if Z.even s1 then s1 else s2
          else if ok1 then s1 else s2 in
        if s =? 10 ^ k then (1, 1, nd + 1) else (s, k, nd)
      else shortest_digits v nd fuel (k + 1)
  end.

(** [Number::toString] of a non-negative Number that holds an integer:
    decimal digits below 10^21, the exponent form from there on. *)
Definition Number_toString (v : Z) : string :=
  if v <? 10 ^ 21 then pretty v
  else if 2 ^ 1024 <=? v then "Infinity"
  else
    let '(s, k, n) :=
      shortest_digits v (Z.of_nat (String.length (pretty v))) 17 1 in
    match pretty s with
    | String d EmptyString => String d EmptyString +:+ "e+" +:+ pretty (n - 1)
    | String d rest => String d ("." +:+ rest) +:+ "e+" +:+ pretty (n - 1)
    | EmptyString => EmptyString
    end.

(** [`${n}`] for an integral number. *)
Definition num_to_string (n : Z) : string :=
  (if n <? 0 then "-" else EmptyString)
  +:+ Number_toString (nearest_Number (Z.abs n)).

(** The [message] an error carries; the two subclasses of
    [src/types/extension.ts] build theirs in the constructor. *)
Definition message (e : exn) : string :=
  match e with
  | Error m => m
  | ExtensionNotFoundError t =>
      "Bodhi extension not detected within " +:+ num_to_string t +:+ "ms"
  | ExtensionTimeoutError t =>
      "Timeout fetching extension ID within " +:+ num_to_string t +:+ "ms"
  | Thrown r => r
  end.

(** [error.name]. *)
Definition name (e : exn) : string :=
  match e with
  | Error _ => "Error"
  | ExtensionNotFoundError _ => "ExtensionNotFoundError"
  | ExtensionTimeoutError _ => "ExtensionTimeoutError"
  | Thrown _ => ""
  end.

(** [error instanceof Error ? error.message : String(error)] *)
Definition describe (e : exn) : string := message e.

(** [error instanceof ExtensionTimeoutError] *)
Definition is_ExtensionTimeoutError (e : exn) : bool :=
  match e with
  | ExtensionTimeoutError _ => true
  | _ => false
  end.

(** A settled promise, or the outcome of a block that may throw. *)
Inductive result (A : Type) : Type :=
| Ok (a : A)
| Rejected (e : exn).
Arguments Ok {A} a.
Arguments Rejected {A} e.

(** ** Strings: substring and character predicates *)

Definition contains (s sub : string) : Prop :=
  exists pre post, s = pre +:+ sub +:+ post.

Fixpoint string_forall (p : ascii -> bool) (s : string) : bool :=
  match s with
  | EmptyString => true
  | String c r => p c && string_forall p r
  end.

(** ** localStorage *)

Module STORAGE_KEYS.
Definition RESOURCE_SCOPE : string := "bodhi_resource_scope".
Definition ACCESS_TOKEN : string := "bodhi_access_token".
Definition REFRESH_TOKEN : string := "bodhi_refresh_token".
Definition CODE_VERIFIER : string := "bodhi_code_verifier".
Definition STATE : string := "bodhi_state".
Definition USER_INFO : string := "bodhi_user_info".
(** [Object.values(STORAGE_KEYS)], in declaration order. *)
Definition values : list string :=
  [RESOURCE_SCOPE; ACCESS_TOKEN; REFRESH_TOKEN; CODE_VERIFIER; STATE; USER_INFO].
End STORAGE_KEYS.

Definition getItem (k : string) (ls : gmap string string) : option string := ls !! k.
Definition setItem (k v : string) (ls : gmap string string) : gmap string string := <[k:=v]> ls.
Definition removeItem (k : string) (ls : gmap string string) : gmap string string := delete k ls.

(** ** JSON: [JSON.stringify] and [JSON.parse]

    The platform's two functions, after ECMA-262 (sections 25.5.1 and 25.5.2)
    and the JSON grammar of ECMA-404.  A number keeps its literal: the
    conversion to a double plays no part in what follows.  An object keeps
    its members in order of first appearance, a repeated key taking the last
    value. *)

Module JSON.

#[warnings="-register-all"]
Inductive value : Type :=
| JNull
| JBool (b : bool)
| JNumber (literal : string)
| JString (s : string)
| JArray (items : list value)
| JObject (members : list (string * value)).

Definition dquote : ascii := "034"%char.
Definition backslash : ascii := "092"%char.

Definition hex_digit (n : N) : ascii :=
  if (n <? 10)%N then ascii_of_N (48 + n) else ascii_of_N (87 + n).

(** One character of a quoted string (QuoteJSONString). *)
Definition escape (c : ascii) : string :=
  match c with
  | "008"%char => "\b"
  | "009"%char => "\t"
  | "010"%char => "\n"
  | "012"%char => "\f"
  | "013"%char => "\r"
  | "034"%char => String backslash (String dquote EmptyString)
  | "092"%char => String backslash (String backslash EmptyString)
  | _ =>
      if (N_of_ascii c <? 32)%N
      then "\u00" +:+ String (hex_digit (N_of_ascii c / 16))
                       (String (hex_digit (N_of_ascii c mod 16)) EmptyString)
      else String c EmptyString
  end.

Fixpoint quote_body (s : string) : string :=
  match s with
  | EmptyString => EmptyString
  | String c r => escape c +:+ quote_body r
  end.

Definition quote (s : string) : string :=
  String dquote (quote_body s +:+ String dquote EmptyString).

Fixpoint join_comma (parts : list string) : string :=
  match parts with
  | [] => EmptyString
  | [p] => p
  | p :: rest => p +:+ "," +:+ join_comma rest
  end.

Fixpoint stringify (v : value) : string :=
  match v with
  | JNull => "null"
  | JBool true => "true"
  | JBool false => "false"
  | JNumber lit => lit
  | JString s => quote s
  | JArray items => "[" +:+ join_comma (map stringify items) +:+ "]"
  | JObject members =>
      "{" +:+ join_comma
                (map (fun m => quote (fst m) +:+ ":" +:+ stringify (snd m)) members)
          +:+ "}"
  end.

(** *** Parsing *)

Definition is_ws (c : ascii) : bool :=
  match c with
  | " "%char | "009"%char | "010"%char | "013"%char => true
  | _ => false
  end.

Fixpoint skip_ws (s : string) : string :=
  match s with
  | String c r => if is_ws c then skip_ws r else s
  | EmptyString => s
  end.

Definition is_digit (c : ascii) : bool :=
  (48 <=? N_of_ascii c)%N && (N_of_ascii c <=? 57)%N.

Definition hex_value (c : ascii) : option N :=
  let n := N_of_ascii c in
  if (48 <=? n)%N && (n <=? 57)%N then Some (n - 48)%N
  else if (65 <=? n)%N && (n <=? 70)%N then Some (n - 55)%N
  else if (97 <=? n)%N && (n <=? 102)%N then Some (n - 87)%N
  else None.

Definition hex4 (a b c d : ascii) : option N :=
  match hex_value a, hex_value b, hex_value c, hex_value d with
  | Some x, Some y, Some z, Some w => Some (((x * 16 + y) * 16 + z) * 16 + w)%N
  | _, _, _, _ => None
  end.

(** The UTF-8 bytes of a code point (a lone surrogate keeps its
    three-byte generalised form). *)
Definition utf8 (cp : N) : string :=
  if (cp <? 128)%N then String (ascii_of_N cp) EmptyString
  else if (cp <? 2048)%N then
    String (ascii_of_N (192 + cp / 64))
      (String (ascii_of_N (128 + cp mod 64)) EmptyString)
  else if (cp <? 65536)%N then
    String (ascii_of_N (224 + cp / 4096))
      (String (ascii_of_N (128 + (cp / 64) mod 64))
         (String (ascii_of_N (128 + cp mod 64)) EmptyString))
  else
    String (ascii_of_N (240 + cp / 262144))
      (String (ascii_of_N (128 + (cp / 4096) mod 64))
         (String (ascii_of_N (128 + (cp / 64) mod 64))
            (String (ascii_of_N (128 + cp mod 64)) EmptyString))).

Definition is_high_surrogate (u : N) : bool := (55296 <=? u)%N && (u <=? 56319)%N.
Definition is_low_surrogate (u : N) : bool := (56320 <=? u)%N && (u <=? 57343)%N.

Definition prepend (pre : string) (r : option (string * string)) : option (string * string) :=
  match r with
  | Some (s, rest) => Some (pre +:+ s, rest)
  | None => None
  end.

(** The characters of a string after its opening quote, up to and
    including the closing quote: the decoded text and what follows. *)
Fixpoint parse_string_body (s : string) : option (string * string) :=
  match s with
  | EmptyString => None
  | String c r =>
      if Ascii.eqb c dquote then Some (EmptyString, r)
      else if Ascii.eqb c backslash then
        match r with
        | String e r1 =>
            match e with
            | "034"%char => prepend (String dquote EmptyString) (parse_string_body r1)
            | "092"%char => prepend (String backslash EmptyString) (parse_string_body r1)
            | "/"%char => prepend "/" (parse_string_body r1)
            | "b"%char => prepend (String "008"%char EmptyString) (parse_string_body r1)
            | "f"%char => prepend (String "012"%char EmptyString) (parse_string_body r1)
            | "n"%char => prepend (String "010"%char EmptyString) (parse_string_body r1)
            | "r"%char => prepend (String "013"%char EmptyString) (parse_string_body r1)
            | "t"%char => prepend (String "009"%char EmptyString) (parse_string_body r1)
            | "u"%char =>
                match r1 with
                | String h1 (String h2 (String h3 (String h4 r2))) =>
                    match hex4 h1 h2 h3 h4 with
                    | Some u =>
                        if is_high_surrogate u then
                          match r2 with
                          | String "092"%char (String "u"%char
                              (String l1 (String l2 (String l3 (String l4 r3))))) =>
                              match hex4 l1 l2 l3 l4 with
                              | Some l =>
                                  if is_low_surrogate l
                                  then prepend
                                         (utf8 (65536 + (u - 55296) * 1024 + (l - 56320)))
                                         (parse_string_body r3)
                                  else prepend (utf8 u) (parse_string_body r2)
                              | None => prepend (utf8 u) (parse_string_body r2)
                              end
                          | _ => prepend (utf8 u) (parse_string_body r2)
                          end
                        else prepend (utf8 u) (parse_string_body r2)
                    | None => None
                    end
                | _ => None
                end
            | _ => None
            end
        | EmptyString => None
        end
      else if (N_of_ascii c <? 32)%N then None
      else prepend (String c EmptyString) (parse_string_body r)
  end.

(** The longest prefix of digits, and the rest. *)
Fixpoint span_digits (s : string) : string * string :=
  match s with
  | String c r =>
      if is_digit c
      then let (ds, rest) := span_digits r in (String c ds, rest)
      else (EmptyString, s)
  | EmptyString => (EmptyString, s)
  end.

Definition digits1 (s : string) : option (string * string) :=
  match span_digits s with
  | (EmptyString, _) => None
  | p => Some p
  end.

(** [int = "0" | digit1-9 digits] *)
Definition parse_int (s : string) : option (string * string) :=
  match s with
  | String "0"%char r => Some ("0", r)
  | _ => digits1 s
  end.

Definition parse_frac (s : string) : option (string * string) :=
  match s with
  | String "."%char r => prepend "." (digits1 r)
  | _ => Some (EmptyString, s)
  end.

Definition parse_exp (s : string) : option (string * string) :=
  match s with
  | String c r =>
      if Ascii.eqb c "e" || Ascii.eqb c "E" then
        match r with
        | String g r1 =>
            if Ascii.eqb g "+" || Ascii.eqb g "-"
            then prepend (String c (String g EmptyString)) (digits1 r1)
            else prepend (String c EmptyString) (digits1 r)
        | EmptyString => None
        end
      else Some (EmptyString, s)
  | EmptyString => Some (EmptyString, s)
  end.

Definition parse_number (s : string) : option (string * string) :=
  let (sign, s0) :=
    match s with
    | String "-"%char r => ("-", r)
    | _ => (EmptyString, s)
    end in
  match parse_int s0 with
  | Some (i, s1) =>
      match parse_frac s1 with
      | Some (f, s2) =>
          match parse_exp s2 with
          | Some (e, s3) => Some (sign +:+ i +:+ f +:+ e, s3)
          | None => None
          end
      | None => None
      end
  | None => None
  end.

Fixpoint expect (word s : string) : option string :=
  match word, s with
  | EmptyString, _ => Some s
  | String w word', String c r => if Ascii.eqb w c then expect word' r else None
  | String _ _, EmptyString => None
  end.

(** [CreateDataProperty]: a repeated key takes the later value. *)
Fixpoint set_member (k : string) (v : value) (ms : list (string * value))
  : list (string * value) :=
  match ms with
  | [] => [(k, v)]
  | (k', v') :: rest =>
      if String.eqb k' k then (k, v) :: rest else (k', v') :: set_member k v rest
  end.

(** The array index a key stands for, if it is one: the canonical decimal
    form of an integer from 0 to 2^32 - 2. *)
Definition array_index (k : string) : option N :=
  match k with
  | EmptyString => None
  | String "0"%char EmptyString => Some 0%N
  | String "0"%char _ => None
  | _ =>
      if string_forall is_digit k && (String.length k <=? 10)%nat then
        let n := fold_left (fun acc c => (acc * 10 + (N_of_ascii c - 48))%N)
                           (list_ascii_of_string k) 0%N in
        if (n <? 4294967295)%N then Some n else None
      else None
  end.

(** A member whose key is an array index, put in its place among such
    members in ascending order. *)
Fixpoint insert_index (i : N) (m : string * value) (ms : list (N * (string * value)))
  : list (N * (string * value)) :=
  match ms with
  | [] => [(i, m)]
  | (j, m') :: rest =>
      if (i <? j)%N then (i, m) :: ms else (j, m') :: insert_index i m rest
  end.

(** [OrdinaryOwnPropertyKeys]: the keys that are array indices come first,
    in ascending order, then the others in the order they were created. *)
Definition own_properties (ms : list (string * value)) : list (string * value) :=
  let indexed :=
    fold_left (fun acc m => match array_index (fst m) with
                            | Some i => insert_index i m acc
                            | None => acc
                            end) ms [] in
  map snd indexed
  ++ List.filter (fun m => match array_index (fst m) with
                           | Some _ => false
                           | None => true
                           end) ms.

Definition collect (ms : list (string * value)) : list (string * value) :=
  own_properties (fold_left (fun acc m => set_member (fst m) (snd m) acc) ms []).

(** One JSON value at the head of [s] (after white space) and the rest.
    [fuel] bounds the nesting; each level of the grammar uses one unit. *)
Fixpoint parse_value (fuel : nat) (s : string) : option (value * string) :=
  match fuel with
  | O => None
  | S fuel =>
      match skip_ws s with
      | String "n"%char r => r' ← expect "ull" r; Some (JNull, r')
      | String "t"%char r => r' ← expect "rue" r; Some (JBool true, r')
      | String "f"%char r => r' ← expect "alse" r; Some (JBool false, r')
      | String "034"%char r =>
          '(str, r') ← parse_string_body r; Some (JString str, r')
      | String "["%char r =>
          match skip_ws r with
          | String "]"%char r' => Some (JArray [], r')
          | r0 => '(items, r') ← parse_elements fuel r0; Some (JArray items, r')
          end
      | String "{"%char r =>
          match skip_ws r with
          | String "}"%char r' => Some (JObject [], r')
          | r0 => '(ms, r') ← parse_members fuel r0; Some (JObject (collect ms), r')
          end
      | s0 => '(lit, r') ← parse_number s0; Some (JNumber lit, r')
      end
  end
with parse_elements (fuel : nat) (s : string) : option (list value * string) :=
  match fuel with
  | O => None
  | S fuel =>
      '(v, r) ← parse_value fuel s;
      match skip_ws r with
      | String ","%char r' => '(vs, r'') ← parse_elements fuel r'; Some (v :: vs, r'')
      | String "]"%char r' => Some ([v], r')
      | _ => None
      end
  end
with parse_members (fuel : nat) (s : string) : option (list (string * value) * string) :=
  match fuel with
  | O => None
  | S fuel =>
      match skip_ws s with
      | String "034"%char r =>
          '(k, r0) ← parse_string_body r;
          match skip_ws r0 with
          | String ":"%char r1 =>
              '(v, r2) ← parse_value fuel r1;
              match skip_ws r2 with
              | String ","%char r3 =>
                  '(ms, r4) ← parse_members fuel r3; Some ((k, v) :: ms, r4)
              | String "}"%char r3 => Some ([(k, v)], r3)
              | _ => None
              end
          | _ => None
          end
      | _ => None
      end
  end.

(** [JSON.parse(text)]; [None] is the [SyntaxError]. *)
Definition parse (text : string) : option value :=
  match parse_value (2 * String.length text + 2) text with
  | Some (v, rest) =>
      match skip_ws rest with
      | EmptyString => Some v
      | String _ _ => None
      end
  | None => None
  end.

End JSON.

(** ** The types of [src/types/auth.ts] and [src/types/extension.ts] *)

Record UserInfo : Type := {
  email : string;
  role : string;
  tokenType : string;
  loggedIn : bool
}.

(** The object a [UserInfo] is at run time. *)
Definition UserInfo_value (u : UserInfo) : JSON.value :=
  JSON.JObject
    [("email", JSON.JString (email u));
     ("role", JSON.JString (role u));
     ("tokenType", JSON.JString (tokenType u));
     ("loggedIn", JSON.JBool (loggedIn u))].

(** [refresh_token] is optional in the interface; [access_token] is tested
    by the code, so it may be missing at run time as well. *)
Record TokenResponse : Type := {
  access_token : option string;
  token_type : string;
  expires_in : Z;
  refresh_token : option string;
  scope : string
}.

(** A call of [fetch(url, {method, headers, body})]. *)
Record FetchRequest : Type := {
  fetch_url : string;
  fetch_method : string;
  fetch_headers : list (string * string);
  fetch_body : string
}.

(** A call of [extensionClient.sendApiRequest(method, endpoint, body, headers)];
    an argument left [undefined] is [None]. *)
Record ApiRequest : Type := {
  api_method : string;
  api_endpoint : string;
  api_body : option JSON.value;
  api_headers : option (list (string * string))
}.

(** [ApiResponse]: [body] is [any] in the source; the two endpoints the
    manager calls answer with an object of string fields. *)
Record ApiResponse : Type := {
  body : gmap string string;
  headers : list (string * string);
  status : Z
}.

(** ** The world the manager runs in

    [localStorage], the private field of the one [oauthManager] instance,
    and the calls made so far on the network and on the bridge. *)

Record World : Type := {
  localStorage : gmap string string;
  isExchangingTokens : bool;
  fetched : list FetchRequest;
  sent : list ApiRequest
}.

Definition with_storage (f : gmap string string -> gmap string string) (w : World) : World :=
  {| localStorage := f (localStorage w);
     isExchangingTokens := isExchangingTokens w;
     fetched := fetched w;
     sent := sent w |}.

Definition set_exchanging (b : bool) (w : World) : World :=
  {| localStorage := localStorage w;
     isExchangingTokens := b;
     fetched := fetched w;
     sent := sent w |}.

Definition do_fetch (r : FetchRequest) (w : World) : World :=
  {| localStorage := localStorage w;
     isExchangingTokens := isExchangingTokens w;
     fetched := fetched w ++ [r];
     sent := sent w |}.

Definition do_send (r : ApiRequest) (w : World) : World :=
  {| localStorage := localStorage w;
     isExchangingTokens := isExchangingTokens w;
     fetched := fetched w;
     sent := sent w ++ [r] |}.

(** ** OAuthManager: the synchronous methods *)

Definition getAccessToken (w : World) : option string :=
  getItem STORAGE_KEYS.ACCESS_TOKEN (localStorage w).

Definition isAuthenticated (w : World) : bool := truthy (getAccessToken w).

(** The result is [UserInfo | null]: whatever [JSON.parse] made of the
    entry, [JNull] standing for [null]. *)
Definition getUserInfo (w : World) : JSON.value :=
  match getItem STORAGE_KEYS.USER_INFO (localStorage w) with
  | None => JSON.JNull
  | Some userInfoStr =>
      if negb (str_truthy userInfoStr) then JSON.JNull
      else match JSON.parse userInfoStr with
           | Some v => v
           | None => JSON.JNull
           end
  end.

Definition setUserInfo (userInfo : UserInfo) (w : World) : World :=
  with_storage
    (setItem STORAGE_KEYS.USER_INFO (JSON.stringify (UserInfo_value userInfo))) w.

Definition logout (w : World) : World :=
  set_exchanging false
    (with_storage
       (fun ls => fold_left (fun acc key => removeItem key acc) STORAGE_KEYS.values ls) w).

(** ** The platform's SHA-256 ([crypto.subtle.digest('SHA-256', data)])

    FIPS 180-4, on 32-bit words kept in [Z] with the wrap-around written
    out.  Bytes cross the interface as [ascii]. *)

Module SHA256.

Definition mask32 : Z := 0xffffffff.
Definition add32 (x y : Z) : Z := (x + y) mod 2 ^ 32.
Definition rotr (n x : Z) : Z :=
  Z.lor (Z.shiftr x n) (Z.land (Z.shiftl x (32 - n)) mask32).
Definition shr (n x : Z) : Z := Z.shiftr x n.

Definition Ch (x y z : Z) : Z :=
  Z.lxor (Z.land x y) (Z.land (Z.lxor x mask32) z).
Definition Maj (x y z : Z) : Z :=
  Z.lxor (Z.lxor (Z.land x y) (Z.land x z)) (Z.land y z).
Definition bsig0 (x : Z) : Z := Z.lxor (Z.lxor (rotr 2 x) (rotr 13 x)) (rotr 22 x).
Definition bsig1 (x : Z) : Z := Z.lxor (Z.lxor (rotr 6 x) (rotr 11 x)) (rotr 25 x).
Definition ssig0 (x : Z) : Z := Z.lxor (Z.lxor (rotr 7 x) (rotr 18 x)) (shr 3 x).
Definition ssig1 (x : Z) : Z := Z.lxor (Z.lxor (rotr 17 x) (rotr 19 x)) (shr 10 x).

(** The largest [r] with [r ^ e <= n], found bit by bit from the top. *)
Definition iroot (e n : Z) : Z :=
  fold_left
    (fun r i => let c := r + 2 ^ Z.of_nat i in if c ^ e <=? n then c else r)
    (rev (seq 0 48)) 0.

Definition is_prime (p : nat) : bool :=
  forallb (fun d => negb (Nat.eqb (p mod d) 0)) (seq 2 (p - 2)).

(** The first 64 primes: those up to 311. *)
Definition primes : list Z :=
  map Z.of_nat (List.filter is_prime (seq 2 310)).

(** The round constants: the first 32 bits of the fractional parts of the
    cube roots of the first 64 primes. *)
Definition K : list Z :=
  Eval vm_compute in map (fun p => iroot 3 (p * 2 ^ 96) mod 2 ^ 32) primes.

(** The initial hash value: the same of the square roots of the first
    eight primes. *)
Definition H0_words : list Z :=
  Eval vm_compute in map (fun p => iroot 2 (p * 2 ^ 64) mod 2 ^ 32) (firstn 8 primes).

(** The eight working variables. *)
Record state : Type := mk {
  ha : Z; hb : Z; hc : Z; hd : Z; he : Z; hf : Z; hg : Z; hh : Z
}.

Definition H0 : state :=
  mk (nth 0 H0_words 0) (nth 1 H0_words 0) (nth 2 H0_words 0) (nth 3 H0_words 0)
     (nth 4 H0_words 0) (nth 5 H0_words 0) (nth 6 H0_words 0) (nth 7 H0_words 0).

Definition be_bytes (n : nat) (x : Z) : list Z :=
  map (fun i => (x / 2 ^ (8 * Z.of_nat i)) mod 256) (rev (seq 0 n)).

(** The message, a [1] bit, zeros up to 56 mod 64, the bit length. *)
Definition pad (msg : list Z) : list Z :=
  let len := Z.of_nat (length msg) in
  msg ++ [128] ++ repeat 0 (Z.to_nat ((55 - len) mod 64)) ++ be_bytes 8 (8 * len).

Fixpoint words (bytes : list Z) : list Z :=
  match bytes with
  | b3 :: b2 :: b1 :: b0 :: rest =>
      (((b3 * 256 + b2) * 256 + b1) * 256 + b0) :: words rest
  | _ => []
  end.

Fixpoint blocks (n : nat) (ws : list Z) : list (list Z) :=
  match n with
  | O => []
  | S n => firstn 16 ws :: blocks n (skipn 16 ws)
  end.

(** The message schedule: [n] more words after those of [w]. *)
Fixpoint extend (n : nat) (w : list Z) : list Z :=
  match n with
  | O => w
  | S n =>
      let t := length w in
      extend n
        (w ++ [add32 (add32 (ssig1 (nth (t - 2) w 0)) (nth (t - 7) w 0))
                     (add32 (ssig0 (nth (t - 15) w 0)) (nth (t - 16) w 0))])
  end.

Definition round (s : state) (kw : Z * Z) : state :=
  let t1 := add32 (add32 (add32 (hh s) (bsig1 (he s)))
                         (add32 (Ch (he s) (hf s) (hg s)) (fst kw))) (snd kw) in
  let t2 := add32 (bsig0 (ha s)) (Maj (ha s) (hb s) (hc s)) in
  mk (add32 t1 t2) (ha s) (hb s) (hc s) (add32 (hd s) t1) (he s) (hf s) (hg s).

Definition compress (s : state) (block : list Z) : state :=
  let r := fold_left round (combine K (extend 48 block)) s in
  mk (add32 (ha s) (ha r)) (add32 (hb s) (hb r)) (add32 (hc s) (hc r))
     (add32 (hd s) (hd r)) (add32 (he s) (he r)) (add32 (hf s) (hf r))
     (add32 (hg s) (hg r)) (add32 (hh s) (hh r)).

Definition hash (msg : list Z) : state :=
  let ws := words (pad msg) in
  fold_left compress (blocks (length ws / 16) ws) H0.

Definition output (s : state) : list Z :=
  be_bytes 4 (ha s) ++ be_bytes 4 (hb s) ++ be_bytes 4 (hc s) ++ be_bytes 4 (hd s)
  ++ be_bytes 4 (he s) ++ be_bytes 4 (hf s) ++ be_bytes 4 (hg s) ++ be_bytes 4 (hh s).

Definition digest (data : list ascii) : list ascii :=
  map (fun b => ascii_of_N (Z.to_N b))
      (output (hash (map (fun c => Z.of_N (N_of_ascii c)) data))).

End SHA256.

(** ** PKCEUtils *)

(** The platform's random source: the bytes it will hand out, in order. *)
Definition Rng : Type := nat -> ascii.

(** [crypto.getRandomValues(array)] for a [Uint8Array] of [n] bytes. *)
Definition getRandomValues (n : nat) (rng : Rng) : list ascii * Rng :=
  (map rng (seq 0 n), fun i => rng (n + i)%nat).

(** [parts.join(sep)] *)
Fixpoint join (sep : string) (parts : list string) : string :=
  match parts with
  | [] => EmptyString
  | [p] => p
  | p :: rest => p +:+ sep +:+ join sep rest
  end.

(** [new TextEncoder().encode(s)]: the UTF-8 bytes of the string. *)
Definition TextEncoder_encode (s : string) : list ascii := list_ascii_of_string s.

(** [String.fromCharCode(...bytes)] for the bytes of a [Uint8Array]: the
    binary string with one code unit per byte. *)
Definition String_fromCharCode (bytes : list ascii) : string := string_of_list_ascii bytes.

(** [s.replace(/c/g, by)] for a one-character pattern. *)
Fixpoint replace_all (c : ascii) (by_ : string) (s : string) : string :=
  match s with
  | EmptyString => EmptyString
  | String x r =>
      if Ascii.eqb x c then by_ +:+ replace_all c by_ r
      else String x (replace_all c by_ r)
  end.

Module Base64.

Definition alphabet : list ascii :=
  list_ascii_of_string
    "ABCDEFGHIJKLMNOPQRSTUVWXYZabcdefghijklmnopqrstuvwxyz0123456789+/".

Definition url_alphabet : list ascii :=
  list_ascii_of_string
    "ABCDEFGHIJKLMNOPQRSTUVWXYZabcdefghijklmnopqrstuvwxyz0123456789-_".

Definition sextet1 (a : ascii) : N := (N_of_ascii a / 4)%N.
Definition sextet2 (a b : ascii) : N :=
  ((N_of_ascii a mod 4) * 16 + N_of_ascii b / 16)%N.
Definition sextet3 (b c : ascii) : N :=
  ((N_of_ascii b mod 16) * 4 + N_of_ascii c / 64)%N.
Definition sextet4 (c : ascii) : N := (N_of_ascii c mod 64)%N.

Definition digit (table : list ascii) (n : N) : ascii := nth (N.to_nat n) table "A"%char.

(** [btoa(binary)]: base64 of RFC 4648 section 4, with [=] padding. *)
Fixpoint btoa (binary : string) : string :=
  match binary with
  | String a (String b (String c rest)) =>
      String (digit alphabet (sextet1 a))
        (String (digit alphabet (sextet2 a b))
           (String (digit alphabet (sextet3 b c))
              (String (digit alphabet (sextet4 c)) (btoa rest))))
  | String a (String b EmptyString) =>
      String (digit alphabet (sextet1 a))
        (String (digit alphabet (sextet2 a b))
           (String (digit alphabet (sextet3 b "000"%char)) "="))
  | String a EmptyString =>
      String (digit alphabet (sextet1 a))
        (String (digit alphabet (sextet2 a "000"%char)) "==")
  | EmptyString => EmptyString
  end.

(** What the specification names: the base64url encoding of RFC 4648
    section 5 (the URL-safe alphabet), written without padding. *)
Fixpoint base64url_nopad (bytes : list ascii) : string :=
  match bytes with
  | a :: b :: c :: rest =>
      String (digit url_alphabet (sextet1 a))
        (String (digit url_alphabet (sextet2 a b))
           (String (digit url_alphabet (sextet3 b c))
              (String (digit url_alphabet (sextet4 c)) (base64url_nopad rest))))
  | [a; b] =>
      String (digit url_alphabet (sextet1 a))
        (String (digit url_alphabet (sextet2 a b))
           (String (digit url_alphabet (sextet3 b "000"%char)) EmptyString))
  | [a] =>
      String (digit url_alphabet (sextet1 a))
        (String (digit url_alphabet (sextet2 a "000"%char)) EmptyString)
  | [] => EmptyString
  end.

End Base64.

Module PKCEUtils.

Definition generateRandomString (length : nat) (rng : Rng) : string * Rng :=
  let (array, rng') := getRandomValues length rng in
  (join EmptyString
     (map (fun byte => String (ascii_of_N ((N_of_ascii byte mod 26) + 97)) EmptyString)
          array),
   rng').

Definition generatePKCEChallenge (verifier : string) : string :=
  let data := TextEncoder_encode verifier in
  let digest := SHA256.digest data in
  replace_all "=" EmptyString
    (replace_all "/" "_"
       (replace_all "+" "-" (Base64.btoa (String_fromCharCode digest)))).

End PKCEUtils.

(** The three replacements of [generatePKCEChallenge], in order. *)
Definition url_replacements (s : string) : string :=
  replace_all "=" EmptyString (replace_all "/" "_" (replace_all "+" "-" s)).

(** The characters that make base64 unsafe in a URL. *)
Definition url_unsafe (c : ascii) : bool :=
  Ascii.eqb c "+" || Ascii.eqb c "/" || Ascii.eqb c "=".

(** ** URLSearchParams

    The [application/x-www-form-urlencoded] serializer and parser of the URL
    Standard (section 5), on the bytes of the strings. *)

Module URLSearchParams.

Definition HEX (n : N) : ascii :=
  if (n <? 10)%N then ascii_of_N (48 + n) else ascii_of_N (55 + n).

(** Bytes outside the form percent-encode set: ASCII alphanumerics and
    [*], [-], [.], [_]. *)
Definition unreserved (c : ascii) : bool :=
  let n := N_of_ascii c in
  ((48 <=? n) && (n <=? 57) || (65 <=? n) && (n <=? 90) || (97 <=? n) && (n <=? 122)
   || (n =? 42) || (n =? 45) || (n =? 46) || (n =? 95))%N.

Definition encode_byte (c : ascii) : string :=
  if Ascii.eqb c " " then "+"
  else if unreserved c then String c EmptyString
  else String "%" (String (HEX (N_of_ascii c / 16))
                     (String (HEX (N_of_ascii c mod 16)) EmptyString)).

Fixpoint encode (s : string) : string :=
  match s with
  | EmptyString => EmptyString
  | String c r => encode_byte c +:+ encode r
  end.

(** [params.toString()], also what [`${params}`] and a [fetch] body give. *)
Definition toString (params : list (string * string)) : string :=
  join "&" (map (fun p => encode (fst p) +:+ "=" +:+ encode (snd p)) params).

(** *** Parsing *)

(** [s.split(sep)] for a one-character separator. *)
Fixpoint split (sep : ascii) (s : string) : list string :=
  match s with
  | EmptyString => [EmptyString]
  | String c r =>
      if Ascii.eqb c sep then EmptyString :: split sep r
      else match split sep r with
           | h :: t => String c h :: t
           | [] => [String c EmptyString]
           end
  end.

(** The text before the first [sep], and the text after it if there is one. *)
Fixpoint break (sep : ascii) (s : string) : string * option string :=
  match s with
  | EmptyString => (EmptyString, None)
  | String c r =>
      if Ascii.eqb c sep then (EmptyString, Some r)
      else let (a, b) := break sep r in (String c a, b)
  end.

Definition hex_value (c : ascii) : option N :=
  let n := N_of_ascii c in
  if (48 <=? n)%N && (n <=? 57)%N then Some (n - 48)%N
  else if (65 <=? n)%N && (n <=? 70)%N then Some (n - 55)%N
  else if (97 <=? n)%N && (n <=? 102)%N then Some (n - 87)%N
  else None.

Fixpoint percent_decode (s : string) : string :=
  match s with
  | EmptyString => EmptyString
  | String c r =>
      if Ascii.eqb c "%" then
        match r with
        | String h (String l r2) =>
            match hex_value h, hex_value l with
            | Some x, Some y => String (ascii_of_N (x * 16 + y)) (percent_decode r2)
            | _, _ => String c (percent_decode r)
            end
        | _ => String c (percent_decode r)
        end
      else String c (percent_decode r)
  end.

Definition decode (s : string) : string :=
  percent_decode (replace_all "+" " " s).

Definition parse_pair (seq : string) : string * string :=
  let (n, v) := break "=" seq in (decode n, decode (default EmptyString v)).

(** [new URLSearchParams(query)], as the list of its pairs. *)
Definition parse (query : string) : list (string * string) :=
  map parse_pair (filter (fun seq => seq <> EmptyString) (split "&" query)).

(** [params.get(name)] *)
Fixpoint get (name : string) (params : list (string * string)) : option string :=
  match params with
  | [] => None
  | (k, v) :: rest => if String.eqb k name then Some v else get name rest
  end.

End URLSearchParams.

(** [new URL(url).searchParams]: the fragment, from the first [#] on, is
    set apart; the query is what follows the first [?] of the rest. *)
Definition searchParams (url : string) : list (string * string) :=
  match URLSearchParams.break "?" (fst (URLSearchParams.break "#" url)) with
  | (_, Some q) => URLSearchParams.parse q
  | (_, None) => []
  end.

(** ** The extension bridge ([@/lib/extension-client]) *)

(** The [ExtensionClient] interface, as far as the manager uses it. *)
Record ExtensionClient : Type := {
  getExtensionId : string;
  sendApiRequest : ApiRequest -> result ApiResponse
}.

(** [ExtensionClientImpl]: [bodhiext] is [window.bodhiext] at the time of
    the call, [None] when it is undefined. *)
Definition ExtensionClientImpl (extensionId : string)
    (bodhiext : option (ApiRequest -> result ApiResponse)) : ExtensionClient :=
  {| getExtensionId := extensionId;
     sendApiRequest := fun req =>
       match bodhiext with
       | None => Rejected (Error "Bodhi extension not available")
       | Some ext => ext req
       end |}.

(** ** OAuthManager: the asynchronous methods ([src/lib/oauth.ts]) *)

Definition APP_CLIENT_ID : string := "app-a05c53c5-3fc4-409d-833d-f4acc90e1611".
Definition BODHI_AUTH_URL : string := "https://main-id.getbodhi.app".
Definition AUTH_REALM : string := "bodhi".

(** The answer of the token endpoint: its status, and what the promises of
    [response.text()] and [response.json()] settle to. *)
Record Response : Type := {
  resp_status : Z;
  text : result string;
  json : result TokenResponse
}.

(** [response.ok] (Fetch Standard: a status from 200 up to 299). *)
Definition ok (r : Response) : bool := (200 <=? resp_status r) && (resp_status r <=? 299).

(** Where [exchangeCodeForTokens] can be suspended. *)
Inductive Suspension : Type :=
| AwaitFetch (request : FetchRequest)
| AwaitText (response : Response)
| AwaitJson (response : Response).

(** A call after one of its synchronous segments. *)
Inductive Stage : Type :=
| Settled (r : result unit)
| Suspended (s : Suspension).

(** [try { ... } finally { this.isExchangingTokens = false; }]: the flag
    is released when the block is left, not while it waits. *)
Definition finally_release (p : World * Stage) : World * Stage :=
  match p with
  | (w, Settled r) => (set_exchanging false w, Settled r)
  | (w, Suspended s) => (w, Suspended s)
  end.

Section Manager.

(** [window.location.origin] *)
Variable origin : string.

(** The network: what [fetch] settles to for a request. *)
Variable fetch : FetchRequest -> result Response.

Definition REDIRECT_URI : string := origin +:+ "/callback".

Definition requestResourceAccess (extensionClient : ExtensionClient) (w : World)
  : World * result string :=
  let request :=
    {| api_method := "POST";
       api_endpoint := "/bodhi/v1/auth/request-access";
       api_body :=
         Some (JSON.JObject [("app_client_id", JSON.JString APP_CLIENT_ID)]);
       api_headers := None |} in
  let w := do_send request w in
  let wrap e :=
    Rejected (Error ("Failed to request resource access: " +:+ describe e)) in
  match sendApiRequest extensionClient request with
  | Rejected e => (w, wrap e)
  | Ok response =>
      if negb (truthy (body response !! "scope"))
      then (w, wrap (Error "No scope returned from request-access"))
      else
        let scope := default EmptyString (body response !! "scope") in
        (with_storage (setItem STORAGE_KEYS.RESOURCE_SCOPE scope) w, Ok scope)
  end.

Definition buildAuthUrl (rng : Rng) (w : World) : World * result string * Rng :=
  let resourceScope := getItem STORAGE_KEYS.RESOURCE_SCOPE (localStorage w) in
  if negb (truthy resourceScope)
  then (w, Rejected (Error "Resource scope not found. Call requestResourceAccess first."),
        rng)
  else
    let (state, rng) := PKCEUtils.generateRandomString 32 rng in
    let (codeVerifier, rng) := PKCEUtils.generateRandomString 128 rng in
    let codeChallenge := PKCEUtils.generatePKCEChallenge codeVerifier in
    let w := with_storage (setItem STORAGE_KEYS.STATE state) w in
    let w := with_storage (setItem STORAGE_KEYS.CODE_VERIFIER codeVerifier) w in
    let scopes := ["openid"; "email"; "profile"; "roles"; "scope_user_user";
                   default EmptyString resourceScope] in
    let params :=
      [("response_type", "code");
       ("client_id", APP_CLIENT_ID);
       ("redirect_uri", REDIRECT_URI);
       ("scope", join " " scopes);
       ("state", state);
       ("code_challenge", codeChallenge);
       ("code_challenge_method", "S256")] in
    (w,
     Ok (BODHI_AUTH_URL +:+ "/realms/" +:+ AUTH_REALM
         +:+ "/protocol/openid-connect/auth?" +:+ URLSearchParams.toString params),
     rng).

(** *** [exchangeCodeForTokens], segment by segment *)

(** The arguments of the one [fetch] of the exchange. *)
Definition token_request (code codeVerifier : string) : FetchRequest :=
  let tokenUrl := BODHI_AUTH_URL +:+ "/realms/" +:+ AUTH_REALM
                  +:+ "/protocol/openid-connect/token" in
  let params :=
    [("grant_type", "authorization_code");
     ("client_id", APP_CLIENT_ID);
     ("code", code);
     ("redirect_uri", REDIRECT_URI);
     ("code_verifier", codeVerifier)] in
  {| fetch_url := tokenUrl;
     fetch_method := "POST";
     fetch_headers := [("Content-Type", "application/x-www-form-urlencoded")];
     fetch_body := URLSearchParams.toString params |}.

(** From the call to the first [await]. *)
Definition exchange_enter (code state : string) (w : World) : World * Stage :=
  if isAuthenticated w then (w, Settled (Ok tt))
  else if isExchangingTokens w then (w, Settled (Ok tt))
  else
    let w := set_exchanging true w in
    finally_release
      (let storedState := getItem STORAGE_KEYS.STATE (localStorage w) in
       let codeVerifier := getItem STORAGE_KEYS.CODE_VERIFIER (localStorage w) in
       if negb (truthy storedState) || strict_ne storedState state
       then (w, Settled (Rejected (Error "Invalid state parameter")))
       else if negb (truthy codeVerifier)
       then (w, Settled (Rejected (Error "Code verifier not found")))
       else
         let request := token_request code (default EmptyString codeVerifier) in
         (do_fetch request w, Suspended (AwaitFetch request))).

(** After [await fetch(...)]. *)
Definition exchange_after_fetch (arrival : result Response) (w : World) : World * Stage :=
  finally_release
    match arrival with
    | Rejected e => (w, Settled (Rejected e))
    | Ok response =>
        if negb (ok response) then (w, Suspended (AwaitText response))
        else (w, Suspended (AwaitJson response))
    end.

(** After [await response.text()]. *)
Definition exchange_after_text (response : Response) (w : World) : World * Stage :=
  finally_release
    match text response with
    | Rejected e => (w, Settled (Rejected e))
    | Ok errorText =>
        (w, Settled (Rejected (Error ("Token exchange failed: "
                                      +:+ num_to_string (resp_status response)
                                      +:+ " " +:+ errorText))))
    end.

(** After [await response.json()]. *)
Definition exchange_after_json (response : Response) (w : World) : World * Stage :=
  finally_release
    match json response with
    | Rejected e => (w, Settled (Rejected e))
    | Ok tokenData =>
        if negb (truthy (access_token tokenData))
        then (w, Settled (Rejected (Error "No access token received")))
        else
          let w := with_storage
                     (setItem STORAGE_KEYS.ACCESS_TOKEN
                        (default EmptyString (access_token tokenData))) w in
          let w := if truthy (refresh_token tokenData)
                   then with_storage
                          (setItem STORAGE_KEYS.REFRESH_TOKEN
                             (default EmptyString (refresh_token tokenData))) w
                   else w in
          let w := with_storage (removeItem STORAGE_KEYS.STATE) w in
          let w := with_storage (removeItem STORAGE_KEYS.CODE_VERIFIER) w in
          (w, Settled (Ok tt))
    end.

(** The segment that follows a suspension. *)
Definition resume (s : Suspension) (w : World) : World * Stage :=
  match s with
  | AwaitFetch request => exchange_after_fetch (fetch request) w
  | AwaitText response => exchange_after_text response w
  | AwaitJson response => exchange_after_json response w
  end.

Definition continue (p : World * Stage) : World * Stage :=
  match p with
  | (w, Suspended s) => resume s w
  | (w, Settled r) => (w, Settled r)
  end.

(** The call run to its end with nothing in between: it is suspended at
    most twice, at the [fetch] and at the reading of the body. *)
Definition exchangeCodeForTokens (code state : string) (w : World) : World * Stage :=
  continue (continue (exchange_enter code state w)).

Definition fetchUserInfo (extensionClient : ExtensionClient) (w : World)
  : World * result UserInfo :=
  let accessToken := getAccessToken w in
  if negb (truthy accessToken)
  then (w, Rejected (Error "No access token available"))
  else
    let request :=
      {| api_method := "GET";
         api_endpoint := "/bodhi/v1/user";
         api_body := None;
         api_headers :=
           Some [("Authorization",
                  "Bearer " +:+ default EmptyString accessToken)] |} in
    let w := do_send request w in
    match sendApiRequest extensionClient request with
    | Rejected e =>
        (w, Rejected (Error ("Failed to fetch user info: " +:+ describe e)))
    | Ok response =>
        let userInfo :=
          {| email := or_default (body response !! "email") "Unknown";
             role := or_default (body response !! "role") "user";
             tokenType := "Bearer";
             loggedIn := true |} in
        (setUserInfo userInfo w, Ok userInfo)
    end.

(** *** Calls that overlap

    The calls of [exchangeCodeForTokens] that are suspended wait in
    [inflight]; the event loop runs one segment at a time. *)

Record System : Type := {
  world : World;
  inflight : list Suspension
}.

Inductive Label : Type :=
| CallExchange (code state : string)
| Resume (i : nat)
| CallLogout
| CallRequestResourceAccess (extensionClient : ExtensionClient)
| CallBuildAuthUrl (rng : Rng)
| CallSetUserInfo (userInfo : UserInfo)
| CallFetchUserInfo (extensionClient : ExtensionClient).

Definition step (l : Label) (sys : System) : option System :=
  match l with
  | CallExchange code state =>
      match exchange_enter code state (world sys) with
      | (w, Settled _) => Some {| world := w; inflight := inflight sys |}
      | (w, Suspended s) => Some {| world := w; inflight := inflight sys ++ [s] |}
      end
  | Resume i =>
      match inflight sys !! i with
      | None => None
      | Some s =>
          match resume s (world sys) with
          | (w, Settled _) => Some {| world := w; inflight := delete i (inflight sys) |}
          | (w, Suspended s') =>
              Some {| world := w; inflight := <[i:=s']> (inflight sys) |}
          end
      end
  | CallLogout => Some {| world := logout (world sys); inflight := inflight sys |}
  | CallRequestResourceAccess c =>
      Some {| world := fst (requestResourceAccess c (world sys));
              inflight := inflight sys |}
  | CallBuildAuthUrl rng =>
      Some {| world := fst (fst (buildAuthUrl rng (world sys)));
              inflight := inflight sys |}
  | CallSetUserInfo u =>
      Some {| world := setUserInfo u (world sys); inflight := inflight sys |}
  | CallFetchUserInfo c =>
      Some {| world := fst (fetchUserInfo c (world sys)); inflight := inflight sys |}
  end.

Fixpoint run (trace : list Label) (sys : System) : option System :=
  match trace with
  | [] => Some sys
  | l :: rest =>
      match step l sys with
      | Some sys' => run rest sys'
      | None => None
      end
  end.

Definition is_logout (l : Label) : bool :=
  match l with
  | CallLogout => true
  | _ => false
  end.

(** Along [trace], [logout()] is only called while no exchange waits. *)
Fixpoint logout_when_idle (trace : list Label) (sys : System) : Prop :=
  match trace with
  | [] => True
  | l :: rest =>
      (is_logout l = true -> inflight sys = []) /\
      match step l sys with
      | Some sys' => logout_when_idle rest sys'
      | None => True
      end
  end.

(** The flag is up exactly while one call waits. *)
Definition flag_counts (sys : System) : Prop :=
  length (inflight sys) = if isExchangingTokens (world sys) then 1%nat else 0%nat.

End Manager.

(** A fresh page: nothing stored, nothing in flight, nothing sent. *)
Definition fresh : World :=
  {| localStorage := ∅; isExchangingTokens := false; fetched := []; sent := [] |}.

(** ** Sample data for the worked cases *)

Module Sample.

Definition origin : string := "https://app.example".

(** A page that has been through [buildAuthUrl]. *)
Definition ready : World :=
  {| localStorage :=
       {[ STORAGE_KEYS.RESOURCE_SCOPE := "scope_resource_x";
          STORAGE_KEYS.STATE := "st";
          STORAGE_KEYS.CODE_VERIFIER := "ver" ]};
     isExchangingTokens := false;
     fetched := [];
     sent := [] |}.

Definition offline (_ : FetchRequest) : result Response :=
  Rejected (Error "Failed to fetch").

Definition invalid_grant : Response :=
  {| resp_status := 400;
     text := Ok (JSON.stringify (JSON.JObject [("error", JSON.JString "invalid_grant")]));
     json := Rejected (Error "body stream already read") |}.

Definition tokens : TokenResponse :=
  {| access_token := Some "at-1";
     token_type := "Bearer";
     expires_in := 300;
     refresh_token := Some "rt-1";
     scope := "openid" |}.

Definition granted : Response :=
  {| resp_status := 200;
     text := Rejected (Error "body stream already read");
     json := Ok tokens |}.

(** A bridge that grants the scope and knows the user. *)
Definition bridge : ExtensionClient :=
  ExtensionClientImpl "ext-1"
    (Some (fun _ =>
       Ok {| body := {[ "scope" := "scope_resource_x"; "email" := "a@b.c" ]};
             headers := [];
             status := 200 |})).

(** A random source that only ever gives the byte 97. *)
Definition rng : Rng := fun _ => "a"%char.

(** The state [buildAuthUrl] draws from [rng]. *)
Definition state : string := fst (PKCEUtils.generateRandomString 32 rng).

Definition idle (w : World) : System := {| world := w; inflight := [] |}.

(** Log in, start the exchange, log out while it waits, log in again and
    start a second exchange. *)
Definition logout_between : list Label :=
  [CallRequestResourceAccess bridge; CallBuildAuthUrl rng; CallExchange "c1" state;
   CallLogout;
   CallRequestResourceAccess bridge; CallBuildAuthUrl rng; CallExchange "c2" state].

(** The callback page mounted twice. *)
Definition mounted_twice : list Label :=
  [CallExchange "c1" "st"; CallExchange "c1" "st"; Resume 0].

End Sample.

(** ** Character classes used in the statements *)

(** What the form serializer can put out for a name or a value. *)
Definition form_char (c : ascii) : bool :=
  URLSearchParams.unreserved c || Ascii.eqb c "+" || Ascii.eqb c "%".

Definition is_lower (c : ascii) : bool :=
  (97 <=? N_of_ascii c)%N && (N_of_ascii c <=? 122)%N.

Definition differs (x c : ascii) : bool := negb (Ascii.eqb c x).

(** One [name=value] of the serialized form. *)
Definition pair_text (p : string * string) : string :=
  URLSearchParams.encode (fst p) +:+ "=" +:+ URLSearchParams.encode (snd p).

(** ** [loadExtensionClient] ([@/lib/extension-client])

    Time is in milliseconds.  The page is given by what it shows of
    [window.bodhiext] at each instant, by how late each timer fires (a
    timer never fires early), and by what [getExtensionId()] does. *)

(** What the call [window.bodhiext.getExtensionId()] does: it throws, or
    its promise settles some time after the call, or it never settles. *)
Inductive IdBehaviour : Type :=
| IdThrows (e : exn)
| IdSettles (after : Z) (o : result string)
| IdHangs.

(** The delay [setTimeout(handler, timeout)] gives the timer.  In a page
    the delay is a 32-bit signed integer (the HTML Standard declares it a
    [long]: the number is taken modulo 2^32 into -2^31 .. 2^31 - 1), and a
    negative delay counts as 0.  A timeout between 0 and 2^31 - 1 is its own
    delay; one of 2^31 gives a timer that is due at once. *)
Definition setTimeout_delay (timeout : Z) : Z :=
  Z.max 0 ((timeout + 2 ^ 31) mod 2 ^ 32 - 2 ^ 31).

Section Detection.

(** [typeof window.bodhiext !== 'undefined'] at a given time. *)
Variable present : Z -> bool.

(** The delay of the [k]-th poll timer beyond its 100 ms. *)
Variable late : nat -> N.

(** How late the timer of the race fires. *)
Variable late_race : N.

Variable getExtensionId_call : IdBehaviour.

(** [checkExtension], started at [startTime]; [t] is [Date.now()] at this
    check, the [k]-th after the first.  [fuel] bounds the number of checks. *)
Fixpoint checkExtension (timeout startTime : Z) (fuel k : nat) (t : Z) : option bool :=
  match fuel with
  | O => None
  | S fuel =>
      if present t then Some true
      else if t - startTime >=? timeout then Some false
      else checkExtension timeout startTime fuel (S k) (t + 100 + Z.of_N (late k))
  end.

(** No more checks than this are ever made. *)
Definition checks (timeout : Z) : nat := Z.to_nat (timeout / 100) + 2.

(** [Promise.race([extensionIdPromise, timeoutPromise])]: the promise that
    settles first; the timer settles the second one [setTimeout_delay
    timeout] ms after the call, or later.  The identifier was asked for
    before the timer was set, so it wins a tie. *)
Definition race (timeout : Z) : result string :=
  match getExtensionId_call with
  | IdThrows e => Rejected e
  | IdSettles after o =>
      if after <=? setTimeout_delay timeout + Z.of_N late_race then o
      else Rejected (ExtensionTimeoutError timeout)
  | IdHangs => Rejected (ExtensionTimeoutError timeout)
  end.

(** The call made at [startTime] with [config.timeout]; [None] only if the
    checks ran out, which does not happen (see [checkExtension_total]). *)
Definition loadExtensionClient (config_timeout : option Z) (startTime : Z)
  : option (result (option (ApiRequest -> result ApiResponse) -> ExtensionClient)) :=
  let timeout := default 10000 config_timeout in
  match checkExtension timeout startTime (checks timeout) 0 startTime with
  | None => None
  | Some extensionDetected =>
      if negb extensionDetected then Some (Rejected (ExtensionNotFoundError timeout))
      else
        match race timeout with
        | Ok extensionId => Some (Ok (ExtensionClientImpl extensionId))
        | Rejected error =>
            if is_ExtensionTimeoutError error then Some (Rejected error)
            else Some (Rejected (ExtensionTimeoutError timeout))
        end
  end.

(** The instant of the [k]-th check after the first. *)
Fixpoint check_time (startTime : Z) (k : nat) : Z :=
  match k with
  | O => startTime
  | S k => check_time startTime k + 100 + Z.of_N (late k)
  end.

End Detection.

(** ** Truthiness of a parsed value

    [if (v)] for a value that [JSON.parse] can give.  A number is falsy when
    it is zero as a double: its digits are all zero, or it is so small that
    it rounds to zero (at most 2^-1075, half of the least double). *)

Fixpoint digits_value (acc : Z) (ds : string) : Z :=
  match ds with
  | EmptyString => acc
  | String c r => digits_value (acc * 10 + (Z.of_N (N_of_ascii c) - 48)) r
  end.

(** The decimal exponent written after [e] or [E], zero if there is none. *)
Definition exponent_value (s : string) : Z :=
  match s with
  | String c r =>
      if Ascii.eqb c "e" || Ascii.eqb c "E" then
        match r with
        | String "-"%char ds => - digits_value 0 (fst (JSON.span_digits ds))
        | String "+"%char ds => digits_value 0 (fst (JSON.span_digits ds))
        | _ => digits_value 0 (fst (JSON.span_digits r))
        end
      else 0
  | EmptyString => 0
  end.

(** A literal [-? int frac? exp?] as [(m, e)]: its magnitude is [m * 10 ^ e]. *)
Definition literal_magnitude (lit : string) : Z * Z :=
  let unsigned :=
    match lit with
    | String "-"%char r => r
    | _ => lit
    end in
  let (int, s1) := JSON.span_digits unsigned in
  let (frac, s2) :=
    match s1 with
    | String "."%char r => JSON.span_digits r
    | _ => (EmptyString, s1)
    end in
  (digits_value 0 (int +:+ frac), exponent_value s2 - Z.of_nat (String.length frac)).

Definition number_is_zero (lit : string) : bool :=
  let (m, e) := literal_magnitude lit in
  (m =? 0) || ((e <? 0) && (m * 2 ^ 1075 <=? 10 ^ (- e))).

Definition value_truthy (v : JSON.value) : bool :=
  match v with
  | JSON.JNull => false
  | JSON.JBool b => b
  | JSON.JNumber lit => negb (number_is_zero lit)
  | JSON.JString s => str_truthy s
  | JSON.JArray _ => true
  | JSON.JObject _ => true
  end.

(** ** [usePlatformDetection] ([src/hooks/usePlatformDetection.ts]) *)

Module PlatformDetectionStatus.
Inductive t : Type := detecting | detected | setup | timeout | error.
End PlatformDetectionStatus.

Module PlatformDetectionState.
Record t : Type := {
  status : PlatformDetectionStatus.t;
  client : option ExtensionClient;
  extensionId : option string;
  error : option string
}.
End PlatformDetectionState.

(** The state the hook starts with. *)
Definition detection_initial : PlatformDetectionState.t :=
  {| PlatformDetectionState.status := PlatformDetectionStatus.detecting;
     PlatformDetectionState.client := None;
     PlatformDetectionState.extensionId := None;
     PlatformDetectionState.error := None |}.

(** [detectExtension], run on its own: [load] is what
    [loadExtensionClient({ timeout: 5000 })] settles to and [mounted] tells
    whether the component is still mounted at that moment. *)
Definition detectExtension (mounted : bool) (load : result ExtensionClient)
    (prev : PlatformDetectionState.t) : PlatformDetectionState.t :=
  let state :=
    {| PlatformDetectionState.status := PlatformDetectionStatus.detecting;
       PlatformDetectionState.client := PlatformDetectionState.client prev;
       PlatformDetectionState.extensionId := PlatformDetectionState.extensionId prev;
       PlatformDetectionState.error := None |} in
  match load with
  | Ok client =>
      if negb mounted then state
      else {| PlatformDetectionState.status := PlatformDetectionStatus.detected;
              PlatformDetectionState.client := Some client;
              PlatformDetectionState.extensionId := Some (getExtensionId client);
              PlatformDetectionState.error := None |}
  | Rejected error =>
      if negb mounted then state
      else {| PlatformDetectionState.status := PlatformDetectionStatus.error;
              PlatformDetectionState.client := None;
              PlatformDetectionState.extensionId := None;
              PlatformDetectionState.error := Some (describe error) |}
  end.

Section PlatformDetection.

Variable present : Z -> bool.
Variable late : nat -> N.
Variable late_race : N.
Variable getExtensionId_call : IdBehaviour.

(** [window.bodhiext] as the client finds it when it is used later on. *)
Variable bodhiext : option (ApiRequest -> result ApiResponse).

(** The state of the hook once the effect it runs on mount, at [startTime],
    has come to its end. *)
Definition usePlatformDetection (mounted : bool) (startTime : Z)
  : option PlatformDetectionState.t :=
  match loadExtensionClient present late late_race getExtensionId_call
          (Some 5000) startTime with
  | None => None
  | Some (Ok make) => Some (detectExtension mounted (Ok (make bodhiext)) detection_initial)
  | Some (Rejected e) => Some (detectExtension mounted (Rejected e) detection_initial)
  end.

End PlatformDetection.

(** ** [PlatformStatusSection]: what the status card shows *)

Inductive Icon : Type := Loader2 | CheckCircle | AlertCircle.

Record StatusDisplay : Type := {
  icon : Icon;
  label : string;
  variant : string;
  description : string
}.

(** [`${v}`] for [v : string | null]. *)
Definition template (v : option string) : string := default "null" v.

Definition getStatusDisplay (platformState : PlatformDetectionState.t) : StatusDisplay :=
  match PlatformDetectionState.status platformState with
  | PlatformDetectionStatus.detecting =>
      {| icon := Loader2;
         label := "Detecting";
         variant := "secondary";
         description := "Searching for Bodhi browser extension..." |}
  | PlatformDetectionStatus.detected =>
      {| icon := CheckCircle;
         label := "Detected";
         variant := "default";
         description := "Extension found with ID: "
                        +:+ template (PlatformDetectionState.extensionId platformState) |}
  | PlatformDetectionStatus.error =>
      {| icon := AlertCircle;
         label := "Error";
         variant := "destructive";
         description := or_default (PlatformDetectionState.error platformState)
                          "Unknown error occurred" |}
  | _ =>
      {| icon := AlertCircle;
         label := "Unknown";
         variant := "secondary";
         description := "Unknown status" |}
  end.

(** The button "Retry Detection" is rendered. *)
Definition shows_retry (platformState : PlatformDetectionState.t) : bool :=
  match PlatformDetectionState.status platformState with
  | PlatformDetectionStatus.detecting => false
  | _ => true
  end.

(** ** [useAuthentication] ([src/hooks/useAuthentication.ts])

    The three pieces of state of the hook; [userInfo] holds whatever value
    it was given, [JNull] standing for [null]. *)

Module AuthState.
Inductive t : Type := unauthenticated | authenticating | authenticated | error.
End AuthState.

Module AuthenticationState.
Record t : Type := {
  status : AuthState.t;
  userInfo : JSON.value;
  error : option string
}.
End AuthenticationState.

Definition auth_initial : AuthenticationState.t :=
  {| AuthenticationState.status := AuthState.unauthenticated;
     AuthenticationState.userInfo := JSON.JNull;
     AuthenticationState.error := None |}.

Definition setAuthStatus (s : AuthState.t) (h : AuthenticationState.t)
  : AuthenticationState.t :=
  {| AuthenticationState.status := s;
     AuthenticationState.userInfo := AuthenticationState.userInfo h;
     AuthenticationState.error := AuthenticationState.error h |}.

Definition setAuthError (e : option string) (h : AuthenticationState.t)
  : AuthenticationState.t :=
  {| AuthenticationState.status := AuthenticationState.status h;
     AuthenticationState.userInfo := AuthenticationState.userInfo h;
     AuthenticationState.error := e |}.

Definition setHookUserInfo (u : JSON.value) (h : AuthenticationState.t)
  : AuthenticationState.t :=
  {| AuthenticationState.status := AuthenticationState.status h;
     AuthenticationState.userInfo := u;
     AuthenticationState.error := AuthenticationState.error h |}.

Section Authentication.

Variable origin : string.

(** The [fetchUserInfo] of the hook, run on its own. *)
Definition hook_fetchUserInfo (platformState : PlatformDetectionState.t)
    (hw : AuthenticationState.t * World) : AuthenticationState.t * World :=
  let (h, w) := hw in
  match PlatformDetectionState.client platformState with
  | None => (h, w)
  | Some client =>
      let h := setAuthStatus AuthState.authenticating h in
      match fetchUserInfo client w with
      | (w, Ok userInfo) =>
          (setAuthError None
             (setAuthStatus AuthState.authenticated
                (setHookUserInfo (UserInfo_value userInfo) h)), w)
      | (w, Rejected error) =>
          (setAuthStatus AuthState.error (setAuthError (Some (describe error)) h),
           logout w)
      end
  end.

Definition checkExistingAuth (platformState : PlatformDetectionState.t)
    (hw : AuthenticationState.t * World) : AuthenticationState.t * World :=
  let (h, w) := hw in
  if isAuthenticated w then
    let storedUserInfo := getUserInfo w in
    if value_truthy storedUserInfo then
      (setAuthStatus AuthState.authenticated (setHookUserInfo storedUserInfo h), w)
    else
      match PlatformDetectionState.client platformState with
      | Some _ => hook_fetchUserInfo platformState (h, w)
      | None => (h, w)
      end
  else (h, w).

(** The effect that runs when the status or the client of the platform
    state changes. *)
Definition auth_effect (platformState : PlatformDetectionState.t)
    (hw : AuthenticationState.t * World) : AuthenticationState.t * World :=
  match PlatformDetectionState.status platformState,
        PlatformDetectionState.client platformState with
  | PlatformDetectionStatus.detected, Some _ => checkExistingAuth platformState hw
  | _, _ => hw
  end.

(** [login], run on its own; the last component is the URL assigned to
    [window.location.href], if any. *)
Definition hook_login (platformState : PlatformDetectionState.t) (rng : Rng)
    (hw : AuthenticationState.t * World)
  : AuthenticationState.t * World * Rng * option string :=
  let (h, w) := hw in
  match PlatformDetectionState.client platformState with
  | None =>
      (setAuthError
         (Some "Extension not available. Please ensure the Bodhi browser extension is installed.")
         h, w, rng, None)
  | Some client =>
      let h := setAuthError None (setAuthStatus AuthState.authenticating h) in
      let failed error :=
        setAuthStatus AuthState.error (setAuthError (Some (describe error)) h) in
      match requestResourceAccess client w with
      | (w, Rejected error) => (failed error, w, rng, None)
      | (w, Ok _) =>
          match buildAuthUrl origin rng w with
          | (w, Ok authUrl, rng) => (h, w, rng, Some authUrl)
          | (w, Rejected error, rng) => (failed error, w, rng, None)
          end
      end
  end.

Definition hook_logout (hw : AuthenticationState.t * World)
  : AuthenticationState.t * World :=
  let (h, w) := hw in
  (setAuthError None
     (setAuthStatus AuthState.unauthenticated (setHookUserInfo JSON.JNull h)),
   logout w).

(** What can happen to the hook, one call after the other. *)
Inductive HookEvent : Type :=
| PlatformChanged (platformState : PlatformDetectionState.t)
| Login (platformState : PlatformDetectionState.t) (rng : Rng)
| Logout.

Definition hook_step (ev : HookEvent) (hw : AuthenticationState.t * World)
  : AuthenticationState.t * World :=
  match ev with
  | PlatformChanged ps => auth_effect ps hw
  | Login ps rng => fst (fst (hook_login ps rng hw))
  | Logout => hook_logout hw
  end.

Definition hook_run (events : list HookEvent) (hw : AuthenticationState.t * World)
  : AuthenticationState.t * World :=
  fold_left (fun acc ev => hook_step ev acc) events hw.

End Authentication.

(** ** [CallbackPage] ([src/pages/CallbackPage.tsx]) *)

Module ProcessingState.
Inductive t : Type :=
| loading
| processing (step : string)
| success
| error (message : string).
End ProcessingState.

(** What [searchParams.get] gives the page for the four parameters it
    reads. *)
Record CallbackParams : Type := {
  param_code : option string;
  param_state : option string;
  param_error : option string;
  param_error_description : option string
}.

Section Callback.

Variable origin : string.
Variable fetch : FetchRequest -> result Response.

(** [processCallback], run on its own.  [mounted] tells whether the page is
    still mounted when the exchange has settled.  The last component is the
    delay of the timer that takes the user home, if one was set. *)
Definition processCallback (params : CallbackParams) (mounted : bool) (w : World)
  : World * ProcessingState.t * option Z :=
  let code := param_code params in
  let state := param_state params in
  let error := param_error params in
  let errorDescription := param_error_description params in
  if truthy error then
    let errorMessage := or_default errorDescription (default EmptyString error) in
    (w,
     ProcessingState.error
       (if String.eqb errorMessage "access_denied"
        then "User denied access to the application"
        else "OAuth error: " +:+ errorMessage),
     None)
  else if negb (truthy code)
  then (w, ProcessingState.error "Authorization code not found", None)
  else if negb (truthy state)
  then (w, ProcessingState.error "State parameter not found", None)
  else
    let waiting :=
      ProcessingState.processing "Exchanging authorization code for token..." in
    match exchangeCodeForTokens origin fetch
            (default EmptyString code) (default EmptyString state) w with
    | (w, Settled (Ok _)) =>
        if negb mounted then (w, waiting, None)
        else (w, ProcessingState.success, Some 2000)
    | (w, Settled (Rejected error)) =>
        if negb mounted then (w, waiting, None)
        else (w, ProcessingState.error (describe error), None)
    | (w, Suspended _) => (w, waiting, None)
    end.

End Callback.

(** ** The outcomes of [exchangeCodeForTokens] *)

Section ExchangeOutcomes.

Variable origin : string.
Variable fetch : FetchRequest -> result Response.

(** The world after a successful exchange. *)
Definition after_success (tokenData : TokenResponse) (request : FetchRequest) (w : World)
  : World :=
  set_exchanging false
    (with_storage (removeItem STORAGE_KEYS.CODE_VERIFIER)
       (with_storage (removeItem STORAGE_KEYS.STATE)
          (let w1 := with_storage
                       (setItem STORAGE_KEYS.ACCESS_TOKEN
                          (default EmptyString (access_token tokenData)))
                       (do_fetch request (set_exchanging true w)) in
           if truthy (refresh_token tokenData)
           then with_storage
                  (setItem STORAGE_KEYS.REFRESH_TOKEN
                     (default EmptyString (refresh_token tokenData))) w1
           else w1))).

(** Every way the call can go, with the world it leaves. *)
Inductive Outcome (code state : string) (w : World) : World -> result unit -> Prop :=
| NoOp :
    isAuthenticated w = true \/ isExchangingTokens w = true ->
    Outcome code state w w (Ok tt)
| InvalidState :
    isAuthenticated w = false -> isExchangingTokens w = false ->
    negb (truthy (getItem STORAGE_KEYS.STATE (localStorage w)))
    || strict_ne (getItem STORAGE_KEYS.STATE (localStorage w)) state = true ->
    Outcome code state w w (Rejected (Error "Invalid state parameter"))
| NoVerifier :
    isAuthenticated w = false -> isExchangingTokens w = false ->
    getItem STORAGE_KEYS.STATE (localStorage w) = Some state -> state <> EmptyString ->
    truthy (getItem STORAGE_KEYS.CODE_VERIFIER (localStorage w)) = false ->
    Outcome code state w w (Rejected (Error "Code verifier not found"))
| Fetched (codeVerifier : string) (r : result unit) :
    isAuthenticated w = false -> isExchangingTokens w = false ->
    getItem STORAGE_KEYS.STATE (localStorage w) = Some state -> state <> EmptyString ->
    getItem STORAGE_KEYS.CODE_VERIFIER (localStorage w) = Some codeVerifier ->
    codeVerifier <> EmptyString ->
    (match fetch (token_request origin code codeVerifier) with
     | Rejected e => r = Rejected e
     | Ok response =>
         if ok response then
           match json response with
           | Rejected e => r = Rejected e
           | Ok tokenData =>
               truthy (access_token tokenData) = false
               /\ r = Rejected (Error "No access token received")
           end
         else
           match text response with
           | Rejected e => r = Rejected e
           | Ok errorText =>
               r = Rejected (Error ("Token exchange failed: "
                                    +:+ num_to_string (resp_status response)
                                    +:+ " " +:+ errorText))
           end
     end) ->
    Outcome code state w (do_fetch (token_request origin code codeVerifier) w) r
| Exchanged (codeVerifier : string) (response : Response) (tokenData : TokenResponse) :
    isAuthenticated w = false -> isExchangingTokens w = false ->
    getItem STORAGE_KEYS.STATE (localStorage w) = Some state -> state <> EmptyString ->
    getItem STORAGE_KEYS.CODE_VERIFIER (localStorage w) = Some codeVerifier ->
    codeVerifier <> EmptyString ->
    fetch (token_request origin code codeVerifier) = Ok response ->
    ok response = true ->
    json response = Ok tokenData ->
    truthy (access_token tokenData) = true ->
    Outcome code state w
      (after_success tokenData (token_request origin code codeVerifier) w) (Ok tt).

End ExchangeOutcomes.

(** The 256 values a byte of the random source can take. *)
Definition all_bytes : list ascii := map ascii_of_nat (seq 0 256).

(** The random strings of one letter that come out as [c]. *)
Definition drawn_as (c : ascii) (byte : ascii) : bool :=
  String.eqb (fst (PKCEUtils.generateRandomString 1 (fun _ => byte)))
             (String c EmptyString).

(** ** When the polling ends *)

Section DetectionTime.

Variable present : Z -> bool.
Variable late : nat -> N.

(** [checkExtension] again, with the instant at which it calls [resolve]. *)
Fixpoint checkExtension_when (timeout startTime : Z) (fuel k : nat) (t : Z)
  : option (bool * Z) :=
  match fuel with
  | O => None
  | S fuel =>
      if present t then Some (true, t)
      else if t - startTime >=? timeout then Some (false, t)
      else checkExtension_when timeout startTime fuel (S k) (t + 100 + Z.of_N (late k))
  end.

End DetectionTime.

(** The hook says [authenticated] only with a user to show and a token in
    the storage. *)
Definition auth_consistent (hw : AuthenticationState.t * World) : Prop :=
  AuthenticationState.status (fst hw) = AuthState.authenticated ->
  value_truthy (AuthenticationState.userInfo (fst hw)) = true
  /\ isAuthenticated (snd hw) = true.

(** The page goes on to the exchange: no [error] parameter, a code and a
    state. *)
Definition callback_proceeds (params : CallbackParams) : bool :=
  negb (truthy (param_error params))
  && truthy (param_code params) && truthy (param_state params).

(** More sample data: a page with a session about to be confirmed. *)
Module Sample2.

Definition with_token : World :=
  with_storage (setItem STORAGE_KEYS.ACCESS_TOKEN "at-1") fresh.

Definition detected_with (c : ExtensionClient) : PlatformDetectionState.t :=
  {| PlatformDetectionState.status := PlatformDetectionStatus.detected;
     PlatformDetectionState.client := Some c;
     PlatformDetectionState.extensionId := Some (getExtensionId c);
     PlatformDetectionState.error := None |}.

(** A client on a page that has lost [window.bodhiext]. *)
Definition gone : ExtensionClient := ExtensionClientImpl "ext-1" None.

(** What the identity provider sends back after a login. *)
Definition returned (code state : option string) : CallbackParams :=
  {| param_code := code;
     param_state := state;
     param_error := None;
     param_error_description := None |}.

End Sample2.

(** Two clients whose answers differ at most in status and headers. *)
Definition same_bodies (c1 c2 : ExtensionClient) : Prop :=
  forall request,
    match sendApiRequest c1 request, sendApiRequest c2 request with
    | Ok r1, Ok r2 => body r1 = body r2
    | Rejected e1, Rejected e2 => e1 = e2
    | _, _ => False
    end.

(** A bridge that answers everything with the given status and body. *)
Definition answering (status : Z) (fields : gmap string string) : ExtensionClient :=
  ExtensionClientImpl "ext-1"
    (Some (fun _ => Ok {| body := fields; headers := []; status := status |})).

(** * Properties *)

(** ** Strings *)

Lemma app_assoc_s (a b c : string) : (a +:+ b) +:+ c = a +:+ b +:+ c.
Proof. induction a as [|x a IH]; simpl; [reflexivity | f_equal; exact IH]. Qed.

Lemma app_empty_r (a : string) : a +:+ "" = a.
Proof. induction a as [|x a IH]; simpl; [reflexivity | f_equal; exact IH]. Qed.

Lemma string_forall_app p a b :
  string_forall p (a +:+ b) = string_forall p a && string_forall p b.
Proof.
  induction a as [|x a IH]; simpl; [reflexivity|].
  rewrite IH. now rewrite andb_assoc.
Qed.

Lemma length_app_s (a b : string) :
  String.length (a +:+ b) = (String.length a + String.length b)%nat.
Proof. induction a as [|x a IH]; simpl; [reflexivity | f_equal; exact IH]. Qed.

(** ** localStorage *)

Lemma getItem_setItem k v ls : getItem k (setItem k v ls) = Some v.
Proof. unfold getItem, setItem. apply lookup_insert_eq. Qed.

Lemma getItem_setItem_ne k k' v ls : k <> k' -> getItem k' (setItem k v ls) = getItem k' ls.
Proof. intros H. unfold getItem, setItem. now apply lookup_insert_ne. Qed.

Lemma getItem_removeItem k ls : getItem k (removeItem k ls) = None.
Proof. unfold getItem, removeItem. apply lookup_delete_eq. Qed.

Lemma getItem_removeItem_ne k k' ls : k <> k' -> getItem k' (removeItem k ls) = getItem k' ls.
Proof. intros H. unfold getItem, removeItem. now apply lookup_delete_ne. Qed.

(** Removing a list of keys: the listed keys are gone, the others stay. *)
Lemma getItem_remove_all keys : forall ls k,
  getItem k (fold_left (fun acc key => removeItem key acc) keys ls)
  = if bool_decide (k ∈ keys) then None else getItem k ls.
Proof.
  induction keys as [|k0 keys IH]; intros ls k; [reflexivity|].
  cbn [fold_left]. rewrite IH.
  destruct (decide (k ∈ keys)) as [Hin|Hnin].
  - rewrite (bool_decide_eq_true_2 _ Hin).
    rewrite bool_decide_eq_true_2; [reflexivity|]. now right.
  - rewrite (bool_decide_eq_false_2 _ Hnin).
    destruct (decide (k = k0)) as [->|Hne].
    + rewrite bool_decide_eq_true_2 by now left. apply getItem_removeItem.
    + rewrite bool_decide_eq_false_2.
      * apply getItem_removeItem_ne. congruence.
      * intros [?|?]%elem_of_cons; contradiction.
Qed.

(** ** JSON: what [parse] makes of the output of [stringify] *)

Lemma parse_escape (c : ascii) (tail : string) :
  JSON.parse_string_body (JSON.escape c +:+ tail)
  = JSON.prepend (String c EmptyString) (JSON.parse_string_body tail).
Proof.
  destruct c as [[] [] [] [] [] [] [] []]; reflexivity.
Qed.

Lemma parse_quote_body (s rest : string) :
  JSON.parse_string_body (JSON.quote_body s +:+ String JSON.dquote rest) = Some (s, rest).
Proof.
  induction s as [|c s IH]; [reflexivity|].
  cbn [JSON.quote_body]. rewrite app_assoc_s, parse_escape, IH. reflexivity.
Qed.

Lemma parse_value_quote (fuel : nat) (s rest : string) :
  JSON.parse_value (S fuel) (JSON.quote s +:+ rest) = Some (JSON.JString s, rest).
Proof.
  unfold JSON.quote. cbn [String.append].
  rewrite app_assoc_s. cbn [String.append].
  change (JSON.parse_value (S fuel) (String JSON.dquote ?t))
    with ('(str, r') ← JSON.parse_string_body t; Some (JSON.JString str, r')).
  rewrite parse_quote_body. reflexivity.
Qed.

Lemma parse_value_bool (fuel : nat) (b : bool) (rest : string) :
  JSON.parse_value (S fuel) (JSON.stringify (JSON.JBool b) +:+ rest)
  = Some (JSON.JBool b, rest).
Proof. destruct b; cbn; repeat rewrite Ascii.eqb_refl; reflexivity. Qed.

(** One member [key:value] at the head of the members of an object. *)
Lemma parse_member (fuel : nat) (k vtext : string) (v : JSON.value) (tail : string) :
  (forall rest, JSON.parse_value fuel (vtext +:+ rest) = Some (v, rest)) ->
  JSON.parse_members (S fuel) (JSON.quote k +:+ ":" +:+ vtext +:+ tail) =
    match JSON.skip_ws tail with
    | String ","%char r3 =>
        '(ms, r4) ← JSON.parse_members fuel r3; Some ((k, v) :: ms, r4)
    | String "}"%char r3 => Some ([(k, v)], r3)
    | _ => None
    end.
Proof.
  intros Hv. unfold JSON.quote. cbn [String.append].
  rewrite app_assoc_s. cbn [String.append].
  cbn [JSON.parse_members JSON.skip_ws JSON.is_ws JSON.dquote].
  change (String "034"%char ?t) with (String JSON.dquote t).
  rewrite parse_quote_body. cbn [mbind option_bind JSON.skip_ws JSON.is_ws].
  rewrite Hv. reflexivity.
Qed.

Lemma parse_value_object (fuel : nat) (k t : string) :
  JSON.parse_value (S fuel) (String "{" (JSON.quote k +:+ t))
  = '(ms, r') ← JSON.parse_members fuel (JSON.quote k +:+ t);
    Some (JSON.JObject (JSON.collect ms), r').
Proof. reflexivity. Qed.

Lemma stringify_UserInfo (u : UserInfo) (rest : string) :
  JSON.stringify (UserInfo_value u) +:+ rest
  = String "{"
      (JSON.quote "email" +:+ ":" +:+ JSON.quote (email u) +:+ String ","
      (JSON.quote "role" +:+ ":" +:+ JSON.quote (role u) +:+ String ","
      (JSON.quote "tokenType" +:+ ":" +:+ JSON.quote (tokenType u) +:+ String ","
      (JSON.quote "loggedIn" +:+ ":" +:+ JSON.stringify (JSON.JBool (loggedIn u))
         +:+ String "}" rest)))).
Proof.
  unfold UserInfo_value. cbn [JSON.stringify map JSON.join_comma fst snd].
  rewrite !app_assoc_s. reflexivity.
Qed.

(** The text of a [UserInfo] parses back to the same object. *)
Lemma parse_value_UserInfo (n : nat) (u : UserInfo) (rest : string) :
  JSON.parse_value (6 + n) (JSON.stringify (UserInfo_value u) +:+ rest)
  = Some (UserInfo_value u, rest).
Proof.
  rewrite stringify_UserInfo.
  change (6 + n)%nat with (S (S (S (S (S (S n)))))).
  rewrite parse_value_object.
  rewrite (parse_member _ _ _ (JSON.JString (email u)))
    by (intros; apply parse_value_quote).
  cbn [JSON.skip_ws JSON.is_ws].
  rewrite (parse_member _ _ _ (JSON.JString (role u)))
    by (intros; apply parse_value_quote).
  cbn [JSON.skip_ws JSON.is_ws].
  rewrite (parse_member _ _ _ (JSON.JString (tokenType u)))
    by (intros; apply parse_value_quote).
  cbn [JSON.skip_ws JSON.is_ws].
  rewrite (parse_member _ _ _ (JSON.JBool (loggedIn u)))
    by (intros; apply parse_value_bool).
  reflexivity.
Qed.

Lemma parse_stringify_UserInfo (u : UserInfo) :
  JSON.parse (JSON.stringify (UserInfo_value u)) = Some (UserInfo_value u).
Proof.
  unfold JSON.parse.
  assert (Hfuel : exists n, (2 * String.length (JSON.stringify (UserInfo_value u)) + 2
                             = 6 + n)%nat).
  { assert (Hlen : (2 <= String.length (JSON.stringify (UserInfo_value u)))%nat).
    { rewrite <- (app_empty_r (JSON.stringify (UserInfo_value u))).
      rewrite stringify_UserInfo. unfold JSON.quote at 1.
      cbn [String.append String.length]. lia. }
    exists (2 * String.length (JSON.stringify (UserInfo_value u)) - 4)%nat. lia. }
  destruct Hfuel as [n ->].
  rewrite <- (app_empty_r (JSON.stringify (UserInfo_value u))) at 1.
  rewrite parse_value_UserInfo. reflexivity.
Qed.

Lemma stringify_UserInfo_truthy (u : UserInfo) :
  str_truthy (JSON.stringify (UserInfo_value u)) = true.
Proof. reflexivity. Qed.

(** ** The session: [logout], [setUserInfo], [getUserInfo] *)

(** C7. [logout()] removes the six persisted keys (resource scope, access
    token, refresh token, code verifier, state, user info) and clears the
    in-flight exchange flag; right afterwards [isAuthenticated()] is false
    and [getUserInfo()] is null.  Nothing else changes: other entries of the
    storage stay, and no request is issued. *)
Theorem logout_clears_session (w : World) :
  getItem STORAGE_KEYS.RESOURCE_SCOPE (localStorage (logout w)) = None /\
  getItem STORAGE_KEYS.ACCESS_TOKEN (localStorage (logout w)) = None /\
  getItem STORAGE_KEYS.REFRESH_TOKEN (localStorage (logout w)) = None /\
  getItem STORAGE_KEYS.CODE_VERIFIER (localStorage (logout w)) = None /\
  getItem STORAGE_KEYS.STATE (localStorage (logout w)) = None /\
  getItem STORAGE_KEYS.USER_INFO (localStorage (logout w)) = None /\
  isExchangingTokens (logout w) = false /\
  isAuthenticated (logout w) = false /\
  getUserInfo (logout w) = JSON.JNull /\
  (forall k, k ∉ STORAGE_KEYS.values ->
     getItem k (localStorage (logout w)) = getItem k (localStorage w)) /\
  fetched (logout w) = fetched w /\ sent (logout w) = sent w.
Proof.
  assert (Hgone : forall k, k ∈ STORAGE_KEYS.values ->
            getItem k (localStorage (logout w)) = None).
  { intros k Hk. unfold logout. cbn [localStorage set_exchanging with_storage].
    rewrite getItem_remove_all. now rewrite bool_decide_eq_true_2. }
  assert (Hacc : getItem STORAGE_KEYS.ACCESS_TOKEN (localStorage (logout w)) = None)
    by (apply Hgone; unfold STORAGE_KEYS.values; set_solver).
  assert (Hinfo : getItem STORAGE_KEYS.USER_INFO (localStorage (logout w)) = None)
    by (apply Hgone; unfold STORAGE_KEYS.values; set_solver).
  repeat split; try (apply Hgone; unfold STORAGE_KEYS.values; set_solver).
  - unfold isAuthenticated, getAccessToken. now rewrite Hacc.
  - unfold getUserInfo. now rewrite Hinfo.
  - intros k Hk. unfold logout. cbn [localStorage set_exchanging with_storage].
    rewrite getItem_remove_all. now rewrite bool_decide_eq_false_2.
Qed.

Lemma getUserInfo_stored (u : UserInfo) (w : World) :
  getUserInfo (setUserInfo u w) = UserInfo_value u.
Proof.
  unfold getUserInfo, setUserInfo. cbn [localStorage with_storage].
  rewrite getItem_setItem, stringify_UserInfo_truthy, parse_stringify_UserInfo.
  reflexivity.
Qed.

(** C10. For every [UserInfo] value [u], [setUserInfo(u)] followed by
    [getUserInfo()] returns a value structurally equal to [u]: parsing the
    stringified record gives the record back.  Both operations are total
    functions of the world, so neither throws. *)
Theorem getUserInfo_setUserInfo (u : UserInfo) (w : World) :
  getUserInfo (setUserInfo u w) = UserInfo_value u.
Proof. apply getUserInfo_stored. Qed.

(** ** PKCE: the challenge is base64url without padding *)

Lemma replace_all_app (c : ascii) (by_ a b : string) :
  replace_all c by_ (a +:+ b) = replace_all c by_ a +:+ replace_all c by_ b.
Proof.
  induction a as [|x a IH]; [reflexivity|].
  cbn [String.append replace_all]. rewrite IH.
  destruct (Ascii.eqb x c); [now rewrite app_assoc_s | reflexivity].
Qed.

Lemma url_replacements_cons (x : ascii) (r : string) :
  url_replacements (String x r)
  = url_replacements (String x EmptyString) +:+ url_replacements r.
Proof.
  change (String x r) with (String x EmptyString +:+ r).
  unfold url_replacements. now rewrite !replace_all_app.
Qed.

Lemma url_replacements_digit (n : N) :
  url_replacements (String (Base64.digit Base64.alphabet n) EmptyString)
  = String (Base64.digit Base64.url_alphabet n) EmptyString.
Proof.
  unfold Base64.digit. generalize (N.to_nat n) as k. intros k.
  do 64 (destruct k as [|k]; [reflexivity|]).
  destruct k; reflexivity.
Qed.

Lemma url_digit_safe (n : N) :
  url_unsafe (Base64.digit Base64.url_alphabet n) = false.
Proof.
  unfold Base64.digit. generalize (N.to_nat n) as k. intros k.
  do 64 (destruct k as [|k]; [reflexivity|]).
  destruct k; reflexivity.
Qed.

Lemma url_replacements_btoa_le (n : nat) : forall bytes : list ascii,
  (length bytes <= n)%nat ->
  url_replacements (Base64.btoa (String_fromCharCode bytes))
  = Base64.base64url_nopad bytes.
Proof.
  induction n as [n IH] using lt_wf_ind. intros bytes Hlen.
  destruct bytes as [|a [|b [|c rest]]].
  - reflexivity.
  - cbn [String_fromCharCode string_of_list_ascii Base64.btoa Base64.base64url_nopad].
    rewrite url_replacements_cons, url_replacements_digit.
    rewrite url_replacements_cons, url_replacements_digit.
    reflexivity.
  - cbn [String_fromCharCode string_of_list_ascii Base64.btoa Base64.base64url_nopad].
    rewrite url_replacements_cons, url_replacements_digit.
    rewrite url_replacements_cons, url_replacements_digit.
    rewrite url_replacements_cons, url_replacements_digit.
    reflexivity.
  - cbn [String_fromCharCode string_of_list_ascii Base64.btoa Base64.base64url_nopad].
    rewrite url_replacements_cons, url_replacements_digit.
    rewrite url_replacements_cons, url_replacements_digit.
    rewrite url_replacements_cons, url_replacements_digit.
    rewrite url_replacements_cons, url_replacements_digit.
    cbn [String.append]. do 4 f_equal.
    apply (IH (length rest)); cbn [length] in Hlen; lia.
Qed.

Lemma url_replacements_btoa (bytes : list ascii) :
  url_replacements (Base64.btoa (String_fromCharCode bytes))
  = Base64.base64url_nopad bytes.
Proof. now apply (url_replacements_btoa_le (length bytes)). Qed.

Lemma base64url_nopad_safe_le (n : nat) : forall bytes : list ascii,
  (length bytes <= n)%nat ->
  string_forall (fun c => negb (url_unsafe c)) (Base64.base64url_nopad bytes) = true.
Proof.
  induction n as [n IH] using lt_wf_ind. intros bytes Hlen.
  destruct bytes as [|a [|b [|c rest]]];
    cbn [Base64.base64url_nopad string_forall]; rewrite ?url_digit_safe;
    cbn [negb andb]; try reflexivity.
  apply (IH (length rest)); cbn [length] in Hlen; lia.
Qed.

(** C2. For every verifier [V], [generatePKCEChallenge(V)] is a function of
    [V] alone and equals the base64url encoding, without padding, of the
    SHA-256 digest of the UTF-8 bytes of [V]; the result holds none of the
    characters [+], [/] and [=]. *)
Theorem generatePKCEChallenge_base64url (V : string) :
  PKCEUtils.generatePKCEChallenge V
  = Base64.base64url_nopad (SHA256.digest (TextEncoder_encode V))
  /\ string_forall (fun c => negb (url_unsafe c)) (PKCEUtils.generatePKCEChallenge V)
     = true.
Proof.
  assert (H : PKCEUtils.generatePKCEChallenge V
              = Base64.base64url_nopad (SHA256.digest (TextEncoder_encode V))).
  { unfold PKCEUtils.generatePKCEChallenge. apply url_replacements_btoa. }
  split; [exact H|]. rewrite H.
  now apply (base64url_nopad_safe_le (length (SHA256.digest (TextEncoder_encode V)))).
Qed.

(** The worked example of RFC 7636, appendix B. *)
Example generatePKCEChallenge_rfc7636 :
  PKCEUtils.generatePKCEChallenge "dBjftJeZ4CVP-mB92K27uhbUJU1p1r_wW1gFWFOEjXk"
  = "E9Melhoa2OwvFrEMTJguCHaoeK1t8URWbuGJSstw-cM".
Proof. vm_compute. reflexivity. Qed.

(** ** The code exchange *)

Lemma set_exchanging_same (w : World) :
  set_exchanging (isExchangingTokens w) w = w.
Proof. now destruct w. Qed.

Lemma set_exchanging_twice (a b : bool) (w : World) :
  set_exchanging a (set_exchanging b w) = set_exchanging a w.
Proof. reflexivity. Qed.

Section ManagerFacts.

Variable origin : string.
Variable fetch : FetchRequest -> result Response.

(** A segment that ends the call lowers the flag; one that suspends it
    leaves the flag alone. *)
Lemma finally_release_flag (p : World * Stage) :
  match snd (finally_release p) with
  | Settled _ => isExchangingTokens (fst (finally_release p)) = false
  | Suspended _ => isExchangingTokens (fst (finally_release p))
                   = isExchangingTokens (fst p)
  end.
Proof. destruct p as [w [r|s]]; reflexivity. Qed.

Lemma resume_flag (s : Suspension) (w : World) :
  match snd (resume fetch s w) with
  | Settled _ => isExchangingTokens (fst (resume fetch s w)) = false
  | Suspended _ => isExchangingTokens (fst (resume fetch s w)) = isExchangingTokens w
  end.
Proof.
  destruct s as [request|response|response]; cbn [resume].
  - unfold exchange_after_fetch. destruct (fetch request) as [response|e]; [|reflexivity].
    destruct (negb (ok response)); reflexivity.
  - unfold exchange_after_text. destruct (text response); reflexivity.
  - unfold exchange_after_json. destruct (json response) as [tokenData|e]; [|reflexivity].
    destruct (negb (truthy (access_token tokenData))); reflexivity.
Qed.

(** Past the two guards, the first segment raises the flag and either
    ends the call, lowering it again, or suspends at the [fetch]. *)
Lemma exchange_enter_flag (code state : string) (w : World) :
  isAuthenticated w = false -> isExchangingTokens w = false ->
  match snd (exchange_enter origin code state w) with
  | Settled _ => isExchangingTokens (fst (exchange_enter origin code state w)) = false
  | Suspended _ => isExchangingTokens (fst (exchange_enter origin code state w)) = true
  end.
Proof.
  intros Hauth Hflag. unfold exchange_enter.
  rewrite Hauth, Hflag.
  cbn [localStorage set_exchanging].
  destruct (negb (truthy (getItem STORAGE_KEYS.STATE (localStorage w)))
            || strict_ne (getItem STORAGE_KEYS.STATE (localStorage w)) state);
    [reflexivity|].
  destruct (negb (truthy (getItem STORAGE_KEYS.CODE_VERIFIER (localStorage w))));
    reflexivity.
Qed.

Lemma exchange_enter_guarded (code state : string) (w : World) :
  isAuthenticated w = true \/ isExchangingTokens w = true ->
  exchange_enter origin code state w = (w, Settled (Ok tt)).
Proof.
  intros [H|H]; unfold exchange_enter; rewrite H; [reflexivity|].
  now destruct (isAuthenticated w).
Qed.

Lemma str_truthy_ne (s : string) : s <> EmptyString -> str_truthy s = true.
Proof. destruct s; [congruence | reflexivity]. Qed.

Lemma strict_ne_same (s : string) : strict_ne (Some s) s = false.
Proof. unfold strict_ne. now rewrite String.eqb_refl. Qed.

Lemma strict_ne_other (v : option string) (s : string) :
  v <> Some s -> strict_ne v s = true.
Proof.
  destruct v as [t|]; [|reflexivity]. intros H. unfold strict_ne.
  destruct (String.eqb_spec t s) as [->|]; [congruence | reflexivity].
Qed.

Lemma release_after_fetch (request : FetchRequest) (w : World) :
  isExchangingTokens w = false ->
  set_exchanging false (do_fetch request (set_exchanging true w)) = do_fetch request w.
Proof. destruct w; cbn. now intros ->. Qed.

(** With a matching state and a verifier in the storage, the call gets to
    its [fetch]. *)
Lemma exchange_enter_fetches (code state codeVerifier : string) (w : World) :
  isAuthenticated w = false -> isExchangingTokens w = false ->
  getItem STORAGE_KEYS.STATE (localStorage w) = Some state -> state <> EmptyString ->
  getItem STORAGE_KEYS.CODE_VERIFIER (localStorage w) = Some codeVerifier ->
  codeVerifier <> EmptyString ->
  exchange_enter origin code state w
  = (do_fetch (token_request origin code codeVerifier) (set_exchanging true w),
     Suspended (AwaitFetch (token_request origin code codeVerifier))).
Proof.
  intros Hauth Hflag Hstate Hne Hver Hvne. unfold exchange_enter.
  rewrite Hauth, Hflag. cbn [localStorage set_exchanging].
  rewrite Hstate, Hver. cbn [truthy].
  rewrite (str_truthy_ne _ Hne), (str_truthy_ne _ Hvne), strict_ne_same.
  reflexivity.
Qed.

(** C1. A call made while the manager is not authenticated and no exchange
    is in flight, with the persisted [bodhi_state] absent or different from
    the supplied state, rejects with the message 'Invalid state parameter';
    the world is left as it was, so no request went to the token endpoint. *)
Theorem exchange_rejects_invalid_state (code state : string) (w : World) :
  isAuthenticated w = false -> isExchangingTokens w = false ->
  getItem STORAGE_KEYS.STATE (localStorage w) = None
  \/ getItem STORAGE_KEYS.STATE (localStorage w) <> Some state ->
  exchangeCodeForTokens origin fetch code state w
  = (w, Settled (Rejected (Error "Invalid state parameter")))
  /\ fetched (fst (exchangeCodeForTokens origin fetch code state w)) = fetched w.
Proof.
  intros Hauth Hflag Hstate.
  assert (H : exchangeCodeForTokens origin fetch code state w
              = (w, Settled (Rejected (Error "Invalid state parameter")))).
  { unfold exchangeCodeForTokens, exchange_enter.
    rewrite Hauth, Hflag. cbn [localStorage set_exchanging].
    assert (Hbad : negb (truthy (getItem STORAGE_KEYS.STATE (localStorage w)))
                   || strict_ne (getItem STORAGE_KEYS.STATE (localStorage w)) state = true).
    { destruct Hstate as [->|Hne]; [reflexivity|].
      rewrite (strict_ne_other _ _ Hne). apply orb_true_r. }
    rewrite Hbad. cbn [finally_release continue].
    rewrite set_exchanging_twice, <- Hflag, set_exchanging_same. reflexivity. }
  now rewrite H.
Qed.

(** C5. When the token endpoint answers with a status that is not a
    success, the call rejects with a message that holds the status code and
    the text of the body; the storage is as it was, so no access or refresh
    token has been persisted. *)
Theorem exchange_http_error
    (code state codeVerifier errorText : string) (response : Response) (w : World) :
  isAuthenticated w = false -> isExchangingTokens w = false ->
  getItem STORAGE_KEYS.STATE (localStorage w) = Some state -> state <> EmptyString ->
  getItem STORAGE_KEYS.CODE_VERIFIER (localStorage w) = Some codeVerifier ->
  codeVerifier <> EmptyString ->
  fetch (token_request origin code codeVerifier) = Ok response ->
  ok response = false ->
  text response = Ok errorText ->
  exists w' msg,
    exchangeCodeForTokens origin fetch code state w = (w', Settled (Rejected (Error msg)))
    /\ msg = "Token exchange failed: " +:+ num_to_string (resp_status response)
                +:+ " " +:+ errorText
    /\ contains msg (num_to_string (resp_status response))
    /\ contains msg errorText
    /\ localStorage w' = localStorage w
    /\ isAuthenticated w' = false
    /\ isExchangingTokens w' = false.
Proof.
  intros Hauth Hflag Hstate Hne Hver Hvne Hfetch Hok Htext.
  exists (do_fetch (token_request origin code codeVerifier) w).
  eexists. split; [|split; [reflexivity|]].
  - unfold exchangeCodeForTokens.
    rewrite (exchange_enter_fetches _ _ codeVerifier) by assumption.
    cbn [continue resume]. unfold exchange_after_fetch. rewrite Hfetch, Hok.
    cbn [negb finally_release continue resume].
    unfold exchange_after_text. rewrite Htext. cbn [finally_release].
    now rewrite release_after_fetch.
  - repeat split.
    + exists "Token exchange failed: ", (" " +:+ errorText). reflexivity.
    + exists ("Token exchange failed: " +:+ num_to_string (resp_status response) +:+ " "),
        EmptyString.
      rewrite app_empty_r, !app_assoc_s. reflexivity.
    + exact Hauth.
    + exact Hflag.
Qed.

(** C4. When the exchange succeeds (the stored state matches, a code
    verifier is stored, the token endpoint answers with a success status and
    a body that holds an access token), the access token is persisted, the
    refresh token is persisted exactly when the answer holds one, and the
    entries [bodhi_state] and [bodhi_code_verifier] are deleted. *)
Theorem exchange_success
    (code state codeVerifier accessToken : string) (response : Response)
    (tokenData : TokenResponse) (w : World) :
  isAuthenticated w = false -> isExchangingTokens w = false ->
  getItem STORAGE_KEYS.STATE (localStorage w) = Some state -> state <> EmptyString ->
  getItem STORAGE_KEYS.CODE_VERIFIER (localStorage w) = Some codeVerifier ->
  codeVerifier <> EmptyString ->
  fetch (token_request origin code codeVerifier) = Ok response ->
  ok response = true ->
  json response = Ok tokenData ->
  access_token tokenData = Some accessToken -> accessToken <> EmptyString ->
  exists w',
    exchangeCodeForTokens origin fetch code state w = (w', Settled (Ok tt))
    /\ getItem STORAGE_KEYS.ACCESS_TOKEN (localStorage w') = Some accessToken
    /\ getItem STORAGE_KEYS.REFRESH_TOKEN (localStorage w')
       = (if truthy (refresh_token tokenData) then refresh_token tokenData
          else getItem STORAGE_KEYS.REFRESH_TOKEN (localStorage w))
    /\ getItem STORAGE_KEYS.STATE (localStorage w') = None
    /\ getItem STORAGE_KEYS.CODE_VERIFIER (localStorage w') = None
    /\ isExchangingTokens w' = false
    /\ fetched w' = fetched w ++ [token_request origin code codeVerifier].
Proof.
  intros Hauth Hflag Hstate Hne Hver Hvne Hfetch Hok Hjson Hacc Hane.
  eexists. split.
  - unfold exchangeCodeForTokens.
    rewrite (exchange_enter_fetches _ _ codeVerifier) by assumption.
    cbn [continue resume]. unfold exchange_after_fetch. rewrite Hfetch, Hok.
    cbn [negb finally_release continue resume].
    unfold exchange_after_json. rewrite Hjson, Hacc. cbn [truthy].
    rewrite (str_truthy_ne _ Hane). cbn [negb finally_release default].
    reflexivity.
  - cbn [localStorage set_exchanging with_storage isExchangingTokens fetched].
    repeat split.
    + rewrite !getItem_removeItem_ne by discriminate.
      destruct (truthy (refresh_token tokenData));
        cbn [localStorage with_storage do_fetch set_exchanging].
      * rewrite getItem_setItem_ne by discriminate. apply getItem_setItem.
      * apply getItem_setItem.
    + rewrite !getItem_removeItem_ne by discriminate.
      destruct (refresh_token tokenData) as [r|] eqn:Hr; cbn [truthy].
      * destruct (str_truthy r); cbn [localStorage with_storage do_fetch set_exchanging default].
        -- apply getItem_setItem.
        -- now rewrite getItem_setItem_ne by discriminate.
      * cbn [localStorage with_storage do_fetch set_exchanging].
        now rewrite getItem_setItem_ne by discriminate.
    + rewrite getItem_removeItem_ne by discriminate. apply getItem_removeItem.
    + apply getItem_removeItem.
    + now destruct (truthy (refresh_token tokenData)).
Qed.

(** *** Overlapping calls *)

Lemma requestResourceAccess_flag (c : ExtensionClient) (w : World) :
  isExchangingTokens (fst (requestResourceAccess c w)) = isExchangingTokens w.
Proof.
  unfold requestResourceAccess.
  destruct (sendApiRequest c _) as [response|e]; [|reflexivity].
  destruct (negb (truthy (body response !! "scope"))); reflexivity.
Qed.

Lemma buildAuthUrl_flag (rng : Rng) (w : World) :
  isExchangingTokens (fst (fst (buildAuthUrl origin rng w))) = isExchangingTokens w.
Proof.
  unfold buildAuthUrl.
  destruct (negb (truthy (getItem STORAGE_KEYS.RESOURCE_SCOPE (localStorage w))));
    reflexivity.
Qed.

Lemma fetchUserInfo_flag (c : ExtensionClient) (w : World) :
  isExchangingTokens (fst (fetchUserInfo c w)) = isExchangingTokens w.
Proof.
  unfold fetchUserInfo. destruct (negb (truthy (getAccessToken w))); [reflexivity|].
  destruct (sendApiRequest c _); reflexivity.
Qed.

(** One step of the event loop keeps the flag in step with the calls that
    wait, as long as [logout()] does not come while one waits. *)
Lemma step_flag_counts (l : Label) (sys sys' : System) :
  flag_counts sys ->
  (is_logout l = true -> inflight sys = []) ->
  step origin fetch l sys = Some sys' ->
  flag_counts sys'.
Proof.
  unfold flag_counts. intros Hinv Hidle Hstep.
  destruct l as [code state|i| |c|rng|u|c]; cbn [step] in Hstep.
  - destruct (isAuthenticated (world sys)) eqn:Hauth.
    { rewrite exchange_enter_guarded in Hstep by now left.
      injection Hstep as <-. exact Hinv. }
    destruct (isExchangingTokens (world sys)) eqn:Hflag.
    { rewrite exchange_enter_guarded in Hstep by now right.
      injection Hstep as <-. cbn [world inflight]. now rewrite Hflag. }
    pose proof (exchange_enter_flag code state _ Hauth Hflag) as Hf.
    destruct (exchange_enter origin code state (world sys)) as [w' [r|s]];
      cbn [fst snd] in Hf; injection Hstep as <-; cbn [world inflight]; rewrite Hf.
    + exact Hinv.
    + rewrite length_app, Hinv. reflexivity.
  - destruct (inflight sys !! i) as [s|] eqn:Hi; [|discriminate].
    pose proof (lookup_lt_Some _ _ _ Hi) as Hlt.
    destruct (isExchangingTokens (world sys)) eqn:Hflag; [|lia].
    pose proof (resume_flag s (world sys)) as Hf.
    destruct (resume fetch s (world sys)) as [w' [r|s']];
      cbn [fst snd] in Hf; injection Hstep as <-; cbn [world inflight]; rewrite Hf.
    + destruct (inflight sys) as [|s0 [|s1 rest]]; cbn [length] in *; try lia.
      assert (i = 0)%nat as -> by lia. reflexivity.
    + rewrite length_insert, Hflag. exact Hinv.
  - injection Hstep as <-. cbn [world inflight logout set_exchanging isExchangingTokens].
    now rewrite (Hidle eq_refl).
  - injection Hstep as <-. cbn [world inflight]. now rewrite requestResourceAccess_flag.
  - injection Hstep as <-. cbn [world inflight]. now rewrite buildAuthUrl_flag.
  - injection Hstep as <-. exact Hinv.
  - injection Hstep as <-. cbn [world inflight]. now rewrite fetchUserInfo_flag.
Qed.

Lemma run_flag_counts (trace : list Label) : forall sys sys' : System,
  flag_counts sys ->
  logout_when_idle origin fetch trace sys ->
  run origin fetch trace sys = Some sys' ->
  flag_counts sys'.
Proof.
  induction trace as [|l trace IH]; intros sys sys' Hinv Hidle Hrun.
  - injection Hrun as <-. exact Hinv.
  - cbn [run] in Hrun. cbn [logout_when_idle] in Hidle. destruct Hidle as [Hl Hrest].
    destruct (step origin fetch l sys) as [sys1|] eqn:Hstep; [|discriminate].
    apply (IH sys1 sys'); [|exact Hrest|exact Hrun].
    now apply (step_flag_counts l sys).
Qed.

(** Run on its own, a call that passes the two guards comes to an end,
    with the flag down. *)
Lemma exchangeCodeForTokens_releases (code state : string) (w : World) :
  isAuthenticated w = false -> isExchangingTokens w = false ->
  exists w' r,
    exchangeCodeForTokens origin fetch code state w = (w', Settled r)
    /\ isExchangingTokens w' = false.
Proof.
  intros Hauth Hflag. unfold exchangeCodeForTokens, exchange_enter.
  rewrite Hauth, Hflag. cbn [localStorage set_exchanging].
  destruct (negb (truthy (getItem STORAGE_KEYS.STATE (localStorage w)))
            || strict_ne (getItem STORAGE_KEYS.STATE (localStorage w)) state);
    [now eexists _, _|].
  destruct (negb (truthy (getItem STORAGE_KEYS.CODE_VERIFIER (localStorage w))));
    [now eexists _, _|].
  cbn [finally_release continue resume]. unfold exchange_after_fetch.
  destruct (fetch _) as [response|e]; [|now eexists _, _].
  destruct (negb (ok response)); cbn [finally_release continue resume].
  - unfold exchange_after_text. destruct (text response); now eexists _, _.
  - unfold exchange_after_json.
    destruct (json response) as [tokenData|e]; [|now eexists _, _].
    destruct (negb (truthy (access_token tokenData))); now eexists _, _.
Qed.

(** C3, as the code has it.  A call made while the manager is authenticated
    or while the flag is up returns at once and leaves the whole world as it
    was: no request, no change to the storage.  A call that passes the two
    guards comes to an end when run on its own, and the flag is down
    whenever one of its segments ends it, be it with a value or with an
    error.  And as long as [logout()] is not called while an exchange waits,
    the flag is up exactly while one call waits, so at most one exchange is
    in flight. *)
Theorem exchange_mutual_exclusion :
  (forall code state w,
     isAuthenticated w = true \/ isExchangingTokens w = true ->
     exchangeCodeForTokens origin fetch code state w = (w, Settled (Ok tt)))
  /\ (forall code state w,
        isAuthenticated w = false -> isExchangingTokens w = false ->
        exists w' r,
          exchangeCodeForTokens origin fetch code state w = (w', Settled r)
          /\ isExchangingTokens w' = false)
  /\ (forall code state w w' r,
        isAuthenticated w = false -> isExchangingTokens w = false ->
        exchange_enter origin code state w = (w', Settled r) ->
        isExchangingTokens w' = false)
  /\ (forall s w w' r,
        resume fetch s w = (w', Settled r) -> isExchangingTokens w' = false)
  /\ (forall trace sys sys',
        flag_counts sys ->
        logout_when_idle origin fetch trace sys ->
        run origin fetch trace sys = Some sys' ->
        flag_counts sys' /\ (length (inflight sys') <= 1)%nat).
Proof.
  split; [|split; [|split; [|split]]].
  - intros code state w H. unfold exchangeCodeForTokens.
    now rewrite exchange_enter_guarded.
  - apply exchangeCodeForTokens_releases.
  - intros code state w w' r Hauth Hflag Henter.
    pose proof (exchange_enter_flag code state w Hauth Hflag) as Hf.
    now rewrite Henter in Hf.
  - intros s w w' r Hres. pose proof (resume_flag s w) as Hf.
    now rewrite Hres in Hf.
  - intros trace sys sys' Hinv Hidle Hrun.
    pose proof (run_flag_counts trace sys sys' Hinv Hidle Hrun) as H.
    split; [exact H|]. unfold flag_counts in H. rewrite H.
    destruct (isExchangingTokens (world sys')); lia.
Qed.

End ManagerFacts.

(** *** Worked cases of the exchange *)

Lemma exchange_rejects_invalid_state_witness :
  exchangeCodeForTokens Sample.origin Sample.offline "c1" "other" Sample.ready
  = (Sample.ready, Settled (Rejected (Error "Invalid state parameter")))
  /\ fetched (fst (exchangeCodeForTokens Sample.origin Sample.offline "c1" "other"
                     Sample.ready))
     = fetched Sample.ready.
Proof.
  apply exchange_rejects_invalid_state;
    [reflexivity | reflexivity | right; vm_compute; discriminate].
Defined.

Lemma exchange_http_error_witness :
  exists w' msg,
    exchangeCodeForTokens Sample.origin (fun _ => Ok Sample.invalid_grant) "c1" "st"
      Sample.ready
    = (w', Settled (Rejected (Error msg)))
    /\ msg = "Token exchange failed: " +:+ num_to_string 400 +:+ " "
             +:+ JSON.stringify (JSON.JObject [("error", JSON.JString "invalid_grant")])
    /\ contains msg (num_to_string 400)
    /\ contains msg
         (JSON.stringify (JSON.JObject [("error", JSON.JString "invalid_grant")]))
    /\ localStorage w' = localStorage Sample.ready
    /\ isAuthenticated w' = false
    /\ isExchangingTokens w' = false.
Proof.
  apply (exchange_http_error Sample.origin (fun _ => Ok Sample.invalid_grant)
           "c1" "st" "ver" _ Sample.invalid_grant Sample.ready);
    try reflexivity; discriminate.
Defined.

Lemma exchange_success_witness :
  exists w',
    exchangeCodeForTokens Sample.origin (fun _ => Ok Sample.granted) "c1" "st" Sample.ready
    = (w', Settled (Ok tt))
    /\ getItem STORAGE_KEYS.ACCESS_TOKEN (localStorage w') = Some "at-1"
    /\ getItem STORAGE_KEYS.REFRESH_TOKEN (localStorage w') = Some "rt-1"
    /\ getItem STORAGE_KEYS.STATE (localStorage w') = None
    /\ getItem STORAGE_KEYS.CODE_VERIFIER (localStorage w') = None
    /\ isExchangingTokens w' = false
    /\ fetched w' = [token_request Sample.origin "c1" "ver"].
Proof.
  apply (exchange_success Sample.origin (fun _ => Ok Sample.granted)
           "c1" "st" "ver" "at-1" Sample.granted Sample.tokens Sample.ready);
    try reflexivity; discriminate.
Defined.

(** The callback page mounted twice: the second call is a no-op and one
    exchange is in flight. *)
Lemma exchange_mutual_exclusion_witness :
  flag_counts (Sample.idle Sample.ready)
  /\ logout_when_idle Sample.origin Sample.offline Sample.mounted_twice
       (Sample.idle Sample.ready)
  /\ exists sys',
       run Sample.origin Sample.offline Sample.mounted_twice (Sample.idle Sample.ready)
       = Some sys'
       /\ flag_counts sys' /\ (length (inflight sys') <= 1)%nat.
Proof.
  assert (Hinv : flag_counts (Sample.idle Sample.ready)) by reflexivity.
  assert (Hidle : logout_when_idle Sample.origin Sample.offline Sample.mounted_twice
                    (Sample.idle Sample.ready)).
  { vm_compute. repeat split; discriminate. }
  split; [exact Hinv|]. split; [exact Hidle|].
  destruct (run Sample.origin Sample.offline Sample.mounted_twice
              (Sample.idle Sample.ready)) as [sys'|] eqn:Hrun.
  - exists sys'. split; [reflexivity|].
    exact (proj2 (proj2 (proj2 (proj2
             (exchange_mutual_exclusion Sample.origin Sample.offline))))
             Sample.mounted_twice (Sample.idle Sample.ready) sys' Hinv Hidle Hrun).
  - vm_compute in Hrun. discriminate.
Defined.

(** Where C3 fails as it is stated.  The flag does not keep two exchanges
    apart once [logout()] has lowered it under a call that waits: after a
    second login two calls wait for the token endpoint, each with its own
    request, and the second did not return at once. *)
Lemma two_exchanges_in_flight :
  match run Sample.origin Sample.offline Sample.logout_between (Sample.idle fresh) with
  | Some sys' =>
      length (inflight sys') = 2%nat
      /\ length (fetched (world sys')) = 2%nat
      /\ ~ (length (inflight sys') <= 1)%nat
  | None => False
  end.
Proof. vm_compute. repeat split. lia. Qed.

(** ** URLSearchParams: parsing what was serialized *)

Lemma string_forall_impl (p q : ascii -> bool) (s : string) :
  (forall c, p c = true -> q c = true) ->
  string_forall p s = true -> string_forall q s = true.
Proof.
  intros Hpq. induction s as [|c s IH]; [reflexivity|].
  cbn [string_forall]. intros [Hc Hs]%andb_true_iff.
  now rewrite (Hpq c Hc), (IH Hs).
Qed.

Lemma encode_byte_form (c : ascii) :
  string_forall form_char (URLSearchParams.encode_byte c) = true.
Proof. destruct c as [[] [] [] [] [] [] [] []]; reflexivity. Qed.

Lemma encode_form (s : string) :
  string_forall form_char (URLSearchParams.encode s) = true.
Proof.
  induction s as [|c s IH]; [reflexivity|].
  cbn [URLSearchParams.encode]. now rewrite string_forall_app, encode_byte_form, IH.
Qed.

Lemma form_char_differs (x c : ascii) :
  form_char x = false -> form_char c = true -> differs x c = true.
Proof.
  intros Hx Hc. unfold differs. destruct (Ascii.eqb_spec c x) as [->|]; [|reflexivity].
  congruence.
Qed.

Lemma encode_differs (x : ascii) (s : string) :
  form_char x = false -> string_forall (differs x) (URLSearchParams.encode s) = true.
Proof.
  intros Hx. apply (string_forall_impl form_char); [|apply encode_form].
  intros c. now apply form_char_differs.
Qed.

Lemma break_app (sep : ascii) (a b : string) :
  string_forall (differs sep) a = true ->
  URLSearchParams.break sep (a +:+ String sep b) = (a, Some b).
Proof.
  induction a as [|c a IH]; cbn [String.append URLSearchParams.break string_forall].
  - now rewrite Ascii.eqb_refl.
  - intros [Hc Ha]%andb_true_iff. unfold differs in Hc.
    apply negb_true_iff in Hc. now rewrite Hc, (IH Ha).
Qed.

Lemma break_none (sep : ascii) (a : string) :
  string_forall (differs sep) a = true ->
  URLSearchParams.break sep a = (a, None).
Proof.
  induction a as [|c a IH]; cbn [URLSearchParams.break string_forall]; [reflexivity|].
  intros [Hc Ha]%andb_true_iff. unfold differs in Hc.
  apply negb_true_iff in Hc. now rewrite Hc, (IH Ha).
Qed.

Lemma split_none (sep : ascii) (a : string) :
  string_forall (differs sep) a = true ->
  URLSearchParams.split sep a = [a].
Proof.
  induction a as [|c a IH]; cbn [URLSearchParams.split string_forall]; [reflexivity|].
  intros [Hc Ha]%andb_true_iff. unfold differs in Hc.
  apply negb_true_iff in Hc. now rewrite Hc, (IH Ha).
Qed.

Lemma split_app (sep : ascii) (a b : string) :
  string_forall (differs sep) a = true ->
  URLSearchParams.split sep (a +:+ String sep b) = a :: URLSearchParams.split sep b.
Proof.
  induction a as [|c a IH]; cbn [String.append URLSearchParams.split string_forall].
  - now rewrite Ascii.eqb_refl.
  - intros [Hc Ha]%andb_true_iff. unfold differs in Hc.
    apply negb_true_iff in Hc. now rewrite Hc, (IH Ha).
Qed.

Lemma percent_decode_byte (c : ascii) (t : string) :
  URLSearchParams.percent_decode
    (replace_all "+" " " (URLSearchParams.encode_byte c) +:+ t)
  = String c (URLSearchParams.percent_decode t).
Proof. destruct c as [[] [] [] [] [] [] [] []]; reflexivity. Qed.

Lemma decode_encode (s : string) :
  URLSearchParams.decode (URLSearchParams.encode s) = s.
Proof.
  unfold URLSearchParams.decode. induction s as [|c s IH]; [reflexivity|].
  cbn [URLSearchParams.encode]. rewrite replace_all_app, percent_decode_byte.
  now rewrite IH.
Qed.

Lemma parse_pair_text (p : string * string) :
  URLSearchParams.parse_pair (pair_text p) = p.
Proof.
  unfold URLSearchParams.parse_pair, pair_text. cbn [String.append].
  rewrite break_app by (apply encode_differs; reflexivity).
  cbn [default from_option]. unfold id. rewrite !decode_encode. now destruct p.
Qed.

Lemma pair_text_differs (x : ascii) (p : string * string) :
  form_char x = false -> differs x "=" = true ->
  string_forall (differs x) (pair_text p) = true.
Proof.
  intros Hx Heq. unfold pair_text.
  rewrite !string_forall_app, !encode_differs by assumption.
  cbn [string_forall]. now rewrite Heq.
Qed.

Lemma pair_text_nonempty (p : string * string) : pair_text p <> EmptyString.
Proof.
  unfold pair_text. destruct (URLSearchParams.encode (fst p)); discriminate.
Qed.

Lemma split_toString (params : list (string * string)) :
  params <> [] ->
  URLSearchParams.split "&" (URLSearchParams.toString params) = map pair_text params.
Proof.
  unfold URLSearchParams.toString. fold pair_text.
  induction params as [|p [|p' rest] IH]; [congruence| |]; intros _.
  - cbn [map join]. apply split_none. now apply pair_text_differs.
  - cbn [map join] in *. cbn [String.append].
    rewrite split_app by now apply pair_text_differs.
    f_equal. now apply IH.
Qed.

Theorem parse_toString (params : list (string * string)) :
  URLSearchParams.parse (URLSearchParams.toString params) = params.
Proof.
  unfold URLSearchParams.parse. destruct params as [|p rest]; [reflexivity|].
  rewrite split_toString by discriminate.
  generalize (p :: rest) as l. intros l.
  induction l as [|q l IH]; [reflexivity|].
  cbn [map]. rewrite filter_cons.
  destruct (decide (pair_text q <> EmptyString)) as [_|Hn].
  - cbn [map]. now rewrite parse_pair_text, IH.
  - exfalso. apply Hn, pair_text_nonempty.
Qed.

Lemma toString_differs (x : ascii) (params : list (string * string)) :
  form_char x = false -> differs x "=" = true -> differs x "&" = true ->
  string_forall (differs x) (URLSearchParams.toString params) = true.
Proof.
  intros Hx Heq Hamp. unfold URLSearchParams.toString. fold pair_text.
  induction params as [|p [|p' rest] IH]; [reflexivity| |].
  - cbn [map join]. now apply pair_text_differs.
  - cbn [map join] in *. rewrite !string_forall_app, pair_text_differs by assumption.
    cbn [string_forall]. now rewrite Hamp, IH.
Qed.

(** ** [buildAuthUrl] *)

Lemma join_empty_cons (p : string) (rest : list string) :
  join EmptyString (p :: rest) = p +:+ join EmptyString rest.
Proof. destruct rest; cbn [join]; [now rewrite app_empty_r | reflexivity]. Qed.

Lemma join_singletons (f : ascii -> ascii) (l : list ascii) :
  join EmptyString (map (fun b => String (f b) EmptyString) l)
  = string_of_list_ascii (map f l).
Proof.
  induction l as [|x l IH]; [reflexivity|].
  cbn [map string_of_list_ascii]. now rewrite join_empty_cons, IH.
Qed.

Lemma length_string_of_list_ascii (l : list ascii) :
  String.length (string_of_list_ascii l) = length l.
Proof. induction l as [|x l IH]; [reflexivity|]. cbn. now rewrite IH. Qed.

Lemma generateRandomString_length (n : nat) (rng : Rng) :
  String.length (fst (PKCEUtils.generateRandomString n rng)) = n.
Proof.
  unfold PKCEUtils.generateRandomString, getRandomValues. cbn [fst].
  rewrite (join_singletons (fun byte => ascii_of_N (N_of_ascii byte mod 26 + 97))).
  now rewrite length_string_of_list_ascii, !length_map, length_seq.
Qed.



(** The query of the authorization URL is the serialized parameters. *)
Lemma searchParams_auth (params : list (string * string)) :
  searchParams (BODHI_AUTH_URL +:+ "/realms/" +:+ AUTH_REALM
                +:+ "/protocol/openid-connect/auth?" +:+ URLSearchParams.toString params)
  = params.
Proof.
  unfold searchParams.
  rewrite (break_none "#").
  - cbn [fst].
    change (URLSearchParams.break "?" _)
      with ("https://main-id.getbodhi.app/realms/bodhi/protocol/openid-connect/auth",
            Some (URLSearchParams.toString params)).
    cbv beta iota. apply parse_toString.
  - change (BODHI_AUTH_URL +:+ "/realms/" +:+ AUTH_REALM
            +:+ "/protocol/openid-connect/auth?" +:+ URLSearchParams.toString params)
      with ("https://main-id.getbodhi.app/realms/bodhi/protocol/openid-connect/auth?"
            +:+ URLSearchParams.toString params).
    rewrite string_forall_app, toString_differs by reflexivity. reflexivity.
Qed.

(** [requestResourceAccess] never persists an empty scope. *)
Lemma requestResourceAccess_scope (c : ExtensionClient) (w : World) (scope : string) :
  snd (requestResourceAccess c w) = Ok scope ->
  scope <> EmptyString
  /\ getItem STORAGE_KEYS.RESOURCE_SCOPE (localStorage (fst (requestResourceAccess c w)))
     = Some scope.
Proof.
  unfold requestResourceAccess.
  destruct (sendApiRequest c _) as [response|e]; [|discriminate].
  destruct (body response !! "scope") as [s|]; cbn [truthy negb]; [|discriminate].
  destruct s as [|a s]; cbn [str_truthy negb snd fst]; [discriminate|].
  intros [= <-]. split; [discriminate|].
  cbn [localStorage with_storage do_send default from_option]. apply getItem_setItem.
Qed.




(** ** Detection of the extension *)

Section DetectionFacts.

Variable present : Z -> bool.
Variable late : nat -> N.
Variable late_race : N.
Variable getExtensionId_call : IdBehaviour.

(** With enough checks left for the time that remains, the polling ends. *)
Lemma checkExtension_ends (timeout startTime : Z) : forall (fuel k : nat) (t : Z),
  timeout - (t - startTime) <= (Z.of_nat fuel - 1) * 100 ->
  (1 <= fuel)%nat ->
  exists b, checkExtension present late timeout startTime fuel k t = Some b.
Proof.
  induction fuel as [|fuel IH]; intros k t Hrem Hpos; [lia|].
  cbn [checkExtension]. destruct (present t); [now eexists|].
  destruct (Z.geb_spec (t - startTime) timeout) as [Hge|Hlt]; [now eexists|].
  apply IH; lia.
Qed.

Lemma checkExtension_total (timeout startTime : Z) :
  exists b, checkExtension present late timeout startTime (checks timeout) 0 startTime
            = Some b.
Proof.
  apply checkExtension_ends; unfold checks; [|lia].
  destruct (Z.le_gt_cases 0 timeout) as [Hpos|Hneg].
  - pose proof (Z.div_mod timeout 100 ltac:(lia)) as Hdm.
    pose proof (Z.mod_pos_bound timeout 100 ltac:(lia)) as Hm.
    assert (0 <= timeout / 100) by (apply Z.div_pos; lia). lia.
  - lia.
Qed.

(** The checks happen at the instants [check_time]: whatever the polling
    answers, it has seen the object at one of them, or seen the time out at
    one of them. *)
Lemma checkExtension_sees (timeout startTime : Z) : forall (fuel k : nat) (b : bool),
  checkExtension present late timeout startTime fuel k (check_time late startTime k)
  = Some b ->
  exists j, (k <= j)%nat /\
    if b then present (check_time late startTime j) = true
    else present (check_time late startTime j) = false
         /\ timeout <= check_time late startTime j - startTime.
Proof.
  induction fuel as [|fuel IH]; intros k b; cbn [checkExtension]; [discriminate|].
  destruct (present (check_time late startTime k)) eqn:Hp.
  - intros [= <-]. exists k. now split.
  - destruct (Z.geb_spec (check_time late startTime k - startTime) timeout) as [Hge|Hlt].
    + intros [= <-]. exists k. split; [lia|]. split; [exact Hp | lia].
    + intros H. change (check_time late startTime k + 100 + Z.of_N (late k))
        with (check_time late startTime (S k)) in H.
      destruct (IH _ _ H) as (j & Hj & Hb). exists j. split; [lia | exact Hb].
Qed.

Lemma checkExtension_absent (timeout startTime : Z) (fuel : nat) :
  (forall k, present (check_time late startTime k) = false) ->
  checkExtension present late timeout startTime fuel 0 startTime <> Some true.
Proof.
  intros Habs H.
  destruct (checkExtension_sees timeout startTime fuel 0 true H) as (j & _ & Hj).
  now rewrite Habs in Hj.
Qed.

Lemma check_time_punctual (startTime : Z) (k : nat) :
  (forall i, late i = 0%N) -> check_time late startTime k = startTime + 100 * Z.of_nat k.
Proof.
  intros Hp. induction k as [|k IH]; cbn [check_time]; [lia|].
  rewrite IH, Hp. lia.
Qed.

(** The instants of the checks are at least 100 ms apart. *)
Lemma check_time_ge (startTime : Z) (k : nat) :
  startTime + 100 * Z.of_nat k <= check_time late startTime k.
Proof. induction k as [|k IH]; cbn [check_time]; lia. Qed.

(** The polling stops at the first check at which the object is there or
    the timeout has elapsed, and answers whether the object is there: the
    object is looked for before the clock. *)
Lemma checkExtension_stops (timeout startTime : Z) : forall (fuel k n : nat),
  (k <= n)%nat -> (n - k < fuel)%nat ->
  (forall i, (k <= i < n)%nat ->
     present (check_time late startTime i) = false
     /\ check_time late startTime i - startTime < timeout) ->
  present (check_time late startTime n) = true
  \/ timeout <= check_time late startTime n - startTime ->
  checkExtension present late timeout startTime fuel k (check_time late startTime k)
  = Some (present (check_time late startTime n)).
Proof.
  induction fuel as [|fuel IH]; intros k n Hkn Hfuel Hwait Hstop; [lia|].
  cbn [checkExtension].
  destruct (Nat.eq_dec k n) as [->|Hne].
  - destruct (present (check_time late startTime n)); [reflexivity|].
    destruct Hstop as [Hp|He]; [discriminate|].
    destruct (Z.geb_spec (check_time late startTime n - startTime) timeout);
      [reflexivity|lia].
  - destruct (Hwait k ltac:(lia)) as [Hp Ht]. rewrite Hp.
    destruct (Z.geb_spec (check_time late startTime k - startTime) timeout); [lia|].
    change (check_time late startTime k + 100 + Z.of_N (late k))
      with (check_time late startTime (S k)).
    apply IH; [lia | lia | | exact Hstop].
    intros i Hi. apply Hwait. lia.
Qed.

(** Conversely, an answer of the polling was given at such a check. *)
Lemma checkExtension_trace (timeout startTime : Z) : forall (fuel k : nat) (b : bool),
  checkExtension present late timeout startTime fuel k (check_time late startTime k)
  = Some b ->
  exists n, (k <= n)%nat /\ (n - k < fuel)%nat
    /\ (forall i, (k <= i < n)%nat ->
          present (check_time late startTime i) = false
          /\ check_time late startTime i - startTime < timeout)
    /\ present (check_time late startTime n) = b
    /\ (b = false -> timeout <= check_time late startTime n - startTime).
Proof.
  induction fuel as [|fuel IH]; intros k b; cbn [checkExtension]; [discriminate|].
  destruct (present (check_time late startTime k)) eqn:Hp.
  - intros [= <-]. exists k. split; [lia|]. split; [lia|]. split; [intros i Hi; lia|].
    split; [exact Hp | discriminate].
  - destruct (Z.geb_spec (check_time late startTime k - startTime) timeout) as [Hge|Hlt].
    + intros [= <-]. exists k. split; [lia|]. split; [lia|]. split; [intros i Hi; lia|].
      split; [exact Hp | intros _; lia].
    + intros H. change (check_time late startTime k + 100 + Z.of_N (late k))
        with (check_time late startTime (S k)) in H.
      destruct (IH _ _ H) as (n & Hn & Hfuel & Hwait & Hb & He).
      exists n. split; [lia|]. split; [lia|]. split; [|now split].
      intros i Hi. destruct (Nat.eq_dec i k) as [->|Hne]; [now split|].
      apply Hwait. lia.
Qed.

(** While the polling goes on, the bound on the checks is not reached. *)
Lemma waiting_bound (timeout startTime : Z) (n : nat) :
  (forall i, (i < n)%nat -> check_time late startTime i - startTime < timeout) ->
  (n < checks timeout)%nat.
Proof.
  intros Hwait. destruct (Nat.lt_ge_cases n (checks timeout)) as [Hlt|Hge]; [exact Hlt|].
  exfalso. unfold checks in Hge.
  specialize (Hwait (Z.to_nat (timeout / 100) + 1)%nat ltac:(lia)).
  pose proof (check_time_ge startTime (Z.to_nat (timeout / 100) + 1)) as Hk.
  destruct (Z.le_gt_cases 0 timeout) as [Hpos|Hneg]; [|lia].
  pose proof (Z.div_mod timeout 100 ltac:(lia)) as Hdm.
  pose proof (Z.mod_pos_bound timeout 100 ltac:(lia)) as Hm.
  assert (0 <= timeout / 100) by (apply Z.div_pos; lia). lia.
Qed.

(** What the call gives, read off the check at which the polling stops. *)
Lemma loadExtensionClient_at (config_timeout : option Z) (startTime : Z) (n : nat) :
  let timeout := default 10000 config_timeout in
  (forall i, (i < n)%nat ->
     present (check_time late startTime i) = false
     /\ check_time late startTime i - startTime < timeout) ->
  present (check_time late startTime n) = true
  \/ timeout <= check_time late startTime n - startTime ->
  loadExtensionClient present late late_race getExtensionId_call config_timeout startTime
  = if present (check_time late startTime n)
    then match race late_race getExtensionId_call timeout with
         | Ok extensionId => Some (Ok (ExtensionClientImpl extensionId))
         | Rejected error =>
             if is_ExtensionTimeoutError error then Some (Rejected error)
             else Some (Rejected (ExtensionTimeoutError timeout))
         end
    else Some (Rejected (ExtensionNotFoundError timeout)).
Proof.
  intros timeout Hwait Hstop. unfold loadExtensionClient. fold timeout.
  change startTime with (check_time late startTime 0) at 2.
  rewrite (checkExtension_stops timeout startTime (checks timeout) 0 n).
  - now destruct (present (check_time late startTime n)).
  - lia.
  - pose proof (waiting_bound timeout startTime n (fun i Hi => proj2 (Hwait i Hi))). lia.
  - intros i Hi. apply Hwait. lia.
  - exact Hstop.
Qed.

Lemma setTimeout_delay_in_range (timeout : Z) :
  0 <= timeout < 2 ^ 31 -> setTimeout_delay timeout = timeout.
Proof.
  intros H. unfold setTimeout_delay.
  change (2 ^ 31) with 2147483648 in *. change (2 ^ 32) with 4294967296.
  rewrite Z.mod_small by lia. lia.
Qed.

Lemma num_to_string_decimal (n : Z) : Z.abs n < 2 ^ 53 -> num_to_string n = pretty n.
Proof.
  intros H. unfold num_to_string, nearest_Number, Number_toString.
  change (2 ^ 53) with 9007199254740992 in *.
  change (10 ^ 21) with 1000000000000000000000.
  destruct (Z.ltb_spec (Z.abs n) 9007199254740992) as [_|Hge]; [|lia].
  destruct (Z.ltb_spec (Z.abs n) 1000000000000000000000) as [_|Hge]; [|lia].
  destruct n as [|p|p]; reflexivity.
Qed.

(** C8, as the code has it.  [loadExtensionClient] looks for
    [window.bodhiext] at once and then every 100 ms (a timer may be late,
    never early), and each check looks for the object before it looks at the
    clock.  The checks go on until the first one at which the object is there
    or the timeout has elapsed; there is always such a check.  If the object
    is not there at that check, the call rejects with an
    [ExtensionNotFoundError] that carries the timeout.  If it is there, be it
    at a check made after the timeout has elapsed, the identifier is raced
    against a timer set anew, whose delay is the timeout when that lies
    between 0 and 2^31 - 1 ms (the delay of a timer is a 32-bit integer):
    the identifier in time gives the client; the timer first, a rejection or
    a throw for whatever reason all give an [ExtensionTimeoutError].  The
    call always settles. *)
Theorem loadExtensionClient_spec (config_timeout : option Z) (startTime : Z) :
  let timeout := default 10000 config_timeout in
  let call := loadExtensionClient present late late_race getExtensionId_call
                config_timeout startTime in
  let at_check := check_time late startTime in
  let waiting (n : nat) :=
    forall i, (i < n)%nat ->
      present (at_check i) = false /\ at_check i - startTime < timeout in
  (exists r, call = Some r)
  /\ at_check 0%nat = startTime
  /\ (forall k, at_check (S k) = at_check k + 100 + Z.of_N (late k))
  /\ ((forall i, late i = 0%N) -> forall k, at_check k = startTime + 100 * Z.of_nat k)
  /\ (exists n, (n < checks timeout)%nat /\ waiting n
                /\ (present (at_check n) = true \/ timeout <= at_check n - startTime))
  /\ (forall n, waiting n -> present (at_check n) = false ->
        timeout <= at_check n - startTime ->
        call = Some (Rejected (ExtensionNotFoundError timeout)))
  /\ ((forall k, present (at_check k) = false) ->
      call = Some (Rejected (ExtensionNotFoundError timeout)))
  /\ contains (message (ExtensionNotFoundError timeout)) (num_to_string timeout)
  /\ (Z.abs timeout < 2 ^ 53 ->
      message (ExtensionNotFoundError timeout)
      = "Bodhi extension not detected within " +:+ pretty timeout +:+ "ms")
  /\ (call = Some (Rejected (ExtensionNotFoundError timeout)) ->
      exists n, waiting n /\ present (at_check n) = false
                /\ timeout <= at_check n - startTime)
  /\ (0 <= timeout < 2 ^ 31 -> setTimeout_delay timeout = timeout)
  /\ (forall n, waiting n -> present (at_check n) = true ->
      (forall e, call = Some (Rejected e) -> is_ExtensionTimeoutError e = true)
      /\ (forall after extensionId,
            getExtensionId_call = IdSettles after (Ok extensionId) ->
            after <= setTimeout_delay timeout + Z.of_N late_race ->
            call = Some (Ok (ExtensionClientImpl extensionId)))
      /\ (forall after o,
            getExtensionId_call = IdSettles after o ->
            setTimeout_delay timeout + Z.of_N late_race < after ->
            call = Some (Rejected (ExtensionTimeoutError timeout)))
      /\ (getExtensionId_call = IdHangs ->
          call = Some (Rejected (ExtensionTimeoutError timeout)))
      /\ (forall after e,
            getExtensionId_call = IdSettles after (Rejected e) ->
            after <= setTimeout_delay timeout + Z.of_N late_race ->
            call = Some (Rejected (if is_ExtensionTimeoutError e then e
                                   else ExtensionTimeoutError timeout)))
      /\ (forall e,
            getExtensionId_call = IdThrows e ->
            call = Some (Rejected (if is_ExtensionTimeoutError e then e
                                   else ExtensionTimeoutError timeout)))).
Proof.
  intros timeout call at_check waiting.
  destruct (checkExtension_total timeout startTime) as [b Hb].
  destruct (checkExtension_trace timeout startTime (checks timeout) 0 b Hb)
    as (n0 & _ & Hfuel0 & Hwait0 & Hp0 & He0).
  assert (Hw0 : waiting n0) by (intros i Hi; apply Hwait0; lia).
  assert (Hstop0 : present (at_check n0) = true \/ timeout <= at_check n0 - startTime).
  { destruct b; [now left | right; now apply He0]. }
  pose proof (loadExtensionClient_at config_timeout startTime n0 Hw0 Hstop0) as Hcall0.
  fold timeout call in Hcall0.
  assert (Hgive : forall n, waiting n -> present (at_check n) = false ->
                    timeout <= at_check n - startTime ->
                    call = Some (Rejected (ExtensionNotFoundError timeout))).
  { intros n Hw Hp He. subst call.
    rewrite (loadExtensionClient_at config_timeout startTime n Hw (or_intror He)).
    fold at_check. now rewrite Hp. }
  split; [|split; [|split; [|split; [|split; [|split; [|split; [|split;
    [|split; [|split; [|split]]]]]]]]]].
  - rewrite Hcall0. destruct (present (check_time late startTime n0)); [|now eexists].
    destruct (race late_race getExtensionId_call timeout) as [x|e]; [now eexists|].
    destruct (is_ExtensionTimeoutError e); now eexists.
  - reflexivity.
  - reflexivity.
  - intros Hp k. now apply check_time_punctual.
  - exists n0. split; [lia|]. now split.
  - exact Hgive.
  - intros Habs. apply (Hgive n0 Hw0 (Habs n0)).
    destruct Hstop0 as [Hp|He]; [|exact He]. now rewrite Habs in Hp.
  - exists "Bodhi extension not detected within ", "ms". reflexivity.
  - intros Hsmall. cbn [message]. now rewrite num_to_string_decimal.
  - intros Hnf. exists n0. split; [exact Hw0|].
    rewrite Hcall0 in Hnf. fold at_check in Hnf.
    destruct (present (at_check n0)) eqn:Hp.
    + exfalso.
      destruct (race late_race getExtensionId_call timeout) as [x|e]; [discriminate|].
      destruct (is_ExtensionTimeoutError e) eqn:He; [|discriminate].
      injection Hnf as ->. discriminate.
    + split; [reflexivity|]. destruct Hstop0 as [Hp'|He]; [congruence | exact He].
  - apply setTimeout_delay_in_range.
  - intros n Hw Hp.
    assert (Hcall : call = match race late_race getExtensionId_call timeout with
                           | Ok extensionId => Some (Ok (ExtensionClientImpl extensionId))
                           | Rejected error =>
                               if is_ExtensionTimeoutError error
                               then Some (Rejected error)
                               else Some (Rejected (ExtensionTimeoutError timeout))
                           end).
    { subst call.
      rewrite (loadExtensionClient_at config_timeout startTime n Hw (or_introl Hp)).
      fold at_check. now rewrite Hp. }
    split; [|split; [|split; [|split; [|split]]]].
    + intros e He. rewrite Hcall in He.
      destruct (race late_race getExtensionId_call timeout) as [x|e0]; [discriminate|].
      destruct (is_ExtensionTimeoutError e0) eqn:Hkind; injection He as <-;
        [exact Hkind | reflexivity].
    + intros after extensionId Hid Hle. rewrite Hcall. unfold race. rewrite Hid.
      destruct (Z.leb_spec after (setTimeout_delay timeout + Z.of_N late_race));
        [reflexivity|lia].
    + intros after o Hid Hgt. rewrite Hcall. unfold race. rewrite Hid.
      destruct (Z.leb_spec after (setTimeout_delay timeout + Z.of_N late_race));
        [lia|reflexivity].
    + intros Hid. rewrite Hcall. unfold race. now rewrite Hid.
    + intros after e Hid Hle. rewrite Hcall. unfold race. rewrite Hid.
      destruct (Z.leb_spec after (setTimeout_delay timeout + Z.of_N late_race)); [|lia].
      now destruct (is_ExtensionTimeoutError e).
    + intros e Hid. rewrite Hcall. unfold race. rewrite Hid.
      now destruct (is_ExtensionTimeoutError e).
Qed.

End DetectionFacts.

(** ** [fetchUserInfo] *)

Lemma or_default_absent (d : string) : or_default None d = d.
Proof. reflexivity. Qed.

Lemma or_default_present (v d : string) : v <> EmptyString -> or_default (Some v) d = v.
Proof. intros H. unfold or_default. cbn [truthy]. now rewrite (str_truthy_ne _ H). Qed.

(** C9. [fetchUserInfo] fails when no access token is persisted.  Otherwise
    it sends a GET to [/bodhi/v1/user] with the header
    'Authorization: Bearer <token>'; when the bridge answers, it persists and
    returns a [UserInfo] whose role is the [role] of the answer, 'user' by
    default, whose email is the [email] of the answer, 'Unknown' when it is
    absent, with token type 'Bearer' and [loggedIn] true. *)
Theorem fetchUserInfo_spec (extensionClient : ExtensionClient) (w : World) :
  (truthy (getAccessToken w) = false ->
   fetchUserInfo extensionClient w = (w, Rejected (Error "No access token available")))
  /\ (forall accessToken response,
        getAccessToken w = Some accessToken -> accessToken <> EmptyString ->
        let request :=
          {| api_method := "GET";
             api_endpoint := "/bodhi/v1/user";
             api_body := None;
             api_headers := Some [("Authorization", "Bearer " +:+ accessToken)] |} in
        sendApiRequest extensionClient request = Ok response ->
        exists userInfo w',
          fetchUserInfo extensionClient w = (w', Ok userInfo)
          /\ sent w' = sent w ++ [request]
          /\ getUserInfo w' = UserInfo_value userInfo
          /\ role userInfo = or_default (body response !! "role") "user"
          /\ email userInfo = or_default (body response !! "email") "Unknown"
          /\ (body response !! "role" = None -> role userInfo = "user")
          /\ (body response !! "email" = None -> email userInfo = "Unknown")
          /\ (forall r, body response !! "role" = Some r -> r <> EmptyString ->
                role userInfo = r)
          /\ (forall e, body response !! "email" = Some e -> e <> EmptyString ->
                email userInfo = e)
          /\ tokenType userInfo = "Bearer"
          /\ loggedIn userInfo = true).
Proof.
  split.
  - intros Hnone. unfold fetchUserInfo. now rewrite Hnone.
  - intros accessToken response Htok Hne request Hsend.
    unfold fetchUserInfo. rewrite Htok. cbn [truthy].
    rewrite (str_truthy_ne _ Hne). cbn [negb default from_option]. unfold id.
    fold request. rewrite Hsend.
    eexists _, _. split; [reflexivity|].
    split; [reflexivity|]. split; [apply getUserInfo_stored|].
    cbn [role email tokenType loggedIn].
    repeat split.
    + now intros ->.
    + now intros ->.
    + intros r -> Hr. now apply or_default_present.
    + intros e -> He. now apply or_default_present.
Qed.

(** When the bridge fails, the failure is wrapped and nothing is persisted. *)
Lemma fetchUserInfo_bridge_fails
    (extensionClient : ExtensionClient) (w : World) (accessToken : string) (e : exn) :
  getAccessToken w = Some accessToken -> accessToken <> EmptyString ->
  (forall request, sendApiRequest extensionClient request = Rejected e) ->
  snd (fetchUserInfo extensionClient w)
  = Rejected (Error ("Failed to fetch user info: " +:+ describe e))
  /\ localStorage (fst (fetchUserInfo extensionClient w)) = localStorage w.
Proof.
  intros Htok Hne Hfail. unfold fetchUserInfo. rewrite Htok. cbn [truthy].
  rewrite (str_truthy_ne _ Hne). cbn [negb]. now rewrite Hfail.
Qed.

(** ** Worked cases *)


(** Where C8 fails as it is stated.  With a timeout of 250 ms and punctual
    timers the checks are at 0, 100, 200 and 300 ms.  An object that appears
    at 260 ms was never there before the timeout elapsed, and yet the check
    at 300 ms finds it: the call gives the client, not the
    [ExtensionNotFoundError]. *)
Lemma late_arrival_is_detected :
  (forall t, t < 0 + 250 -> (260 <=? t) = false)
  /\ loadExtensionClient (fun t => 260 <=? t) (fun _ => 0%N) 0%N
       (IdSettles 5 (Ok "ext-1")) (Some 250) 0
     = Some (Ok (ExtensionClientImpl "ext-1"))
  /\ loadExtensionClient (fun t => 260 <=? t) (fun _ => 0%N) 0%N
       (IdSettles 5 (Ok "ext-1")) (Some 250) 0
     <> Some (Rejected (ExtensionNotFoundError 250)).
Proof.
  split; [intros t Ht; apply Z.leb_gt; lia|].
  split; [reflexivity | discriminate].
Qed.

(** A page where the extension shows up 250 ms after the call, with
    punctual timers, and never answers. *)
Lemma loadExtensionClient_spec_witness :
  loadExtensionClient (fun t => 250 <=? t) (fun _ => 0%N) 0%N IdHangs (Some 1000) 0
  = Some (Rejected (ExtensionTimeoutError 1000)).
Proof.
  destruct (loadExtensionClient_spec (fun t => 250 <=? t) (fun _ => 0%N) 0%N IdHangs
              (Some 1000) 0) as (_ & _ & _ & _ & _ & _ & _ & _ & _ & _ & _ & Hdet).
  assert (Hwait : forall i, (i < 3)%nat ->
            (250 <=? check_time (fun _ => 0%N) 0 i) = false
            /\ check_time (fun _ => 0%N) 0 i - 0 < default 10000 (Some 1000)).
  { intros [|[|[|i]]] Hi; [split; reflexivity ..|lia]. }
  destruct (Hdet 3%nat Hwait eq_refl) as (_ & _ & _ & Hhang & _).
  exact (Hhang eq_refl).
Defined.

Lemma fetchUserInfo_spec_witness :
  exists userInfo w',
    fetchUserInfo Sample.bridge
      (with_storage (setItem STORAGE_KEYS.ACCESS_TOKEN "at-1") fresh)
    = (w', Ok userInfo)
    /\ email userInfo = "a@b.c" /\ role userInfo = "user"
    /\ getUserInfo w' = UserInfo_value userInfo.
Proof.
  destruct (proj2 (fetchUserInfo_spec Sample.bridge
                     (with_storage (setItem STORAGE_KEYS.ACCESS_TOKEN "at-1") fresh))
              "at-1" _ eq_refl ltac:(discriminate) eq_refl)
    as (u & w' & Hcall & _ & Hget & _ & _ & Hrole & _ & _ & Hemail & _).
  exists u, w'. repeat split; [exact Hcall | | | exact Hget].
  - now apply (Hemail "a@b.c").
  - now apply Hrole.
Defined.

(** * Further properties of the code *)

(** ** [requestResourceAccess] *)

(** The one request [requestResourceAccess] makes. *)
Lemma requestResourceAccess_sent (c : ExtensionClient) (w : World) :
  sent (fst (requestResourceAccess c w))
  = sent w ++ [{| api_method := "POST";
                  api_endpoint := "/bodhi/v1/auth/request-access";
                  api_body :=
                    Some (JSON.JObject [("app_client_id", JSON.JString APP_CLIENT_ID)]);
                  api_headers := None |}].
Proof.
  unfold requestResourceAccess.
  destruct (sendApiRequest c _) as [response|e]; [|reflexivity].
  destruct (negb (truthy (body response !! "scope"))); reflexivity.
Qed.

(** X1. When [requestResourceAccess] resolves, the scope it returns is not
    empty and is the one now persisted; every other entry of the storage is
    as before, and exactly one request went to the bridge: a POST to
    [/bodhi/v1/auth/request-access] carrying the application's client id. *)
Theorem requestResourceAccess_resolves (c : ExtensionClient) (w : World) (scope : string) :
  snd (requestResourceAccess c w) = Ok scope ->
  scope <> EmptyString
  /\ getItem STORAGE_KEYS.RESOURCE_SCOPE (localStorage (fst (requestResourceAccess c w)))
     = Some scope
  /\ (forall k, k <> STORAGE_KEYS.RESOURCE_SCOPE ->
        getItem k (localStorage (fst (requestResourceAccess c w)))
        = getItem k (localStorage w))
  /\ sent (fst (requestResourceAccess c w))
     = sent w ++ [{| api_method := "POST";
                     api_endpoint := "/bodhi/v1/auth/request-access";
                     api_body :=
                       Some (JSON.JObject
                               [("app_client_id", JSON.JString APP_CLIENT_ID)]);
                     api_headers := None |}].
Proof.
  intros Hok. destruct (requestResourceAccess_scope c w scope Hok) as [Hne Hget].
  split; [exact Hne|]. split; [exact Hget|]. split; [|apply requestResourceAccess_sent].
  intros k Hk. revert Hok. unfold requestResourceAccess.
  destruct (sendApiRequest c _) as [response|e]; [|discriminate].
  destruct (negb (truthy (body response !! "scope"))); [discriminate|].
  intros _. cbn [fst localStorage with_storage do_send].
  apply getItem_setItem_ne. congruence.
Qed.

Lemma requestResourceAccess_resolves_witness :
  snd (requestResourceAccess Sample.bridge fresh) = Ok "scope_resource_x"
  /\ getItem STORAGE_KEYS.RESOURCE_SCOPE
       (localStorage (fst (requestResourceAccess Sample.bridge fresh)))
     = Some "scope_resource_x".
Proof.
  split; [reflexivity|].
  exact (proj1 (proj2 (requestResourceAccess_resolves Sample.bridge fresh
                         "scope_resource_x" eq_refl))).
Defined.

(** X2. When [requestResourceAccess] rejects, whatever the reason (the
    bridge failed, the extension is gone, or the answer holds no scope),
    the error is a plain [Error] whose message starts with 'Failed to
    request resource access: ', and the storage is as it was. *)
Theorem requestResourceAccess_rejects (c : ExtensionClient) (w : World) (e : exn) :
  snd (requestResourceAccess c w) = Rejected e ->
  (exists reason, e = Error ("Failed to request resource access: " +:+ reason))
  /\ localStorage (fst (requestResourceAccess c w)) = localStorage w.
Proof.
  unfold requestResourceAccess.
  destruct (sendApiRequest c _) as [response|e0].
  - destruct (negb (truthy (body response !! "scope"))); [|discriminate].
    intros [= <-]. split; [now eexists | reflexivity].
  - intros [= <-]. split; [now eexists | reflexivity].
Qed.

(** A page that has lost [window.bodhiext]. *)
Lemma requestResourceAccess_rejects_witness :
  (exists reason,
     Error "Failed to request resource access: Bodhi extension not available"
     = Error ("Failed to request resource access: " +:+ reason))
  /\ localStorage (fst (requestResourceAccess (ExtensionClientImpl "ext-1" None)
                          Sample.ready))
     = localStorage Sample.ready.
Proof.
  exact (requestResourceAccess_rejects (ExtensionClientImpl "ext-1" None) Sample.ready
           _ eq_refl).
Defined.

(** ** More on the code exchange *)

Section ExchangeMore.

Variable origin : string.
Variable fetch : FetchRequest -> result Response.

Lemma after_success_authenticated tokenData request w :
  truthy (access_token tokenData) = true ->
  isAuthenticated (after_success tokenData request w) = true.
Proof.
  intros Hacc. unfold isAuthenticated, getAccessToken, after_success.
  cbn [localStorage set_exchanging with_storage].
  rewrite !getItem_removeItem_ne by discriminate.
  destruct (truthy (refresh_token tokenData));
    cbn [localStorage with_storage do_fetch set_exchanging].
  - rewrite getItem_setItem_ne by discriminate. rewrite getItem_setItem.
    destruct (access_token tokenData); [exact Hacc | discriminate].
  - rewrite getItem_setItem.
    destruct (access_token tokenData); [exact Hacc | discriminate].
Qed.

(** The call run on its own ends in one of the five outcomes. *)
Lemma exchangeCodeForTokens_outcome (code state : string) (w : World) :
  exists w' r,
    exchangeCodeForTokens origin fetch code state w = (w', Settled r)
    /\ Outcome origin fetch code state w w' r.
Proof.
  destruct (isAuthenticated w) eqn:Hauth.
  { exists w, (Ok tt). split; [|now constructor; left].
    unfold exchangeCodeForTokens. now rewrite exchange_enter_guarded by now left. }
  destruct (isExchangingTokens w) eqn:Hflag.
  { exists w, (Ok tt). split; [|now constructor; right].
    unfold exchangeCodeForTokens. now rewrite exchange_enter_guarded by now right. }
  destruct (negb (truthy (getItem STORAGE_KEYS.STATE (localStorage w)))
            || strict_ne (getItem STORAGE_KEYS.STATE (localStorage w)) state) eqn:Hbad.
  { exists w, (Rejected (Error "Invalid state parameter")).
    split; [|now apply InvalidState].
    unfold exchangeCodeForTokens, exchange_enter. rewrite Hauth, Hflag.
    cbn [localStorage set_exchanging]. rewrite Hbad. cbn [finally_release continue].
    now rewrite set_exchanging_twice, <- Hflag, set_exchanging_same. }
  apply orb_false_iff in Hbad as [Htruthy Hsame].
  apply negb_false_iff in Htruthy.
  destruct (getItem STORAGE_KEYS.STATE (localStorage w)) as [stored|] eqn:Hstate;
    [|discriminate].
  assert (stored = state) as ->.
  { unfold strict_ne in Hsame. apply negb_false_iff in Hsame.
    now apply String.eqb_eq. }
  assert (Hne : state <> EmptyString) by (intros ->; discriminate).
  destruct (truthy (getItem STORAGE_KEYS.CODE_VERIFIER (localStorage w))) eqn:Hver.
  2:{ exists w, (Rejected (Error "Code verifier not found")).
      split; [|now apply NoVerifier].
      unfold exchangeCodeForTokens, exchange_enter. rewrite Hauth, Hflag.
      cbn [localStorage set_exchanging]. rewrite Hstate, Hver. cbn [truthy].
      rewrite (str_truthy_ne _ Hne), strict_ne_same.
      cbn [negb orb finally_release continue].
      now rewrite set_exchanging_twice, <- Hflag, set_exchanging_same. }
  destruct (getItem STORAGE_KEYS.CODE_VERIFIER (localStorage w)) as [codeVerifier|]
    eqn:Hcv; [|discriminate].
  assert (Hvne : codeVerifier <> EmptyString) by (intros ->; discriminate).
  unfold exchangeCodeForTokens.
  rewrite (exchange_enter_fetches origin code state codeVerifier) by assumption.
  cbn [continue resume]. unfold exchange_after_fetch.
  destruct (fetch (token_request origin code codeVerifier)) as [response|e] eqn:Hfetch.
  2:{ cbn [finally_release continue]. rewrite release_after_fetch by assumption.
      eexists _, _. split; [reflexivity|].
      apply (Fetched origin fetch code state w codeVerifier); try assumption.
      now rewrite Hfetch. }
  destruct (ok response) eqn:Hok; cbn [negb finally_release continue resume].
  - unfold exchange_after_json.
    destruct (json response) as [tokenData|e] eqn:Hjson.
    + destruct (truthy (access_token tokenData)) eqn:Hacc; cbn [negb finally_release].
      * eexists _, _. split; [reflexivity|].
        now apply (Exchanged origin fetch code state w codeVerifier response tokenData).
      * rewrite release_after_fetch by assumption.
        eexists _, _. split; [reflexivity|].
        apply (Fetched origin fetch code state w codeVerifier); try assumption.
        now rewrite Hfetch, Hok, Hjson.
    + cbn [finally_release]. rewrite release_after_fetch by assumption.
      eexists _, _. split; [reflexivity|].
      apply (Fetched origin fetch code state w codeVerifier); try assumption.
      now rewrite Hfetch, Hok, Hjson.
  - unfold exchange_after_text.
    destruct (text response) as [errorText|e] eqn:Htext;
      cbn [finally_release]; rewrite release_after_fetch by assumption;
      eexists _, _; (split; [reflexivity|]);
      apply (Fetched origin fetch code state w codeVerifier); try assumption;
      now rewrite Hfetch, Hok, Htext.
Qed.

(** X3. With a matching state but no code verifier in the storage (the
    entry is missing or empty), the call rejects with 'Code verifier not
    found' and leaves the world as it was: nothing is sent. *)
Theorem exchange_missing_verifier (code state : string) (w : World) :
  isAuthenticated w = false -> isExchangingTokens w = false ->
  getItem STORAGE_KEYS.STATE (localStorage w) = Some state -> state <> EmptyString ->
  truthy (getItem STORAGE_KEYS.CODE_VERIFIER (localStorage w)) = false ->
  exchangeCodeForTokens origin fetch code state w
  = (w, Settled (Rejected (Error "Code verifier not found"))).
Proof.
  intros Hauth Hflag Hstate Hne Hver.
  unfold exchangeCodeForTokens, exchange_enter. rewrite Hauth, Hflag.
  cbn [localStorage set_exchanging]. rewrite Hstate, Hver. cbn [truthy].
  rewrite (str_truthy_ne _ Hne), strict_ne_same.
  cbn [negb orb finally_release continue].
  now rewrite set_exchanging_twice, <- Hflag, set_exchanging_same.
Qed.

(** X4. When the token endpoint answers with a success status but the body
    holds no access token, the call rejects with 'No access token
    received'.  The storage is as it was: the state and the code verifier
    are still there, and the flag is down again. *)
Theorem exchange_no_access_token
    (code state codeVerifier : string) (response : Response)
    (tokenData : TokenResponse) (w : World) :
  isAuthenticated w = false -> isExchangingTokens w = false ->
  getItem STORAGE_KEYS.STATE (localStorage w) = Some state -> state <> EmptyString ->
  getItem STORAGE_KEYS.CODE_VERIFIER (localStorage w) = Some codeVerifier ->
  codeVerifier <> EmptyString ->
  fetch (token_request origin code codeVerifier) = Ok response ->
  ok response = true ->
  json response = Ok tokenData ->
  truthy (access_token tokenData) = false ->
  exchangeCodeForTokens origin fetch code state w
  = (do_fetch (token_request origin code codeVerifier) w,
     Settled (Rejected (Error "No access token received"))).
Proof.
  intros Hauth Hflag Hstate Hne Hver Hvne Hfetch Hok Hjson Hacc.
  unfold exchangeCodeForTokens.
  rewrite (exchange_enter_fetches origin code state codeVerifier) by assumption.
  cbn [continue resume]. unfold exchange_after_fetch. rewrite Hfetch, Hok.
  cbn [negb finally_release continue resume].
  unfold exchange_after_json. rewrite Hjson, Hacc. cbn [negb finally_release].
  now rewrite release_after_fetch.
Qed.

(** X5. An error of the network is passed on as it is: when the [fetch]
    itself rejects, or when reading the body of a success answer as JSON
    rejects, the call rejects with that very error, not wrapped; one request
    was made and the storage is as it was. *)
Theorem exchange_passes_network_errors
    (code state codeVerifier : string) (e : exn) (w : World) :
  isAuthenticated w = false -> isExchangingTokens w = false ->
  getItem STORAGE_KEYS.STATE (localStorage w) = Some state -> state <> EmptyString ->
  getItem STORAGE_KEYS.CODE_VERIFIER (localStorage w) = Some codeVerifier ->
  codeVerifier <> EmptyString ->
  fetch (token_request origin code codeVerifier) = Rejected e
  \/ (exists response,
        fetch (token_request origin code codeVerifier) = Ok response
        /\ ok response = true /\ json response = Rejected e) ->
  exchangeCodeForTokens origin fetch code state w
  = (do_fetch (token_request origin code codeVerifier) w, Settled (Rejected e)).
Proof.
  intros Hauth Hflag Hstate Hne Hver Hvne Hnet.
  unfold exchangeCodeForTokens.
  rewrite (exchange_enter_fetches origin code state codeVerifier) by assumption.
  cbn [continue resume]. unfold exchange_after_fetch.
  destruct Hnet as [Hfetch|(response & Hfetch & Hok & Hjson)]; rewrite Hfetch.
  - cbn [finally_release continue]. now rewrite release_after_fetch.
  - rewrite Hok. cbn [negb finally_release continue resume].
    unfold exchange_after_json. rewrite Hjson. cbn [finally_release].
    now rewrite release_after_fetch.
Qed.

Lemma exchange_summary (code state : string) (w : World) :
  exists w' r,
    exchangeCodeForTokens origin fetch code state w = (w', Settled r)
    /\ match r with
       | Rejected _ => localStorage w' = localStorage w
       | Ok _ => isAuthenticated w' = true \/ (isExchangingTokens w = true /\ w' = w)
       end
    /\ (fetched w' = fetched w \/ exists request, fetched w' = fetched w ++ [request])
    /\ sent w' = sent w
    /\ isExchangingTokens w' = isExchangingTokens w.
Proof.
  destruct (exchangeCodeForTokens_outcome code state w) as (w' & r & Hcall & Hout).
  exists w', r. split; [exact Hcall|].
  destruct Hout as [Hguard| | |codeVerifier r ? Hflag ? ? ? ? Hr
                    |codeVerifier response tokenData ? Hflag ? ? ? ? ? ? ? Hacc].
  - repeat split; auto. destruct Hguard as [H|H]; auto.
  - repeat split; auto.
  - repeat split; auto.
  - split; [|split; [right; now eexists | split; [reflexivity | now rewrite Hflag]]].
    destruct r as [[]|e]; [|reflexivity]. exfalso.
    destruct (fetch _) as [response|e]; [|discriminate].
    destruct (ok response).
    + destruct (json response); [destruct Hr as [_ Hr]|]; discriminate.
    + destruct (text response); discriminate.
  - split; [left; now apply after_success_authenticated|].
    split; [right; eexists|split; [|now rewrite Hflag]];
      unfold after_success; now destruct (truthy (refresh_token tokenData)).
Qed.


(** The first segment either ends the call, leaving the world as it was,
    or makes the request and waits with the flag up. *)
Lemma exchange_enter_cases (code state : string) (w : World) :
  (exists r, exchange_enter origin code state w = (w, Settled r))
  \/ (isExchangingTokens w = false
      /\ exists request,
           exchange_enter origin code state w
           = (do_fetch request (set_exchanging true w), Suspended (AwaitFetch request))).
Proof.
  destruct (isAuthenticated w) eqn:Hauth.
  { left. exists (Ok tt). now rewrite exchange_enter_guarded by now left. }
  destruct (isExchangingTokens w) eqn:Hflag.
  { left. exists (Ok tt). now rewrite exchange_enter_guarded by now right. }
  unfold exchange_enter. rewrite Hauth, Hflag. cbn [localStorage set_exchanging].
  destruct (negb (truthy (getItem STORAGE_KEYS.STATE (localStorage w)))
            || strict_ne (getItem STORAGE_KEYS.STATE (localStorage w)) state).
  { left. eexists. cbn [finally_release].
    now rewrite set_exchanging_twice, <- Hflag, set_exchanging_same. }
  destruct (negb (truthy (getItem STORAGE_KEYS.CODE_VERIFIER (localStorage w)))).
  { left. eexists. cbn [finally_release].
    now rewrite set_exchanging_twice, <- Hflag, set_exchanging_same. }
  right. split; [reflexivity|]. eexists. reflexivity.
Qed.

(** After the answer of the [fetch] the call has either ended, and released
    the flag, or it waits for the body in the same world. *)
Lemma exchange_after_fetch_cases (arrival : result Response) (w : World) :
  (exists r, exchange_after_fetch arrival w = (set_exchanging false w, Settled r))
  \/ (exists s, exchange_after_fetch arrival w = (w, Suspended s)).
Proof.
  unfold exchange_after_fetch. destruct arrival as [response|e].
  - right. destruct (negb (ok response)); now eexists.
  - left. now eexists.
Qed.

(** X6. A call of [exchangeCodeForTokens], run with nothing in between,
    never leaves the storage half written, at whichever of its three stops
    it stands: after its first segment, after the answer of the [fetch],
    after the reading of the body.  Where it still waits, which it may do
    for ever since the [fetch] has no timeout, the storage is exactly as
    before, the flag is up and one token request has been made.  Where it
    has settled: if it rejected, the storage is exactly as before; if it
    resolved, an access token is persisted, unless it was a no-op because the
    flag was up; it has made at most one token request and has left the flag
    as it found it.  It sends nothing on the bridge. *)
Theorem exchange_all_or_nothing (code state : string) (w : World) :
  Forall (fun stop : World * Stage =>
            sent (fst stop) = sent w
            /\ match snd stop with
               | Suspended _ =>
                   localStorage (fst stop) = localStorage w
                   /\ isExchangingTokens w = false
                   /\ isExchangingTokens (fst stop) = true
                   /\ exists request, fetched (fst stop) = fetched w ++ [request]
               | Settled r =>
                   match r with
                   | Rejected _ => localStorage (fst stop) = localStorage w
                   | Ok _ => isAuthenticated (fst stop) = true
                             \/ (isExchangingTokens w = true /\ fst stop = w)
                   end
                   /\ (fetched (fst stop) = fetched w
                       \/ exists request, fetched (fst stop) = fetched w ++ [request])
                   /\ isExchangingTokens (fst stop) = isExchangingTokens w
               end)
    [exchange_enter origin code state w;
     continue fetch (exchange_enter origin code state w);
     continue fetch (continue fetch (exchange_enter origin code state w))].
Proof.
  destruct (exchange_summary code state w)
    as (w2 & r2 & Hcall & Hr & Hfetched & Hsent & Hflag2).
  unfold exchangeCodeForTokens in Hcall.
  assert (Hlast : sent w2 = sent w
                  /\ match r2 with
                     | Rejected _ => localStorage w2 = localStorage w
                     | Ok _ => isAuthenticated w2 = true
                               \/ (isExchangingTokens w = true /\ w2 = w)
                     end
                     /\ (fetched w2 = fetched w
                         \/ exists request, fetched w2 = fetched w ++ [request])
                     /\ isExchangingTokens w2 = isExchangingTokens w)
    by (repeat split; assumption).
  clear Hr Hfetched Hsent Hflag2.
  destruct (exchange_enter_cases code state w) as [[r H0]|(Hflag & request & H0)];
    rewrite H0 in *; cbn [continue resume] in *.
  - injection Hcall as <- <-.
    constructor; [exact Hlast|]. constructor; [exact Hlast|].
    constructor; [exact Hlast|constructor].
  - assert (Hwaits : sent (do_fetch request (set_exchanging true w)) = sent w
                     /\ localStorage (do_fetch request (set_exchanging true w))
                        = localStorage w
                     /\ isExchangingTokens w = false
                     /\ isExchangingTokens (do_fetch request (set_exchanging true w)) = true
                     /\ exists request0,
                          fetched (do_fetch request (set_exchanging true w))
                          = fetched w ++ [request0]).
    { repeat split; try assumption. now exists request. }
    destruct (exchange_after_fetch_cases (fetch request)
                (do_fetch request (set_exchanging true w))) as [[r H1]|[s H1]];
      rewrite H1 in *; cbn [continue] in *.
    + injection Hcall as <- <-.
      constructor; [exact Hwaits|]. constructor; [exact Hlast|].
      constructor; [exact Hlast|constructor].
    + constructor; [exact Hwaits|]. constructor; [exact Hwaits|].
      constructor; [|constructor]. rewrite Hcall. cbn [fst snd]. exact Hlast.
Qed.

(** X7. Once a call that started with the flag down has resolved, every
    later call, with whatever code and state, resolves at once and changes
    nothing: the token endpoint is not asked again. *)
Theorem exchange_resolved_then_noop (code state code' state' : string) (w w' : World) :
  isExchangingTokens w = false ->
  exchangeCodeForTokens origin fetch code state w = (w', Settled (Ok tt)) ->
  exchangeCodeForTokens origin fetch code' state' w' = (w', Settled (Ok tt)).
Proof.
  intros Hflag Hcall.
  destruct (exchange_summary code state w) as (w1 & r & Hcall1 & Hr & _).
  rewrite Hcall in Hcall1. injection Hcall1 as <- <-.
  destruct Hr as [Hauth|[Hup _]]; [|congruence].
  unfold exchangeCodeForTokens. now rewrite exchange_enter_guarded by now left.
Qed.

End ExchangeMore.

Lemma exchange_missing_verifier_witness :
  exchangeCodeForTokens Sample.origin Sample.offline "c1" "st"
    (with_storage (removeItem STORAGE_KEYS.CODE_VERIFIER) Sample.ready)
  = (with_storage (removeItem STORAGE_KEYS.CODE_VERIFIER) Sample.ready,
     Settled (Rejected (Error "Code verifier not found"))).
Proof.
  apply exchange_missing_verifier; try reflexivity. discriminate.
Defined.

Lemma exchange_no_access_token_witness :
  exchangeCodeForTokens Sample.origin
    (fun _ => Ok {| resp_status := 200;
                    text := Rejected (Error "body stream already read");
                    json := Ok {| access_token := None;
                                  token_type := "Bearer";
                                  expires_in := 300;
                                  refresh_token := Some "rt-1";
                                  scope := "openid" |} |})
    "c1" "st" Sample.ready
  = (do_fetch (token_request Sample.origin "c1" "ver") Sample.ready,
     Settled (Rejected (Error "No access token received"))).
Proof.
  eapply exchange_no_access_token; try reflexivity; discriminate.
Defined.

Lemma exchange_passes_network_errors_witness :
  exchangeCodeForTokens Sample.origin Sample.offline "c1" "st" Sample.ready
  = (do_fetch (token_request Sample.origin "c1" "ver") Sample.ready,
     Settled (Rejected (Error "Failed to fetch"))).
Proof.
  apply exchange_passes_network_errors; try reflexivity; try discriminate.
  now left.
Defined.

Lemma exchange_resolved_then_noop_witness :
  exchangeCodeForTokens Sample.origin (fun _ => Ok Sample.granted) "c2" "other"
    (fst (exchangeCodeForTokens Sample.origin (fun _ => Ok Sample.granted) "c1" "st"
            Sample.ready))
  = (fst (exchangeCodeForTokens Sample.origin (fun _ => Ok Sample.granted) "c1" "st"
            Sample.ready),
     Settled (Ok tt)).
Proof.
  apply (exchange_resolved_then_noop Sample.origin (fun _ => Ok Sample.granted)
           "c1" "st" "c2" "other" Sample.ready); reflexivity.
Defined.

(** ** From the authorization URL to the token request *)

Lemma falsy_or_nonempty (v : option string) :
  truthy v = true -> exists s, v = Some s /\ s <> EmptyString.
Proof.
  destruct v as [[|c s]|]; try discriminate. intros _. eexists. split; [reflexivity|].
  discriminate.
Qed.

Lemma nonempty_of_length (s : string) (n : nat) :
  String.length s = S n -> s <> EmptyString.
Proof. now destruct s. Qed.

(** What [buildAuthUrl] gives when a scope is stored. *)
Lemma buildAuthUrl_result (origin : string) (rng : Rng) (w : World) (resourceScope : string) :
  getItem STORAGE_KEYS.RESOURCE_SCOPE (localStorage w) = Some resourceScope ->
  resourceScope <> EmptyString ->
  let state := fst (PKCEUtils.generateRandomString 32 rng) in
  let rng1 := snd (PKCEUtils.generateRandomString 32 rng) in
  let codeVerifier := fst (PKCEUtils.generateRandomString 128 rng1) in
  buildAuthUrl origin rng w
  = (with_storage (setItem STORAGE_KEYS.CODE_VERIFIER codeVerifier)
       (with_storage (setItem STORAGE_KEYS.STATE state) w),
     Ok (BODHI_AUTH_URL +:+ "/realms/" +:+ AUTH_REALM
         +:+ "/protocol/openid-connect/auth?"
         +:+ URLSearchParams.toString
               [("response_type", "code");
                ("client_id", APP_CLIENT_ID);
                ("redirect_uri", REDIRECT_URI origin);
                ("scope", "openid email profile roles scope_user_user " +:+ resourceScope);
                ("state", state);
                ("code_challenge", PKCEUtils.generatePKCEChallenge codeVerifier);
                ("code_challenge_method", "S256")]),
     snd (PKCEUtils.generateRandomString 128 rng1)).
Proof.
  intros Hscope Hne state rng1 codeVerifier. subst state rng1 codeVerifier.
  unfold buildAuthUrl. rewrite Hscope. cbn [truthy].
  rewrite (str_truthy_ne _ Hne). cbn [negb].
  destruct (PKCEUtils.generateRandomString 32 rng) as [state rng1]. cbn [fst snd].
  destruct (PKCEUtils.generateRandomString 128 rng1) as [codeVerifier rng2].
  reflexivity.
Qed.

(** The state and the verifier the exchange will find after [buildAuthUrl]. *)
Lemma buildAuthUrl_binding (origin : string) (rng : Rng) (w w' : World)
    (url : string) (rng' : Rng) :
  buildAuthUrl origin rng w = (w', Ok url, rng') ->
  exists state codeVerifier,
    state <> EmptyString /\ codeVerifier <> EmptyString
    /\ getItem STORAGE_KEYS.STATE (localStorage w') = Some state
    /\ getItem STORAGE_KEYS.CODE_VERIFIER (localStorage w') = Some codeVerifier
    /\ getItem STORAGE_KEYS.ACCESS_TOKEN (localStorage w')
       = getItem STORAGE_KEYS.ACCESS_TOKEN (localStorage w)
    /\ isExchangingTokens w' = isExchangingTokens w
    /\ fetched w' = fetched w /\ sent w' = sent w
    /\ URLSearchParams.get "state" (searchParams url) = Some state
    /\ URLSearchParams.get "code_challenge" (searchParams url)
       = Some (PKCEUtils.generatePKCEChallenge codeVerifier)
    /\ URLSearchParams.get "redirect_uri" (searchParams url) = Some (REDIRECT_URI origin).
Proof.
  intros Hcall.
  destruct (truthy (getItem STORAGE_KEYS.RESOURCE_SCOPE (localStorage w))) eqn:Hscope.
  2:{ unfold buildAuthUrl in Hcall. rewrite Hscope in Hcall. discriminate. }
  destruct (falsy_or_nonempty _ Hscope) as (resourceScope & Hget & Hne).
  rewrite (buildAuthUrl_result origin rng w resourceScope Hget Hne) in Hcall.
  pose proof (f_equal (fun p => fst (fst p)) Hcall) as Hw.
  pose proof (f_equal (fun p => snd (fst p)) Hcall) as Hurl.
  cbv beta in Hw, Hurl. cbn [fst snd] in Hw, Hurl. clear Hcall.
  assert (Hu : url = BODHI_AUTH_URL +:+ "/realms/" +:+ AUTH_REALM
                     +:+ "/protocol/openid-connect/auth?"
                     +:+ URLSearchParams.toString
                           [("response_type", "code");
                            ("client_id", APP_CLIENT_ID);
                            ("redirect_uri", REDIRECT_URI origin);
                            ("scope", "openid email profile roles scope_user_user "
                                      +:+ resourceScope);
                            ("state", fst (PKCEUtils.generateRandomString 32 rng));
                            ("code_challenge",
                             PKCEUtils.generatePKCEChallenge
                               (fst (PKCEUtils.generateRandomString 128
                                       (snd (PKCEUtils.generateRandomString 32 rng)))));
                            ("code_challenge_method", "S256")])
    by congruence.
  subst w' url. clear Hurl.
  exists (fst (PKCEUtils.generateRandomString 32 rng)).
  exists (fst (PKCEUtils.generateRandomString 128
                 (snd (PKCEUtils.generateRandomString 32 rng)))).
  rewrite searchParams_auth. cbn [localStorage with_storage isExchangingTokens fetched sent].
  split; [apply (nonempty_of_length _ 31), generateRandomString_length|].
  split; [apply (nonempty_of_length _ 127), generateRandomString_length|].
  rewrite (getItem_setItem_ne STORAGE_KEYS.CODE_VERIFIER STORAGE_KEYS.STATE)
    by discriminate.
  rewrite !getItem_setItem.
  rewrite !getItem_setItem_ne by discriminate.
  repeat split.
Qed.




(** ** PKCE: the size of the challenge, the letters of the random strings *)

Lemma be_bytes_length (n : nat) (x : Z) : length (SHA256.be_bytes n x) = n.
Proof. unfold SHA256.be_bytes. now rewrite length_map, length_rev, length_seq. Qed.

Lemma digest_length (data : list ascii) : length (SHA256.digest data) = 32%nat.
Proof.
  unfold SHA256.digest, SHA256.output.
  rewrite length_map, !length_app, !be_bytes_length. reflexivity.
Qed.

Lemma base64url_nopad_length_le (n : nat) : forall bytes : list ascii,
  (length bytes <= n)%nat ->
  String.length (Base64.base64url_nopad bytes) = ((4 * length bytes + 2) / 3)%nat.
Proof.
  induction n as [n IH] using lt_wf_ind. intros bytes Hlen.
  destruct bytes as [|a [|b [|c rest]]]; try reflexivity.
  cbn [Base64.base64url_nopad String.length length].
  rewrite (IH (length rest)) by (cbn [length] in Hlen; lia).
  replace (4 * S (S (S (length rest))) + 2)%nat
    with (4 * length rest + 2 + 4 * 3)%nat by lia.
  rewrite Nat.div_add by lia. lia.
Qed.

(** X9. Whatever the verifier, the challenge is 43 characters long (the
    unpadded base64 of the 32 bytes of a SHA-256 digest), as RFC 7636 asks
    of an S256 challenge. *)
Theorem generatePKCEChallenge_length (V : string) :
  String.length (PKCEUtils.generatePKCEChallenge V) = 43%nat.
Proof.
  unfold PKCEUtils.generatePKCEChallenge.
  change (replace_all "=" EmptyString (replace_all "/" "_" (replace_all "+" "-" ?s)))
    with (url_replacements s).
  rewrite url_replacements_btoa.
  rewrite (base64url_nopad_length_le _ _ (Nat.le_refl _)), digest_length.
  reflexivity.
Qed.

(** X10. [generateRandomString] draws every lower-case letter, but not
    evenly: of the 256 values of a byte, ten give each of the letters [a] to
    [v] and nine give each of [w] to [z]. *)
Theorem generateRandomString_bias (c : ascii) :
  is_lower c = true ->
  length (List.filter (drawn_as c) all_bytes)
  = if (N_of_ascii c <? 119)%N then 10%nat else 9%nat.
Proof.
  destruct c as [[] [] [] [] [] [] [] []]; intros H;
    try (vm_compute in H; discriminate H); vm_compute; reflexivity.
Qed.

Lemma generateRandomString_bias_witness :
  length (List.filter (drawn_as "w") all_bytes) = 9%nat.
Proof. exact (generateRandomString_bias "w" eq_refl). Defined.

(** ** When the detection gives up *)

Section DetectionTimeFacts.

Variable present : Z -> bool.
Variable late : nat -> N.

Lemma checkExtension_when_answer (timeout startTime : Z) : forall (fuel k : nat) (t : Z),
  option_map fst (checkExtension_when present late timeout startTime fuel k t)
  = checkExtension present late timeout startTime fuel k t.
Proof.
  induction fuel as [|fuel IH]; intros k t; [reflexivity|].
  cbn [checkExtension_when checkExtension].
  destruct (present t); [reflexivity|].
  destruct (t - startTime >=? timeout); [reflexivity | apply IH].
Qed.

(** The polling stops at the first check that sees the object or the
    timeout; every check before it was made before the timeout. *)
Lemma checkExtension_when_first (timeout startTime : Z) :
  forall (fuel k : nat) (b : bool) (T : Z),
  checkExtension_when present late timeout startTime fuel k (check_time late startTime k)
  = Some (b, T) ->
  exists j, (k <= j)%nat /\ T = check_time late startTime j
    /\ (forall i, (k <= i < j)%nat -> check_time late startTime i - startTime < timeout)
    /\ (b = false -> timeout <= T - startTime).
Proof.
  induction fuel as [|fuel IH]; intros k b T; cbn [checkExtension_when]; [discriminate|].
  destruct (present (check_time late startTime k)).
  - intros [= <- <-]. exists k. repeat split; [lia | intros; lia | discriminate].
  - destruct (Z.geb_spec (check_time late startTime k - startTime) timeout) as [Hge|Hlt].
    + intros [= <- <-]. exists k. repeat split; [lia | intros; lia | intros; lia].
    + intros H. change (check_time late startTime k + 100 + Z.of_N (late k))
        with (check_time late startTime (S k)) in H.
      destruct (IH _ _ _ H) as (j & Hj & HT & Hbefore & Hb).
      exists j. repeat split; [lia | exact HT | | exact Hb].
      intros i Hi. destruct (Nat.eq_dec i k) as [->|Hne]; [exact Hlt|].
      apply Hbefore. lia.
Qed.

Lemma detection_gives_up_on_time_aux (timeout startTime : Z) :
  (forall i, late i = 0%N) ->
  (forall k, present (check_time late startTime k) = false) ->
  0 <= timeout ->
  exists T,
    checkExtension_when present late timeout startTime (checks timeout) 0 startTime
    = Some (false, T)
    /\ timeout <= T - startTime < timeout + 100
    /\ (T - startTime) mod 100 = 0.
Proof.
  intros Hpunctual Habsent Hpos.
  destruct (checkExtension_total present late timeout startTime) as [b Hb].
  rewrite <- checkExtension_when_answer in Hb.
  destruct (checkExtension_when present late timeout startTime (checks timeout) 0 startTime)
    as [[b' T]|] eqn:Hwhen; [|discriminate].
  cbn [option_map fst] in Hb. injection Hb as ->.
  destruct (checkExtension_when_first timeout startTime (checks timeout) 0 b T Hwhen)
    as (j & _ & HT & Hbefore & Hfalse).
  assert (b = false) as ->.
  { destruct b; [|reflexivity]. exfalso.
    apply (checkExtension_absent present late timeout startTime (checks timeout) Habsent).
    now rewrite <- checkExtension_when_answer, Hwhen. }
  exists T. split; [reflexivity|].
  rewrite HT, (check_time_punctual late startTime j Hpunctual) in *.
  specialize (Hfalse eq_refl).
  split; [split; [lia|]|].
  - destruct j as [|j]; [lia|].
    specialize (Hbefore j ltac:(lia)).
    rewrite (check_time_punctual late startTime j Hpunctual) in Hbefore. lia.
  - replace (startTime + 100 * Z.of_nat j - startTime) with (Z.of_nat j * 100) by lia.
    apply Z.mod_mul. lia.
Qed.

(** X11. On a page that never shows the extension, with punctual timers,
    the polling gives up at the first multiple of 100 ms that is not below
    the timeout: no earlier than the timeout, and less than 100 ms after
    it. *)
Theorem detection_gives_up_on_time (timeout startTime : Z) :
  (forall i, late i = 0%N) ->
  (forall k, present (check_time late startTime k) = false) ->
  0 <= timeout ->
  exists T,
    checkExtension_when present late timeout startTime (checks timeout) 0 startTime
    = Some (false, T)
    /\ timeout <= T - startTime < timeout + 100
    /\ (T - startTime) mod 100 = 0.
Proof. apply detection_gives_up_on_time_aux. Qed.

End DetectionTimeFacts.

Lemma detection_gives_up_on_time_witness :
  exists T,
    checkExtension_when (fun _ => false) (fun _ => 0%N) 250 1000 (checks 250) 0 1000
    = Some (false, T)
    /\ 250 <= T - 1000 < 250 + 100
    /\ (T - 1000) mod 100 = 0.
Proof.
  apply (detection_gives_up_on_time (fun _ => false) (fun _ => 0%N) 250 1000);
    [reflexivity | reflexivity | lia].
Defined.

(** ** [usePlatformDetection] and the status card *)

Section PlatformDetectionFacts.

Variable present : Z -> bool.
Variable late : nat -> N.
Variable late_race : N.
Variable getExtensionId_call : IdBehaviour.
Variable bodhiext : option (ApiRequest -> result ApiResponse).

(** How [loadExtensionClient] can settle. *)
Lemma loadExtensionClient_settles (config_timeout : option Z) (startTime : Z) :
  let timeout := default 10000 config_timeout in
  let call := loadExtensionClient present late late_race getExtensionId_call
                config_timeout startTime in
  (call = Some (Rejected (ExtensionNotFoundError timeout))
   /\ checkExtension present late timeout startTime (checks timeout) 0 startTime
      = Some false)
  \/ (checkExtension present late timeout startTime (checks timeout) 0 startTime
      = Some true
      /\ ((exists extensionId, call = Some (Ok (ExtensionClientImpl extensionId)))
          \/ (exists t, call = Some (Rejected (ExtensionTimeoutError t))))).
Proof.
  intros timeout call. subst call. unfold loadExtensionClient. fold timeout.
  destruct (checkExtension_total present late timeout startTime) as [b Hb].
  rewrite Hb. destruct b; cbn [negb]; [right | left; now split].
  split; [reflexivity|].
  destruct (race late_race getExtensionId_call timeout) as [extensionId|e];
    [left; now eexists|].
  right. destruct e as [m|t|t|r]; cbn [is_ExtensionTimeoutError]; now eexists.
Qed.

Lemma usePlatformDetection_absent_aux (startTime : Z) :
  (forall k, present (check_time late startTime k) = false) ->
  usePlatformDetection present late late_race getExtensionId_call bodhiext true startTime
  = Some {| PlatformDetectionState.status := PlatformDetectionStatus.error;
            PlatformDetectionState.client := None;
            PlatformDetectionState.extensionId := None;
            PlatformDetectionState.error :=
              Some "Bodhi extension not detected within 5000ms" |}.
Proof.
  intros Habsent. unfold usePlatformDetection.
  destruct (loadExtensionClient_settles (Some 5000) startTime) as [[Hcall _]|[Hdet _]].
  - rewrite Hcall. reflexivity.
  - exfalso. now apply (checkExtension_absent present late 5000 startTime
                          (checks 5000) Habsent).
Qed.

(** X12. On a page where the extension is at none of the checks, the
    detection hook (still mounted) ends in the state [error], without client
    and without extension id, with the message 'Bodhi extension not
    detected within 5000ms'. *)
Theorem usePlatformDetection_absent (startTime : Z) :
  (forall k, present (check_time late startTime k) = false) ->
  usePlatformDetection present late late_race getExtensionId_call bodhiext true startTime
  = Some {| PlatformDetectionState.status := PlatformDetectionStatus.error;
            PlatformDetectionState.client := None;
            PlatformDetectionState.extensionId := None;
            PlatformDetectionState.error :=
              Some "Bodhi extension not detected within 5000ms" |}.
Proof. apply usePlatformDetection_absent_aux. Qed.

(** X13. Whatever the page does, the detection hook comes to a state, and
    the status card has something definite to show for it.  Unmounted in
    the meantime, the hook keeps its first state and the card says
    'Detecting', without the retry button.  Otherwise the card says
    'Detected' and names the identifier of the client the hook holds, or it
    says 'Error' and shows one of the two messages of the extension
    client, never its own fallback text; the retry button is there.  The
    label 'Unknown' never shows. *)
Theorem status_card_of_detection (mounted : bool) (startTime : Z) :
  exists s,
    usePlatformDetection present late late_race getExtensionId_call bodhiext
      mounted startTime = Some s
    /\ if negb mounted then
         s = detection_initial
         /\ label (getStatusDisplay s) = "Detecting" /\ shows_retry s = false
       else
         shows_retry s = true
         /\ ((exists extensionId,
                PlatformDetectionState.client s
                = Some (ExtensionClientImpl extensionId bodhiext)
                /\ label (getStatusDisplay s) = "Detected"
                /\ description (getStatusDisplay s)
                   = "Extension found with ID: " +:+ extensionId)
             \/ (exists t,
                   PlatformDetectionState.client s = None
                   /\ label (getStatusDisplay s) = "Error"
                   /\ (description (getStatusDisplay s)
                       = "Bodhi extension not detected within "
                         +:+ num_to_string t +:+ "ms"
                       \/ description (getStatusDisplay s)
                          = "Timeout fetching extension ID within "
                            +:+ num_to_string t +:+ "ms"))).
Proof.
  unfold usePlatformDetection.
  destruct (loadExtensionClient_settles (Some 5000) startTime)
    as [[Hcall _]|[_ [[extensionId Hcall]|[t Hcall]]]]; rewrite Hcall;
    eexists; (split; [reflexivity|]); destruct mounted; cbn [negb detectExtension];
    try (repeat split; reflexivity).
  - split; [reflexivity|]. right. exists 5000. repeat split. now left.
  - split; [reflexivity|]. left. exists extensionId. repeat split.
  - split; [reflexivity|]. right. exists t. repeat split. now right.
Qed.

End PlatformDetectionFacts.

Lemma usePlatformDetection_absent_witness :
  usePlatformDetection (fun _ => false) (fun _ => 0%N) 0%N IdHangs None true 0
  = Some {| PlatformDetectionState.status := PlatformDetectionStatus.error;
            PlatformDetectionState.client := None;
            PlatformDetectionState.extensionId := None;
            PlatformDetectionState.error :=
              Some "Bodhi extension not detected within 5000ms" |}.
Proof. apply usePlatformDetection_absent. reflexivity. Defined.

(** ** [useAuthentication] *)

Lemma fetchUserInfo_resolved (c : ExtensionClient) (w w' : World) (u : UserInfo) :
  fetchUserInfo c w = (w', Ok u) ->
  isAuthenticated w = true /\ isAuthenticated w' = true
  /\ getUserInfo w' = UserInfo_value u
  /\ exists request, sent w' = sent w ++ [request].
Proof.
  unfold fetchUserInfo. destruct (truthy (getAccessToken w)) eqn:Htok;
    cbn [negb]; [|discriminate].
  destruct (sendApiRequest c _) as [response|e]; [|discriminate].
  intros [= <- <-]. split; [exact Htok|]. split; [|split].
  - unfold isAuthenticated, getAccessToken, setUserInfo.
    cbn [localStorage with_storage do_send].
    rewrite getItem_setItem_ne by discriminate. exact Htok.
  - apply getUserInfo_stored.
  - now eexists.
Qed.

Lemma fetchUserInfo_rejected (c : ExtensionClient) (w w' : World) (e : exn) :
  fetchUserInfo c w = (w', Rejected e) ->
  localStorage w' = localStorage w
  /\ (e = Error "No access token available"
      \/ exists reason, e = Error ("Failed to fetch user info: " +:+ reason)).
Proof.
  unfold fetchUserInfo. destruct (negb (truthy (getAccessToken w))).
  - intros [= <- <-]. split; [reflexivity | now left].
  - destruct (sendApiRequest c _) as [response|e0]; [discriminate|].
    intros [= <- <-]. split; [reflexivity | right; now eexists].
Qed.

Lemma logout_not_authenticated (w : World) : isAuthenticated (logout w) = false.
Proof.
  unfold isAuthenticated, getAccessToken, logout.
  cbn [localStorage set_exchanging with_storage].
  now rewrite getItem_remove_all.
Qed.

Section AuthenticationFacts.

Variable origin : string.

Lemma hook_fetchUserInfo_consistent ps hw :
  auth_consistent hw -> auth_consistent (hook_fetchUserInfo ps hw).
Proof.
  destruct hw as [h w]. unfold hook_fetchUserInfo.
  destruct (PlatformDetectionState.client ps) as [c|]; [|trivial].
  intros _. destruct (fetchUserInfo c w) as [w' [u|e]] eqn:Hcall.
  - destruct (fetchUserInfo_resolved c w w' u Hcall) as (_ & Hauth & _).
    intros _. split; [reflexivity | exact Hauth].
  - intros H. discriminate H.
Qed.

Lemma auth_effect_consistent ps hw :
  auth_consistent hw -> auth_consistent (auth_effect ps hw).
Proof.
  intros Hinv. unfold auth_effect.
  destruct (PlatformDetectionState.status ps); try exact Hinv.
  destruct (PlatformDetectionState.client ps) as [c|] eqn:Hc; [|exact Hinv].
  destruct hw as [h w]. unfold checkExistingAuth.
  destruct (isAuthenticated w) eqn:Hauth; [|exact Hinv].
  destruct (value_truthy (getUserInfo w)) eqn:Hinfo.
  - intros _. split; [exact Hinfo | exact Hauth].
  - rewrite Hc. now apply hook_fetchUserInfo_consistent.
Qed.

Lemma hook_login_consistent ps rng hw :
  auth_consistent hw -> auth_consistent (fst (fst (hook_login origin ps rng hw))).
Proof.
  destruct hw as [h w]. unfold hook_login.
  destruct (PlatformDetectionState.client ps) as [c|]; [|trivial].
  intros _. destruct (requestResourceAccess c w) as [w1 [scope|e]];
    [|intros H; discriminate H].
  destruct (buildAuthUrl origin rng w1) as [[w2 [url|e]] rng2]; intros H; discriminate H.
Qed.

Lemma hook_step_consistent ev hw :
  auth_consistent hw -> auth_consistent (hook_step origin ev hw).
Proof.
  destruct ev as [ps|ps rng|]; cbn [hook_step].
  - apply auth_effect_consistent.
  - apply hook_login_consistent.
  - destruct hw as [h w]. intros _ H. discriminate H.
Qed.

Lemma hook_run_consistent events : forall hw,
  auth_consistent hw -> auth_consistent (hook_run origin events hw).
Proof.
  induction events as [|ev events IH]; intros hw Hinv; [exact Hinv|].
  cbn [hook_run fold_left]. apply IH. now apply hook_step_consistent.
Qed.

(** X14. Whatever sequence of platform changes, logins and logouts the
    hook goes through, one after the other, starting from its first state on
    any storage: whenever it says [authenticated], it has a user to show and
    an access token is persisted. *)
Theorem useAuthentication_consistent (events : list HookEvent) (w : World) :
  auth_consistent (hook_run origin events (auth_initial, w)).
Proof. apply hook_run_consistent. intros H. discriminate H. Qed.

Lemma failed_profile_fetch_aux ps c h w e :
  PlatformDetectionState.status ps = PlatformDetectionStatus.detected ->
  PlatformDetectionState.client ps = Some c ->
  isAuthenticated w = true ->
  value_truthy (getUserInfo w) = false ->
  (forall request, sendApiRequest c request = Rejected e) ->
  exists w',
    auth_effect ps (h, w)
    = ({| AuthenticationState.status := AuthState.error;
          AuthenticationState.userInfo := AuthenticationState.userInfo h;
          AuthenticationState.error :=
            Some ("Failed to fetch user info: " +:+ describe e) |}, w')
    /\ isAuthenticated w' = false
    /\ (forall k, k ∈ STORAGE_KEYS.values -> getItem k (localStorage w') = None)
    /\ isExchangingTokens w' = false.
Proof.
  intros Hst Hc Hauth Hinfo Hfail. unfold auth_effect. rewrite Hst, Hc.
  unfold checkExistingAuth. rewrite Hauth, Hinfo, Hc.
  unfold hook_fetchUserInfo. rewrite Hc. unfold fetchUserInfo.
  unfold isAuthenticated in Hauth. rewrite Hauth. cbn [negb]. rewrite Hfail.
  eexists. split; [reflexivity|]. split; [apply logout_not_authenticated|].
  split; [|reflexivity].
  intros k Hk. unfold logout. cbn [localStorage set_exchanging with_storage].
  rewrite getItem_remove_all. now rewrite bool_decide_eq_true_2.
Qed.

(** X15. A session that cannot be confirmed is thrown away.  When a token
    is persisted but no usable user info is cached (none, empty, corrupt or
    falsy) and the bridge rejects the profile request, the hook ends in
    [error] with 'Failed to fetch user info: ...', keeps the user info it
    had, and has logged the manager out: the six entries are gone. *)
Theorem failed_profile_fetch_discards_session ps c h w e :
  PlatformDetectionState.status ps = PlatformDetectionStatus.detected ->
  PlatformDetectionState.client ps = Some c ->
  isAuthenticated w = true ->
  value_truthy (getUserInfo w) = false ->
  (forall request, sendApiRequest c request = Rejected e) ->
  exists w',
    auth_effect ps (h, w)
    = ({| AuthenticationState.status := AuthState.error;
          AuthenticationState.userInfo := AuthenticationState.userInfo h;
          AuthenticationState.error :=
            Some ("Failed to fetch user info: " +:+ describe e) |}, w')
    /\ isAuthenticated w' = false
    /\ (forall k, k ∈ STORAGE_KEYS.values -> getItem k (localStorage w') = None)
    /\ isExchangingTokens w' = false.
Proof. apply failed_profile_fetch_aux. Qed.

(** X16. A profile fetched once is served from the storage afterwards.
    If the hook's profile fetch ended in [authenticated], then on the next
    load of the page (the hook in its first state, the storage kept) the
    effect brings back [authenticated] with the same user info, and sends
    nothing. *)
Theorem cached_profile_is_reused ps c h w h1 w1 :
  PlatformDetectionState.status ps = PlatformDetectionStatus.detected ->
  PlatformDetectionState.client ps = Some c ->
  hook_fetchUserInfo ps (h, w) = (h1, w1) ->
  AuthenticationState.status h1 = AuthState.authenticated ->
  auth_effect ps (auth_initial, w1)
  = ({| AuthenticationState.status := AuthState.authenticated;
        AuthenticationState.userInfo := AuthenticationState.userInfo h1;
        AuthenticationState.error := None |}, w1).
Proof.
  intros Hst Hc Hfetch Hstatus. unfold hook_fetchUserInfo in Hfetch.
  rewrite Hc in Hfetch.
  destruct (fetchUserInfo c w) as [w' [u|e]] eqn:Hcall.
  - destruct (fetchUserInfo_resolved c w w' u Hcall) as (_ & Hauth & Hget & _).
    injection Hfetch as <- <-. cbn [AuthenticationState.userInfo setAuthError
      setAuthStatus setHookUserInfo].
    unfold auth_effect. rewrite Hst, Hc. unfold checkExistingAuth.
    rewrite Hauth, Hget. reflexivity.
  - injection Hfetch as <- <-. discriminate Hstatus.
Qed.

Lemma hook_login_outcome_aux ps rng h w :
  exists h' w' rng' nav,
    hook_login origin ps rng (h, w) = (h', w', rng', nav)
    /\ match nav with
       | Some url =>
           AuthenticationState.status h' = AuthState.authenticating
           /\ AuthenticationState.error h' = None
           /\ exists scope state codeVerifier,
                scope <> EmptyString /\ state <> EmptyString
                /\ codeVerifier <> EmptyString
                /\ getItem STORAGE_KEYS.RESOURCE_SCOPE (localStorage w') = Some scope
                /\ getItem STORAGE_KEYS.STATE (localStorage w') = Some state
                /\ getItem STORAGE_KEYS.CODE_VERIFIER (localStorage w')
                   = Some codeVerifier
                /\ URLSearchParams.get "state" (searchParams url) = Some state
                /\ URLSearchParams.get "code_challenge" (searchParams url)
                   = Some (PKCEUtils.generatePKCEChallenge codeVerifier)
                /\ URLSearchParams.get "scope" (searchParams url)
                   = Some ("openid email profile roles scope_user_user " +:+ scope)
       | None =>
           (PlatformDetectionState.client ps = None
            /\ w' = w
            /\ AuthenticationState.status h' = AuthenticationState.status h
            /\ AuthenticationState.error h'
               = Some "Extension not available. Please ensure the Bodhi browser extension is installed.")
           \/ (exists reason,
                 AuthenticationState.status h' = AuthState.error
                 /\ AuthenticationState.error h'
                    = Some ("Failed to request resource access: " +:+ reason)
                 /\ localStorage w' = localStorage w)
       end.
Proof.
  destruct (PlatformDetectionState.client ps) as [c|] eqn:Hc.
  2:{ eexists _, _, _, _. split; [unfold hook_login; rewrite Hc; reflexivity|].
      left. repeat split. }
  destruct (requestResourceAccess c w) as [w1 [scope|e]] eqn:Hreq.
  - assert (Hok : snd (requestResourceAccess c w) = Ok scope) by now rewrite Hreq.
    destruct (requestResourceAccess_scope c w scope Hok) as [Hne Hget].
    rewrite Hreq in Hget. cbn [fst] in Hget.
    eexists _, _, _, _. split.
    { unfold hook_login. rewrite Hc, Hreq.
      rewrite (buildAuthUrl_result origin rng w1 scope Hget Hne). reflexivity. }
    cbv beta iota. split; [reflexivity|]. split; [reflexivity|].
    exists scope, (fst (PKCEUtils.generateRandomString 32 rng)),
      (fst (PKCEUtils.generateRandomString 128
              (snd (PKCEUtils.generateRandomString 32 rng)))).
    rewrite searchParams_auth. cbn [localStorage with_storage].
    split; [exact Hne|].
    split; [apply (nonempty_of_length _ 31), generateRandomString_length|].
    split; [apply (nonempty_of_length _ 127), generateRandomString_length|].
    rewrite (getItem_setItem_ne STORAGE_KEYS.CODE_VERIFIER STORAGE_KEYS.STATE)
      by discriminate.
    rewrite !getItem_setItem.
    rewrite !getItem_setItem_ne by discriminate.
    repeat split. exact Hget.
  - assert (Hrej : snd (requestResourceAccess c w) = Rejected e) by now rewrite Hreq.
    destruct (requestResourceAccess_rejects c w e Hrej) as [[reason ->] Hsame].
    rewrite Hreq in Hsame. cbn [fst] in Hsame.
    eexists _, _, _, _. split; [unfold hook_login; rewrite Hc, Hreq; reflexivity|].
    right. exists reason. repeat split. exact Hsame.
Qed.

(** X17. How [login] can end.  If it sends the browser to a URL, the hook
    is [authenticating] without error, and the storage holds a scope, a
    state and a code verifier, none of them empty, that agree with the URL:
    its state is the stored one, its challenge is that of the stored
    verifier, its scope ends in the stored scope.  If it does not, either
    the hook had no client, and then only the error text is set (the
    status stays what it was and nothing is sent or stored), or the bridge
    refused, and then the hook is in [error] with 'Failed to request
    resource access: ...' and the storage is as before. *)
Theorem hook_login_outcome ps rng h w :
  exists h' w' rng' nav,
    hook_login origin ps rng (h, w) = (h', w', rng', nav)
    /\ match nav with
       | Some url =>
           AuthenticationState.status h' = AuthState.authenticating
           /\ AuthenticationState.error h' = None
           /\ exists scope state codeVerifier,
                scope <> EmptyString /\ state <> EmptyString
                /\ codeVerifier <> EmptyString
                /\ getItem STORAGE_KEYS.RESOURCE_SCOPE (localStorage w') = Some scope
                /\ getItem STORAGE_KEYS.STATE (localStorage w') = Some state
                /\ getItem STORAGE_KEYS.CODE_VERIFIER (localStorage w')
                   = Some codeVerifier
                /\ URLSearchParams.get "state" (searchParams url) = Some state
                /\ URLSearchParams.get "code_challenge" (searchParams url)
                   = Some (PKCEUtils.generatePKCEChallenge codeVerifier)
                /\ URLSearchParams.get "scope" (searchParams url)
                   = Some ("openid email profile roles scope_user_user " +:+ scope)
       | None =>
           (PlatformDetectionState.client ps = None
            /\ w' = w
            /\ AuthenticationState.status h' = AuthenticationState.status h
            /\ AuthenticationState.error h'
               = Some "Extension not available. Please ensure the Bodhi browser extension is installed.")
           \/ (exists reason,
                 AuthenticationState.status h' = AuthState.error
                 /\ AuthenticationState.error h'
                    = Some ("Failed to request resource access: " +:+ reason)
                 /\ localStorage w' = localStorage w)
       end.
Proof. apply hook_login_outcome_aux. Qed.

End AuthenticationFacts.

Lemma failed_profile_fetch_discards_session_witness :
  exists w',
    auth_effect (Sample2.detected_with Sample2.gone) (auth_initial, Sample2.with_token)
    = ({| AuthenticationState.status := AuthState.error;
          AuthenticationState.userInfo := JSON.JNull;
          AuthenticationState.error :=
            Some "Failed to fetch user info: Bodhi extension not available" |}, w')
    /\ isAuthenticated w' = false.
Proof.
  destruct (failed_profile_fetch_discards_session
              (Sample2.detected_with Sample2.gone) Sample2.gone auth_initial
              Sample2.with_token (Error "Bodhi extension not available")
              eq_refl eq_refl eq_refl eq_refl (fun _ => eq_refl))
    as (w' & Hcall & Hauth & _).
  exists w'. split; [exact Hcall | exact Hauth].
Defined.

Lemma cached_profile_is_reused_witness :
  auth_effect (Sample2.detected_with Sample.bridge)
    (auth_initial,
     snd (hook_fetchUserInfo (Sample2.detected_with Sample.bridge)
            (auth_initial, Sample2.with_token)))
  = ({| AuthenticationState.status := AuthState.authenticated;
        AuthenticationState.userInfo :=
          AuthenticationState.userInfo
            (fst (hook_fetchUserInfo (Sample2.detected_with Sample.bridge)
                    (auth_initial, Sample2.with_token)));
        AuthenticationState.error := None |},
     snd (hook_fetchUserInfo (Sample2.detected_with Sample.bridge)
            (auth_initial, Sample2.with_token))).
Proof.
  apply (cached_profile_is_reused (Sample2.detected_with Sample.bridge) Sample.bridge
           auth_initial Sample2.with_token); reflexivity.
Defined.

(** ** [CallbackPage] *)

Section CallbackFacts.

Variable origin : string.
Variable fetch : FetchRequest -> result Response.

Lemma exchange_invalid_state_aux (code state : string) (w : World) :
  isAuthenticated w = false -> isExchangingTokens w = false ->
  getItem STORAGE_KEYS.STATE (localStorage w) <> Some state ->
  exchangeCodeForTokens origin fetch code state w
  = (w, Settled (Rejected (Error "Invalid state parameter"))).
Proof.
  intros Hauth Hflag Hne. unfold exchangeCodeForTokens, exchange_enter.
  rewrite Hauth, Hflag. cbn [localStorage set_exchanging].
  rewrite (strict_ne_other _ _ Hne), orb_true_r. cbn [finally_release continue].
  now rewrite set_exchanging_twice, <- Hflag, set_exchanging_same.
Qed.


Lemma callback_proceeds_true (params : CallbackParams) :
  callback_proceeds params = true ->
  truthy (param_error params) = false
  /\ truthy (param_code params) = true /\ truthy (param_state params) = true.
Proof.
  unfold callback_proceeds. intros [[H1 H2]%andb_true_iff H3]%andb_true_iff.
  apply negb_true_iff in H1. auto.
Qed.

(** The page once it goes on to the exchange. *)
Lemma processCallback_proceeds (params : CallbackParams) (mounted : bool) (w : World) :
  callback_proceeds params = true ->
  processCallback origin fetch params mounted w
  = match exchangeCodeForTokens origin fetch
            (default EmptyString (param_code params))
            (default EmptyString (param_state params)) w with
    | (w, Settled (Ok _)) =>
        if negb mounted
        then (w, ProcessingState.processing "Exchanging authorization code for token...",
              None)
        else (w, ProcessingState.success, Some 2000)
    | (w, Settled (Rejected error)) =>
        if negb mounted
        then (w, ProcessingState.processing "Exchanging authorization code for token...",
              None)
        else (w, ProcessingState.error (describe error), None)
    | (w, Suspended _) =>
        (w, ProcessingState.processing "Exchanging authorization code for token...", None)
    end.
Proof.
  intros (He & Hc & Hs)%callback_proceeds_true. unfold processCallback.
  now rewrite He, Hc, Hs.
Qed.

Lemma callback_stops_early_aux (params : CallbackParams) (mounted : bool) (w : World) :
  callback_proceeds params = false ->
  exists msg,
    processCallback origin fetch params mounted w = (w, ProcessingState.error msg, None)
    /\ (msg = "User denied access to the application"
        \/ (exists reason, msg = "OAuth error: " +:+ reason)
        \/ msg = "Authorization code not found"
        \/ msg = "State parameter not found")
    /\ (truthy (param_error params) = true ->
        msg = "User denied access to the application"
        \/ exists reason, msg = "OAuth error: " +:+ reason).
Proof.
  unfold callback_proceeds, processCallback. intros Hstop.
  destruct (truthy (param_error params)) eqn:He.
  - destruct (String.eqb _ "access_denied"); eexists; (split; [reflexivity|]); split;
      intros; eauto.
  - destruct (truthy (param_code params)) eqn:Hc; cbn [negb].
    + destruct (truthy (param_state params)) eqn:Hs; [discriminate|].
      eexists. split; [reflexivity|]. split; [auto | discriminate].
    + eexists. split; [reflexivity|]. split; [auto | discriminate].
Qed.


(** X18. A callback that carries an [error] parameter, or lacks the code or
    the state (missing or empty), stops before the exchange: the world is
    as it was, nothing is sent, no timer is set, and the page shows one of
    four kinds of message.  The error parameter wins over a code and a state
    that may be there as well. *)
Theorem callback_stops_early (params : CallbackParams) (mounted : bool) (w : World) :
  callback_proceeds params = false ->
  exists msg,
    processCallback origin fetch params mounted w = (w, ProcessingState.error msg, None)
    /\ (msg = "User denied access to the application"
        \/ (exists reason, msg = "OAuth error: " +:+ reason)
        \/ msg = "Authorization code not found"
        \/ msg = "State parameter not found")
    /\ (truthy (param_error params) = true ->
        msg = "User denied access to the application"
        \/ exists reason, msg = "OAuth error: " +:+ reason).
Proof. apply callback_stops_early_aux. Qed.

(** X19. Leaving the page does not stop the exchange.  Whether or not the
    page is still mounted when the exchange settles, the world ends up the
    same (tokens persisted or not, requests sent); an unmounted page just
    goes on showing 'Exchanging authorization code for token...' and sets
    no timer. *)
Theorem callback_unmount_only_hides (params : CallbackParams) (w : World) :
  fst (fst (processCallback origin fetch params false w))
  = fst (fst (processCallback origin fetch params true w))
  /\ (callback_proceeds params = true ->
      snd (fst (processCallback origin fetch params false w))
      = ProcessingState.processing "Exchanging authorization code for token..."
      /\ snd (processCallback origin fetch params false w) = None).
Proof.
  destruct (callback_proceeds params) eqn:Hp.
  - rewrite !processCallback_proceeds by exact Hp.
    destruct (exchangeCodeForTokens origin fetch _ _ w) as [w' [[[]|e]|s]];
      cbn [negb fst snd]; repeat split.
  - destruct (callback_stops_early_aux params false w Hp) as (m1 & H1 & _).
    destruct (callback_stops_early_aux params true w Hp) as (m2 & H2 & _).
    rewrite H1, H2. split; [reflexivity | discriminate].
Qed.

(** X20. What 'success' on the callback page stands for.  When the page
    (still mounted) shows success, it has set the 2000 ms timer that takes
    the user home, and either an access token is persisted, or the in-flight
    flag was up when the page started and nothing at all was done. *)
Theorem callback_success_means (params : CallbackParams) (w w' : World)
    (timer : option Z) :
  processCallback origin fetch params true w = (w', ProcessingState.success, timer) ->
  timer = Some 2000
  /\ (isAuthenticated w' = true \/ (isExchangingTokens w = true /\ w' = w)).
Proof.
  intros Hcall. destruct (callback_proceeds params) eqn:Hp.
  2:{ destruct (callback_stops_early_aux params true w Hp) as (msg & Hstop & _).
      rewrite Hstop in Hcall. discriminate. }
  rewrite processCallback_proceeds in Hcall by exact Hp.
  destruct (exchange_summary origin fetch
              (default EmptyString (param_code params))
              (default EmptyString (param_state params)) w)
    as (w1 & r & Hex & Hr & _).
  rewrite Hex in Hcall. destruct r as [[]|e]; cbn [negb] in Hcall; [|discriminate].
  injection Hcall as <- <-. split; [reflexivity | exact Hr].
Qed.

(** X21. Success is shown without a token when another exchange is in
    flight.  If the flag is up and no token is persisted, a callback with a
    code and a state reports success at once, sets the timer, sends nothing
    and leaves the manager not authenticated. *)
Theorem callback_success_without_token (params : CallbackParams) (w : World) :
  callback_proceeds params = true ->
  isExchangingTokens w = true -> isAuthenticated w = false ->
  processCallback origin fetch params true w = (w, ProcessingState.success, Some 2000)
  /\ isAuthenticated
       (fst (fst (processCallback origin fetch params true w))) = false.
Proof.
  intros Hp Hflag Hauth. rewrite processCallback_proceeds by exact Hp.
  unfold exchangeCodeForTokens. rewrite exchange_enter_guarded by now right.
  cbn [continue negb fst]. split; [reflexivity | exact Hauth].
Qed.

(** X22. A callback whose state is not the stored one is turned down.  With
    no token persisted and the flag down, the page shows 'Invalid state
    parameter'; the world is as it was and nothing is sent. *)
Theorem callback_forged_state (params : CallbackParams) (w : World) :
  callback_proceeds params = true ->
  isAuthenticated w = false -> isExchangingTokens w = false ->
  getItem STORAGE_KEYS.STATE (localStorage w) <> param_state params ->
  processCallback origin fetch params true w
  = (w, ProcessingState.error "Invalid state parameter", None).
Proof.
  intros Hp Hauth Hflag Hne. rewrite processCallback_proceeds by exact Hp.
  rewrite exchange_invalid_state_aux; try assumption; [reflexivity|].
  destruct (callback_proceeds_true params Hp) as (_ & _ & Hs).
  destruct (param_state params) as [s|]; [|discriminate]. exact Hne.
Qed.


End CallbackFacts.

Lemma callback_stops_early_witness :
  exists msg,
    processCallback Sample.origin Sample.offline
      {| param_code := Some "c1";
         param_state := Some "st";
         param_error := Some "access_denied";
         param_error_description := Some "The user said no" |} true Sample.ready
    = (Sample.ready, ProcessingState.error msg, None)
    /\ msg = "OAuth error: The user said no".
Proof.
  destruct (callback_stops_early Sample.origin Sample.offline
              {| param_code := Some "c1";
                 param_state := Some "st";
                 param_error := Some "access_denied";
                 param_error_description := Some "The user said no" |}
              true Sample.ready eq_refl) as (msg & Hcall & _).
  exists msg. split; [exact Hcall|].
  vm_compute in Hcall. congruence.
Defined.

Lemma callback_unmount_only_hides_witness :
  snd (fst (processCallback Sample.origin (fun _ => Ok Sample.granted)
              (Sample2.returned (Some "c1") (Some "st")) false Sample.ready))
  = ProcessingState.processing "Exchanging authorization code for token..."
  /\ isAuthenticated
       (fst (fst (processCallback Sample.origin (fun _ => Ok Sample.granted)
                    (Sample2.returned (Some "c1") (Some "st")) false Sample.ready)))
     = true.
Proof.
  split.
  - exact (proj1 (proj2 (callback_unmount_only_hides Sample.origin
                           (fun _ => Ok Sample.granted)
                           (Sample2.returned (Some "c1") (Some "st")) Sample.ready)
                    eq_refl)).
  - reflexivity.
Defined.

Lemma callback_success_means_witness :
  Some 2000 = Some 2000
  /\ (isAuthenticated
        (fst (fst (processCallback Sample.origin (fun _ => Ok Sample.granted)
                     (Sample2.returned (Some "c1") (Some "st")) true Sample.ready)))
      = true
      \/ (isExchangingTokens Sample.ready = true
          /\ fst (fst (processCallback Sample.origin (fun _ => Ok Sample.granted)
                         (Sample2.returned (Some "c1") (Some "st")) true Sample.ready))
             = Sample.ready)).
Proof.
  apply (callback_success_means Sample.origin (fun _ => Ok Sample.granted)
           (Sample2.returned (Some "c1") (Some "st")) Sample.ready).
  reflexivity.
Defined.

Lemma callback_success_without_token_witness :
  processCallback Sample.origin Sample.offline
    (Sample2.returned (Some "c1") (Some "st")) true (set_exchanging true Sample.ready)
  = (set_exchanging true Sample.ready, ProcessingState.success, Some 2000)
  /\ isAuthenticated
       (fst (fst (processCallback Sample.origin Sample.offline
                    (Sample2.returned (Some "c1") (Some "st")) true
                    (set_exchanging true Sample.ready))))
     = false.
Proof.
  apply callback_success_without_token; reflexivity.
Defined.

Lemma callback_forged_state_witness :
  processCallback Sample.origin Sample.offline
    (Sample2.returned (Some "c1") (Some "forged")) true Sample.ready
  = (Sample.ready, ProcessingState.error "Invalid state parameter", None).
Proof.
  apply callback_forged_state; try reflexivity. vm_compute. discriminate.
Defined.


(** ** Two logins in a row, and what the bridge's status is worth *)

Section LoginTwice.

Variable origin : string.
Variable fetch : FetchRequest -> result Response.

(** X24. A second [buildAuthUrl] takes over.  It replaces the stored state
    and verifier, so a callback that comes back with the state of the first
    URL, if it differs from that of the second, is rejected with 'Invalid
    state parameter', and nothing is sent. *)
Theorem second_login_invalidates_first
    (rng1 rng2 rng1' rng2' : Rng) (w w1 w2 : World) (url1 url2 state1 code : string) :
  buildAuthUrl origin rng1 w = (w1, Ok url1, rng1') ->
  buildAuthUrl origin rng2 w1 = (w2, Ok url2, rng2') ->
  isAuthenticated w = false -> isExchangingTokens w = false ->
  URLSearchParams.get "state" (searchParams url1) = Some state1 ->
  URLSearchParams.get "state" (searchParams url2) <> Some state1 ->
  exchangeCodeForTokens origin fetch code state1 w2
  = (w2, Settled (Rejected (Error "Invalid state parameter")))
  /\ fetched w2 = fetched w.
Proof.
  intros Hb1 Hb2 Hauth Hflag Hs1 Hdiff.
  destruct (buildAuthUrl_binding origin rng1 w w1 url1 rng1' Hb1)
    as (_ & _ & _ & _ & _ & _ & Hacc1 & Hfl1 & Hfe1 & _).
  destruct (buildAuthUrl_binding origin rng2 w1 w2 url2 rng2' Hb2)
    as (s2 & _ & _ & _ & Hst2 & _ & Hacc2 & Hfl2 & Hfe2 & _ & Hurl2 & _).
  split; [|congruence].
  apply exchange_invalid_state_aux.
  - unfold isAuthenticated, getAccessToken. rewrite Hacc2, Hacc1. exact Hauth.
  - congruence.
  - rewrite Hst2, <- Hurl2. exact Hdiff.
Qed.

End LoginTwice.

Lemma second_login_invalidates_first_witness :
  exchangeCodeForTokens Sample.origin Sample.offline "c1" Sample.state
    (fst (fst (buildAuthUrl Sample.origin (fun _ => "b"%char)
                 (fst (fst (buildAuthUrl Sample.origin Sample.rng Sample.ready))))))
  = (fst (fst (buildAuthUrl Sample.origin (fun _ => "b"%char)
                 (fst (fst (buildAuthUrl Sample.origin Sample.rng Sample.ready))))),
     Settled (Rejected (Error "Invalid state parameter"))).
Proof.
  refine (proj1 (second_login_invalidates_first Sample.origin Sample.offline
                   Sample.rng (fun _ => "b"%char)
                   (snd (buildAuthUrl Sample.origin Sample.rng Sample.ready))
                   (snd (buildAuthUrl Sample.origin (fun _ => "b"%char)
                           (fst (fst (buildAuthUrl Sample.origin Sample.rng
                                        Sample.ready)))))
                   Sample.ready _ _
                   (match snd (fst (buildAuthUrl Sample.origin Sample.rng Sample.ready))
                    with Ok url => url | Rejected _ => EmptyString end)
                   (match snd (fst (buildAuthUrl Sample.origin (fun _ => "b"%char)
                                      (fst (fst (buildAuthUrl Sample.origin Sample.rng
                                                   Sample.ready)))))
                    with Ok url => url | Rejected _ => EmptyString end)
                   Sample.state "c1" eq_refl eq_refl eq_refl eq_refl eq_refl _)).
  vm_compute. discriminate.
Defined.

(** X25. Neither [requestResourceAccess] nor [fetchUserInfo] looks at the
    status or the headers of the bridge's answer: with two clients whose
    answers have the same bodies, each gives the same result and leaves
    the same world.  So an answer with an error status and no fields is
    taken as a user 'Unknown' with role 'user'. *)
Theorem bridge_status_is_ignored (c1 c2 : ExtensionClient) (w : World) :
  same_bodies c1 c2 ->
  requestResourceAccess c1 w = requestResourceAccess c2 w
  /\ fetchUserInfo c1 w = fetchUserInfo c2 w.
Proof.
  intros Hsame. split.
  - unfold requestResourceAccess.
    match goal with |- context [sendApiRequest c1 ?r] => specialize (Hsame r) end.
    destruct (sendApiRequest c1 _) as [r1|e1], (sendApiRequest c2 _) as [r2|e2];
      try contradiction; [now rewrite Hsame | now subst].
  - unfold fetchUserInfo. destruct (negb (truthy (getAccessToken w))); [reflexivity|].
    match goal with |- context [sendApiRequest c1 ?r] => specialize (Hsame r) end.
    destruct (sendApiRequest c1 _) as [r1|e1], (sendApiRequest c2 _) as [r2|e2];
      try contradiction; [now rewrite Hsame | now subst].
Qed.

Lemma bridge_status_is_ignored_witness :
  snd (fetchUserInfo (answering 401 ∅) Sample2.with_token)
  = Ok {| email := "Unknown"; role := "user"; tokenType := "Bearer"; loggedIn := true |}
  /\ fetchUserInfo (answering 401 ∅) Sample2.with_token
     = fetchUserInfo (answering 200 ∅) Sample2.with_token.
Proof.
  split; [reflexivity|].
  apply (bridge_status_is_ignored (answering 401 ∅) (answering 200 ∅)).
  intros request. reflexivity.
Defined.
